(** * Sparse rail generator and malfunction generator: a shallow embedding

    The Python sources modelled here are
    [baselines/flatland1/envs/step_utils/rail_generators_sparse_watch.py]
    (class [SparseRailGen]) and
    [baselines/flatland1/envs/malfunction_generators.py]
    (class [ParamMalfunctionGen]).

    Python integers are [Z]; list positions are [nat]; a Python exception is
    the [Raise] outcome; a [while] loop gets a fuel argument and the
    [OutOfFuel] outcome; [warnings.warn] appends to a log that is threaded
    through the functions that may warn. *)

From Stdlib Require Import ZArith Lia Bool String.
From Stdlib Require Import PrimFloat.
From stdpp Require Import base tactics option list.

Local Open Scope Z_scope.

(* Decimal float literals denote the nearest binary64 value, as in Python. *)
Set Warnings "-inexact-float".

(** ** Exceptions, outcomes and the warning log *)

Inductive exn : Type :=
  | ValueError (msg : string)
  | IndexError
  | UnboundLocalError
  | ZeroDivisionError.

Inductive outcome (A : Type) : Type :=
  | Ok (a : A)
  | Raise (e : exn)
  | OutOfFuel.
Arguments Ok {A} a.
Arguments Raise {A} e.
Arguments OutOfFuel {A}.

#[global] Instance outcome_ret : MRet outcome := fun A a => Ok a.
#[global] Instance outcome_bind : MBind outcome := fun A B f m =>
  match m with
  | Ok a => f a
  | Raise e => Raise e
  | OutOfFuel => OutOfFuel
  end.
#[global] Instance outcome_fmap : FMap outcome := fun A B f m =>
  match m with
  | Ok a => Ok (f a)
  | Raise e => Raise e
  | OutOfFuel => OutOfFuel
  end.

(** The messages passed to [warnings.warn] in the rail generator. *)
Inductive warning : Type :=
  | CouldNotSetAllCities (created requested : Z)
      (* "Could not set all required cities! Created {created}/{requested}" *)
  | ChangingToGridMode
      (* "[WARNING] Changing to Grid mode to place at least 2 cities." *)
  | NoLineAdded
      (* "[WARNING] No line added between stations" *)
  | UnableToConnect.
      (* "[WARNING] Unable to connect requested stations" *)

Definition infeasible_msg : string :=
  "ERROR: Cannot fit more than one city in this map, no feasible environment possible!".
Definition negative_dimensions_msg : string :=
  "negative dimensions are not allowed".
Definition randint_range_msg : string := "low >= high".

(** ** Python and numpy helpers *)

Abbreviation IntVector2D := (Z * Z)%type (only parsing).
Abbreviation IntVector2DArray := (list (Z * Z)) (only parsing).

Definition len {A} (l : list A) : Z := Z.of_nat (length l).

(** [l[i]] for a Python list: a negative index counts from the end, an index
    out of range raises [IndexError]. *)
Definition py_index {A} (l : list A) (i : Z) : outcome A :=
  let j := if i <? 0 then i + len l else i in
  if j <? 0 then Raise IndexError
  else match l !! Z.to_nat j with
       | Some x => Ok x
       | None => Raise IndexError
       end.

(** [range(n)] as a list of Python integers. *)
Definition range (n : Z) : list Z := Z.of_nat <$> seq 0 (Z.to_nat n).

(** [int(a / 2)] on integers: true division followed by truncation. *)
Definition int_half (a : Z) : Z := Z.quot a 2.

(** A [for] loop that builds a list by [append], one element per iteration,
    stopping at the first exception. *)
Fixpoint for_append {A B} (f : A -> outcome B) (l : list A) : outcome (list B) :=
  match l with
  | [] => Ok []
  | x :: l' =>
      y ← f x;
      ys ← for_append f l';
      Ok (y :: ys)
  end.


(** ** The random source

    [numpy.random.RandomState] is an interface here: a state, [randint],
    [random_sample] and the constructor from a seed. The only fact used
    about [randint(low, high)] is that the draw lies in [[low, high)]. *)
Record RNG : Type := {
  rng_state : Type;
  rng_randint : rng_state -> Z -> Z -> Z * rng_state;
  rng_randint_range :
    forall s low high, low < high -> low <= (rng_randint s low high).1 < high;
  rng_random_sample : rng_state -> float * rng_state;
  (* RandomState(seed) *)
  rng_seed : Z -> outcome rng_state;
}.

(** [np_random.randint(low, high)]: numpy raises [ValueError] on an empty
    range. [np_random.randint(n)] is [randint np_random 0 n]. *)
Definition randint {R : RNG} (np_random : rng_state R) (low high : Z)
  : outcome (Z * rng_state R) :=
  if low <? high then Ok (rng_randint R np_random low high)
  else Raise (ValueError randint_range_msg).

Definition seed_range_msg : string := "Seed must be between 0 and 2**32 - 1".

(** The raw integers a seed stands for in the scripted source below: 64
    steps of a linear congruential generator. *)
Fixpoint lcg_script (n : nat) (x : Z) : list Z :=
  match n with
  | O => []
  | S n' => let x' := (1103515245 * x + 12345) mod 2147483648 in
            x' / 65536 :: lcg_script n' x'
  end.

(** A scripted random source, for running the model on concrete inputs:
    the state holds the raw integers and the floats still to be drawn.
    [randint(low, high)] returns [low + x mod (high - low)] for the next raw
    integer [x] ([low] once the script is exhausted), [random_sample] the
    next float (0.5 once exhausted). *)
Program Definition ScriptedRNG : RNG := {|
  rng_state := list Z * list float;
  rng_randint := fun s low high =>
    match s.1 with
    | [] => (low, s)
    | x :: xs => (low + x mod (high - low), (xs, s.2))
    end;
  rng_random_sample := fun s =>
    match s.2 with
    | [] => (0.5%float, s)
    | x :: xs => (x, (s.1, xs))
    end;
  rng_seed := fun seed =>
    if (0 <=? seed) && (seed <? 4294967296)
    then Ok (lcg_script 64 seed, [])
    else Raise (ValueError seed_range_msg);
|}.
Next Obligation.
  intros [[|x xs] fs] low high Hlt; cbn.
  - lia.
  - pose proof (Z.mod_pos_bound x (high - low)). lia.
Qed.

(** ** Generic facts about the helpers *)

(** Reduces the binds of the outcome monad and nothing else. *)
Ltac osimpl :=
  cbn [mbind mret fmap outcome_bind outcome_ret outcome_fmap].
Tactic Notation "osimpl" "in" hyp(H) :=
  cbn [mbind mret fmap outcome_bind outcome_ret outcome_fmap] in H.

Lemma len_nonneg {A} (l : list A) : 0 <= len l.
Proof. unfold len. lia. Qed.

Lemma py_index_nat {A} (l : list A) (i : nat) :
  py_index l (Z.of_nat i) =
  match l !! i with Some x => Ok x | None => Raise IndexError end.
Proof.
  unfold py_index.
  destruct (Z.ltb_spec (Z.of_nat i) 0) as [Hneg|_]; [lia|].
  destruct (Z.ltb_spec (Z.of_nat i) 0) as [Hneg|_]; [lia|].
  by rewrite Nat2Z.id.
Qed.

Lemma range_len_seq (n : nat) : range (Z.of_nat n) = Z.of_nat <$> seq 0 n.
Proof. unfold range. by rewrite Nat2Z.id. Qed.

Lemma range_bounds (n i : Z) : i ∈ range n -> 0 <= i < n.
Proof.
  unfold range. intros (k & -> & Hk)%list_elem_of_fmap.
  apply elem_of_seq in Hk. lia.
Qed.

Lemma int_half_len {A} (l : list A) :
  int_half (len l) = Z.of_nat (length l / 2).
Proof.
  unfold int_half, len.
  rewrite Z.quot_div_nonneg by lia.
  by rewrite Nat2Z.inj_div.
Qed.

Lemma for_append_ok {A B} (f : A -> outcome B) (g : A -> B) (l : list A) :
  (forall x, x ∈ l -> f x = Ok (g x)) ->
  for_append f l = Ok (g <$> l).
Proof.
  induction l as [|x l IH]; intros Hf; [done|].
  cbn [for_append]. rewrite Hf by left. osimpl.
  rewrite IH; [done|]. intros y Hy. apply Hf. by right.
Qed.


(** * [ParamMalfunctionGen] (malfunction_generators.py) *)

Module ParamMalfunctionGen.

Record Malfunction : Type := { num_broken_steps : Z }.

Section Generate.

(** Outside the source file: the distance map, [np.exp], and the conversion
    of a Python integer to a float. Floats are IEEE binary64. *)
Variable DistanceMap : Type.
Variable np_exp : float -> float.
Variable float_of_int : Z -> float.
Variable R : RNG.

(** What [generate] reads of an [EnvAgent]. *)
Record EnvAgent : Type := {
  position : option (Z * Z);
  initial_position : option (Z * Z);
  get_travel_time_on_shortest_path : DistanceMap -> Z;
}.

(** [x / n] for a float [x] and a Python integer [n]. *)
Definition float_div_int (x : float) (n : Z) : outcome float :=
  if n =? 0 then Raise ZeroDivisionError
  else Ok (x / float_of_int n)%float.

(** [cum_prob_array[i]] for [i] in [range(50)]; [possible_delay_array[i]]
    is [i + 1]. *)
Definition cum_prob_array (param : float) (i : Z) : float :=
  ((1 - np_exp (- param * float_of_int (i + 1)))
   / (1 - np_exp (- param * float_of_int 50)))%float.

(** The search loop over [range(49)] with its [break]; [num_broken_steps]
    is 2 before the loop. *)
Fixpoint search_delay (param random_number : float) (idxs : list Z) : Z :=
  match idxs with
  | [] => 2
  | i :: idxs' =>
      if (cum_prob_array param i <? random_number)%float
         && (random_number <? cum_prob_array param (i + 1))%float
      then i + 2
      else search_delay param random_number idxs'
  end.

Definition generate (distance_map : DistanceMap) (np_random : rng_state R)
    (agent : EnvAgent) : outcome (Malfunction * rng_state R) :=
  let '(r0, np_random) := rng_random_sample R np_random in
  let '(r1, np_random) := rng_random_sample R np_random in
  let '(r2, np_random) := rng_random_sample R np_random in
  '(malfunction_prob, expected_delay) ←
    (if bool_decide (position agent = initial_position agent) then
       if (0 <=? r0)%float && (r0 <=? 0.48)%float then Ok (0.05, 0.2)%float
       else if (0.48 <? r0)%float && (r0 <=? 0.8)%float then Ok (0.05, 0.5)%float
       else Ok (0.05, 1)%float
     else
       if (0 <=? r0)%float && (r0 <=? 0.48)%float then
         p ← float_div_int 0.2 (get_travel_time_on_shortest_path agent distance_map + 1);
         Ok (p, 1.3%float)
       else if (0.48 <? r0)%float && (r0 <=? 0.8)%float then
         p ← float_div_int 0.5 (get_travel_time_on_shortest_path agent distance_map + 1);
         Ok (p, 2%float)
       else
         p ← float_div_int 0.5 (get_travel_time_on_shortest_path agent distance_map + 1);
         Ok (p, 5%float));
  let num_broken_steps :=
    match position agent with
    | None => 0
    | Some _ =>
        if (r1 <? malfunction_prob)%float then
          let param := (1 / (10 * expected_delay))%float in
          search_delay param r2 (range 49)
        else 0
    end in
  Ok ({| num_broken_steps := num_broken_steps |}, np_random).

Lemma search_delay_bounds (param random_number : float) (idxs : list Z) :
  (forall i, i ∈ idxs -> 0 <= i < 49) ->
  2 <= search_delay param random_number idxs <= 50.
Proof.
  induction idxs as [|i idxs IH]; intros Hin; cbn [search_delay]; [lia|].
  destruct (_ && _).
  - specialize (Hin i (list_elem_of_here _ _)). lia.
  - apply IH. intros j Hj. apply Hin. by right.
Qed.

(** C10. For an agent whose travel-time estimate is not [-1] (the estimate
    of [EnvAgent] is non-negative; at [-1] the division by
    [travel time + 1] raises), [generate] returns a [Malfunction]; its
    [num_broken_steps] is 0 when [agent.position] is [None], and it is
    never 1: it is 0 or lies between 2 and 50. *)
Theorem generate_num_broken_steps (distance_map : DistanceMap)
    (np_random : rng_state R) (agent : EnvAgent) :
  get_travel_time_on_shortest_path agent distance_map <> -1 ->
  exists m np_random',
    generate distance_map np_random agent
      = Ok ({| num_broken_steps := m |}, np_random')
    /\ (position agent = None -> m = 0)
    /\ (m = 0 \/ 2 <= m <= 50).
Proof.
  intros Htt. unfold generate.
  destruct (rng_random_sample R np_random) as [r0 s0].
  destruct (rng_random_sample R s0) as [r1 s1].
  destruct (rng_random_sample R s1) as [r2 s2].
  set (tt := get_travel_time_on_shortest_path agent distance_map) in *.
  assert (Hdiv : forall x, float_div_int x (tt + 1)
                           = Ok (x / float_of_int (tt + 1))%float).
  { intros x. unfold float_div_int.
    destruct (Z.eqb_spec (tt + 1) 0); [lia|done]. }
  assert (Hbody : forall (p e : float),
    exists m,
      (let num_broken_steps :=
         match position agent with
         | None => 0
         | Some _ =>
             if (r1 <? p)%float
             then search_delay (1 / (10 * e))%float r2 (range 49)
             else 0
         end in
       Ok ({| num_broken_steps := num_broken_steps |}, s2))
      = Ok ({| num_broken_steps := m |}, s2)
      /\ (position agent = None -> m = 0)
      /\ (m = 0 \/ 2 <= m <= 50)).
  { intros p e. eexists. split; [reflexivity|].
    destruct (position agent) as [pos|]; [|by auto].
    split; [done|].
    destruct (r1 <? p)%float; [right|by left].
    apply search_delay_bounds, range_bounds. }
  rewrite !Hdiv.
  destruct (bool_decide (position agent = initial_position agent));
    destruct ((0 <=? r0)%float && (r0 <=? 0.48)%float);
    destruct ((0.48 <? r0)%float && (r0 <=? 0.8)%float); osimpl;
    lazymatch goal with
    | |- context [(r1 <? ?p)%float] =>
        lazymatch goal with
        | |- context [(10 * ?e)%float] =>
            destruct (Hbody p e) as (m & Hm & H0 & Hr)
        end
    end; exists m, s2; auto.
Qed.

End Generate.

(** A concrete reading of the externals: integers converted exactly, and a
    rational stand-in for [np.exp] on non-positive arguments. *)
Fixpoint float_of_positive (p : positive) : float :=
  match p with
  | xH => 1
  | xO p' => 2 * float_of_positive p'
  | xI p' => 2 * float_of_positive p' + 1
  end%float.

Definition float_of_Z (z : Z) : float :=
  match z with
  | Z0 => 0
  | Zpos p => float_of_positive p
  | Zneg p => - float_of_positive p
  end%float.

Definition exp_stand_in (x : float) : float :=
  (1 / (1 - x + x * x / 2))%float.

Definition moving_agent : EnvAgent unit :=
  {| position := Some (3, 4);
     initial_position := Some (3, 9);
     get_travel_time_on_shortest_path := fun _ => 0 |}.

Lemma generate_num_broken_steps_witness :
  get_travel_time_on_shortest_path unit moving_agent tt <> -1
  /\ exists m np_random',
       generate unit exp_stand_in float_of_Z ScriptedRNG tt
         ([], [0.9; 0.1; 0.5]%float) moving_agent
       = Ok ({| num_broken_steps := m |}, np_random')
       /\ (position unit moving_agent = None -> m = 0)
       /\ (m = 0 \/ 2 <= m <= 50).
Proof.
  split; [cbn; lia|].
  apply (generate_num_broken_steps unit exp_stand_in float_of_Z ScriptedRNG
           tt ([], [0.9; 0.1; 0.5]%float) moving_agent).
  cbn; lia.
Defined.

End ParamMalfunctionGen.

(** * [SparseRailGen] (rail_generators_sparse_watch.py) *)

Module SparseRailGen.

(** ** StationPlacer: [_set_trainstation_positions] *)

Definition station_on_track (tracks : list IntVector2DArray) (track_nbr : Z)
  : outcome (IntVector2D * Z) :=
  track ← py_index tracks track_nbr;
  possible_location ← py_index track (int_half (len track));
  Ok (possible_location, track_nbr).

Definition _set_trainstation_positions (city_positions : IntVector2DArray)
    (city_radius : Z) (free_rails : list (list IntVector2DArray))
  : outcome (list (list (IntVector2D * Z))) :=
  for_append
    (fun current_city =>
       tracks ← py_index free_rails current_city;
       for_append (station_on_track tracks) (range (len tracks)))
    (range (len city_positions)).

(** ** StationPlacer: one station per free-rail track *)

Lemma station_on_track_ok (tracks : list IntVector2DArray) (k : nat)
    (track : IntVector2DArray) :
  tracks !! k = Some track -> track <> [] ->
  exists loc,
    station_on_track tracks (Z.of_nat k) = Ok (loc, Z.of_nat k)
    /\ track !! (length track / 2)%nat = Some loc.
Proof.
  intros Hk Hne. unfold station_on_track.
  rewrite py_index_nat, Hk. osimpl.
  rewrite int_half_len, py_index_nat.
  destruct (track !! (length track / 2)%nat) as [loc|] eqn:Hloc.
  - by exists loc.
  - apply lookup_ge_None in Hloc.
    destruct track as [|c track]; [done|].
    pose proof (Nat.div_lt (length (c :: track)) 2) as Hlt.
    cbn [length] in *. lia.
Qed.

Definition stations_of_tracks (tracks : list IntVector2DArray)
  : list (IntVector2D * Z) :=
  imap (fun k track => (default (0, 0) (track !! (length track / 2)%nat), Z.of_nat k))
       tracks.

Lemma stations_of_city_ok (tracks : list IntVector2DArray) :
  (forall track, track ∈ tracks -> track <> []) ->
  for_append (station_on_track tracks) (range (len tracks))
  = Ok (stations_of_tracks tracks).
Proof.
  intros Hne. unfold len. rewrite range_len_seq.
  rewrite (for_append_ok _
             (fun z => (default (0, 0)
                          (track ← tracks !! Z.to_nat z;
                           track !! (length track / 2)%nat), z))).
  - f_equal. unfold stations_of_tracks.
    apply list_eq. intros k.
    rewrite list_lookup_imap, !list_lookup_fmap.
    destruct (tracks !! k) as [track|] eqn:Hk.
    + rewrite lookup_seq_lt by (by eapply lookup_lt_Some).
      cbn [fmap option_fmap option_map Nat.add]. by rewrite Nat2Z.id, Hk.
    + rewrite lookup_seq_ge by (by apply lookup_ge_None). done.
  - intros z Hz. apply list_elem_of_fmap in Hz as (k & -> & Hk).
    apply elem_of_seq in Hk.
    destruct (lookup_lt_is_Some_2 tracks k) as [track Htrack]; [lia|].
    destruct (station_on_track_ok tracks k track Htrack) as (loc & -> & Hloc).
    { apply Hne. by eapply list_elem_of_lookup_2. }
    rewrite Nat2Z.id, Htrack. cbn [mbind option_bind]. by rewrite Hloc.
Qed.

(** C7. Provided [free_rails] has an entry for every city and every track is
    non-empty, [_set_trainstation_positions] returns one station list per
    city; the list of a city has as many stations as the city has free-rail
    tracks, and station [k] is the pair of the cell at index
    [len(track) // 2] of track [k] (a cell of that track) and [k]. *)
Theorem set_trainstation_positions_spec
    (city_positions : IntVector2DArray) (city_radius : Z)
    (free_rails : list (list IntVector2DArray)) :
  (length city_positions <= length free_rails)%nat ->
  (forall city tracks track,
      (city < length city_positions)%nat ->
      free_rails !! city = Some tracks -> track ∈ tracks -> track <> []) ->
  exists train_stations,
    _set_trainstation_positions city_positions city_radius free_rails
      = Ok train_stations
    /\ length train_stations = length city_positions
    /\ forall city, (city < length city_positions)%nat ->
       exists tracks stations,
         free_rails !! city = Some tracks
         /\ train_stations !! city = Some stations
         /\ length stations = length tracks
         /\ forall k track, tracks !! k = Some track ->
            exists loc,
              stations !! k = Some (loc, Z.of_nat k)
              /\ track !! (length track / 2)%nat = Some loc
              /\ loc ∈ track.
Proof.
  intros Hlen Hne.
  set (g := fun z : Z => stations_of_tracks (default [] (free_rails !! Z.to_nat z))).
  assert (Hrun : _set_trainstation_positions city_positions city_radius free_rails
                 = Ok (g <$> range (len city_positions))).
  { unfold _set_trainstation_positions. apply for_append_ok.
    intros z Hz. unfold len in Hz. rewrite range_len_seq in Hz.
    apply list_elem_of_fmap in Hz as (city & -> & Hcity).
    apply elem_of_seq in Hcity.
    destruct (lookup_lt_is_Some_2 free_rails city) as [tracks Htracks]; [lia|].
    rewrite py_index_nat, Htracks. osimpl.
    rewrite stations_of_city_ok.
    - unfold g. by rewrite Nat2Z.id, Htracks.
    - intros track Htrack. eapply Hne; [|done..]. lia. }
  eexists. split; [exact Hrun|]. split.
  { unfold len. rewrite range_len_seq, !length_fmap. apply length_seq. }
  intros city Hcity.
  destruct (lookup_lt_is_Some_2 free_rails city) as [tracks Htracks]; [lia|].
  exists tracks, (stations_of_tracks tracks).
  split; [done|]. split.
  { unfold len. rewrite range_len_seq, !list_lookup_fmap.
    rewrite lookup_seq_lt by done. cbn [fmap option_fmap option_map Nat.add]. unfold g.
    by rewrite Nat2Z.id, Htracks. }
  split; [apply length_imap|].
  intros k track Hk.
  assert (Htrack : track <> []).
  { eapply Hne; [exact Hcity|exact Htracks|]. by eapply list_elem_of_lookup_2. }
  destruct (lookup_lt_is_Some_2 track (length track / 2)%nat) as [loc Hloc].
  { destruct track as [|c track]; [done|].
    apply Nat.div_lt; cbn [length]; lia. }
  exists loc. split; [|split; [done|by eapply list_elem_of_lookup_2]].
  unfold stations_of_tracks. rewrite list_lookup_imap, Hk.
  cbn [fmap option_fmap option_map]. by rewrite Hloc.
Qed.

(** A city with a five-cell track and a two-cell track. *)
Lemma set_trainstation_positions_spec_witness :
  exists train_stations,
    _set_trainstation_positions [(4, 4)] 3
      [[[(2, 4); (3, 4); (4, 4); (5, 4); (6, 4)]; [(3, 5); (4, 5)]]]
      = Ok train_stations
    /\ train_stations = [[((4, 4), 0); ((4, 5), 1)]].
Proof.
  destruct (set_trainstation_positions_spec [(4, 4)] 3
              [[[(2, 4); (3, 4); (4, 4); (5, 4); (6, 4)]; [(3, 5); (4, 5)]]])
    as (ts & Hts & _).
  - cbn. lia.
  - intros city tracks track Hcity Htracks Htrack.
    destruct city as [|city]; [|cbn in Hcity; lia].
    cbn in Htracks. injection Htracks as <-.
    intros ->. apply list_elem_of_In in Htrack.
    cbn in Htrack. intuition discriminate.
  - exists ts. split; [exact Hts|].
    vm_compute in Hts. by injection Hts.
Defined.

(** ** The allowed mask of the random placement

    [allowed_grid] is a [height] x [width] array of 0/1 cells, a list of
    rows here. *)

Definition np_zeros (height width : Z) : outcome (list (list bool)) :=
  if (height <? 0) || (width <? 0)
  then Raise (ValueError negative_dimensions_msg)
  else Ok (replicate (Z.to_nat height) (replicate (Z.to_nat width) false)).

(** A slice bound [i] on an axis of length [n], as numpy normalises it. *)
Definition slice_bound (n i : Z) : Z :=
  if i <? 0 then Z.max (i + n) 0 else Z.min i n.

Definition in_slice (n start stop i : Z) : bool :=
  (slice_bound n start <=? i) && (i <? slice_bound n stop).

(** [grid[r0:r1, c0:c1] = v]. *)
Definition np_assign_block (grid : list (list bool)) (r0 r1 c0 c1 : Z)
    (v : bool) : list (list bool) :=
  imap (fun i row =>
          if in_slice (len grid) r0 r1 (Z.of_nat i)
          then imap (fun j x =>
                       if in_slice (len row) c0 c1 (Z.of_nat j) then v else x)
                    row
          else row)
       grid.

(** The column indexes of the 1-cells of a row. *)
Definition row_where (row : list bool) : list Z :=
  omap (fun jx : nat * bool => if jx.2 then Some (Z.of_nat jx.1) else None)
       (imap pair row).

(** [np.where(grid == 1)]: the 1-cells in row-major order. *)
Definition np_where (grid : list (list bool)) : list (Z * Z) :=
  mjoin (imap (fun i row => pair (Z.of_nat i) <$> row_where row) grid).

(** ** CityPlacer, random mode: [_generate_random_city_positions] *)

Section RandomPlacement.
Context {R : RNG}.

(** The state of the placement loop. *)
Record placement : Type := {
  st_city_positions : list (Z * Z);
  st_allowed_grid : list (list bool);
  st_np_random : rng_state R;
}.

(** The [for _ in range(num_cities)] loop; [n] iterations are left. *)
Fixpoint place_loop (n : nat) (city_radius_pad1 : Z) (st : placement)
  : outcome placement :=
  match n with
  | O => Ok st
  | S n' =>
      let allowed_indexes := np_where (st_allowed_grid st) in
      let num_allowed_points := len allowed_indexes in
      if num_allowed_points =? 0 then Ok st (* break *)
      else
        '(point_index, np_random) ← randint (st_np_random st) 0 num_allowed_points;
        '(row, col) ← py_index allowed_indexes point_index;
        let row_start := Z.max 0 (row - 2 * city_radius_pad1) in
        let col_start := Z.max 0 (col - 2 * city_radius_pad1) in
        let row_end := row + 2 * city_radius_pad1 + 1 in
        let col_end := col + 2 * city_radius_pad1 + 1 in
        let allowed_grid :=
          np_assign_block (st_allowed_grid st) row_start row_end col_start col_end
                          false in
        place_loop n' city_radius_pad1
          {| st_city_positions := st_city_positions st ++ [(row, col)];
             st_allowed_grid := allowed_grid;
             st_np_random := np_random |}
  end.

(** The function up to and including the loop. *)
Definition place_random (num_cities city_radius width height : Z)
    (np_random : rng_state R) : outcome placement :=
  allowed_grid ← np_zeros height width;
  let city_radius_pad1 := city_radius + 1 in
  let allowed_grid :=
    np_assign_block allowed_grid city_radius_pad1 (- city_radius_pad1)
                    city_radius_pad1 (- city_radius_pad1) true in
  place_loop (Z.to_nat num_cities) city_radius_pad1
    {| st_city_positions := [];
       st_allowed_grid := allowed_grid;
       st_np_random := np_random |}.

(** Returns the city positions, the random state after the draws, and the
    warning log extended by what was emitted. *)
Definition _generate_random_city_positions
    (num_cities city_radius width height : Z) (np_random : rng_state R)
    (log : list warning)
  : outcome (list (Z * Z) * rng_state R * list warning) :=
  st ← place_random num_cities city_radius width height np_random;
  let created_cites := len (st_city_positions st) in
  let log :=
    if created_cites <? num_cities
    then log ++ [CouldNotSetAllCities created_cites num_cities]
    else log in
  Ok (st_city_positions st, st_np_random st, log).

End RandomPlacement.

(** ** Facts about the mask *)

Lemma elem_of_row_where (row : list bool) (c : Z) :
  c ∈ row_where row <-> exists j : nat, c = Z.of_nat j /\ row !! j = Some true.
Proof.
  unfold row_where. rewrite list_elem_of_omap. split.
  - intros ([j x] & Hin & Hsome).
    apply elem_of_lookup_imap in Hin as (i & y & [= -> ->] & Hrow).
    cbn in Hsome. destruct y; [|done]. injection Hsome as <-. eauto.
  - intros (j & -> & Hrow). exists (j, true). split; [|done].
    apply elem_of_lookup_imap. eauto.
Qed.

Lemma elem_of_np_where (grid : list (list bool)) (r c : Z) :
  (r, c) ∈ np_where grid <->
  exists (i j : nat) (row : list bool),
    r = Z.of_nat i /\ c = Z.of_nat j
    /\ grid !! i = Some row /\ row !! j = Some true.
Proof.
  unfold np_where. rewrite list_elem_of_join. split.
  - intros (cells & Hcell & Hcells).
    apply elem_of_lookup_imap in Hcells as (i & row & -> & Hrow).
    apply list_elem_of_fmap in Hcell as (c' & [= -> ->] & Hc).
    apply elem_of_row_where in Hc as (j & -> & Hj).
    by exists i, j, row.
  - intros (i & j & row & -> & -> & Hrow & Hj).
    exists (pair (Z.of_nat i) <$> row_where row). split.
    + apply list_elem_of_fmap. exists (Z.of_nat j). split; [done|].
      apply elem_of_row_where. eauto.
    + apply elem_of_lookup_imap. eauto.
Qed.

Lemma np_where_assign_false (grid : list (list bool)) (r0 r1 c0 c1 r c : Z) :
  (r, c) ∈ np_where (np_assign_block grid r0 r1 c0 c1 false) ->
  (r, c) ∈ np_where grid
  /\ 0 <= r < len grid
  /\ exists row, grid !! Z.to_nat r = Some row
       /\ 0 <= c < len row
       /\ (in_slice (len grid) r0 r1 r = false
           \/ in_slice (len row) c0 c1 c = false).
Proof.
  rewrite !elem_of_np_where.
  intros (i & j & row' & -> & -> & Hrow' & Hj).
  unfold np_assign_block in Hrow'. rewrite list_lookup_imap in Hrow'.
  destruct (grid !! i) as [row|] eqn:Hrow; [|done].
  injection Hrow' as <-.
  assert (Hi : (i < length grid)%nat) by (by eapply lookup_lt_Some).
  destruct (in_slice (len grid) r0 r1 (Z.of_nat i)) eqn:Hrs.
  - rewrite list_lookup_imap in Hj.
    destruct (row !! j) as [x|] eqn:Hx; [|done].
    assert (Hjlt : (j < length row)%nat) by (by eapply lookup_lt_Some).
    cbn in Hj.
    destruct (in_slice (len row) c0 c1 (Z.of_nat j)) eqn:Hcs; [done|].
    injection Hj as ->.
    split; [by exists i, j, row|]. unfold len. split; [lia|].
    exists row. rewrite Nat2Z.id. split; [done|]. split; [lia|by right].
  - assert (Hjlt : (j < length row)%nat) by (by eapply lookup_lt_Some).
    split; [by exists i, j, row|]. unfold len. split; [lia|].
    exists row. rewrite Nat2Z.id. split; [done|]. split; [lia|by left].
Qed.

(** Outside the slice that blocks a city at coordinate [x], an index is more
    than [2 * pad] away from [x]. *)
Lemma in_slice_false_far (n x pad i : Z) :
  0 <= pad -> 0 <= x -> 0 <= i < n ->
  in_slice n (Z.max 0 (x - 2 * pad)) (x + 2 * pad + 1) i = false ->
  2 * pad + 1 <= Z.abs (i - x).
Proof.
  intros Hpad Hx Hi. unfold in_slice, slice_bound.
  destruct (Z.ltb_spec (Z.max 0 (x - 2 * pad)) 0); [lia|].
  destruct (Z.ltb_spec (x + 2 * pad + 1) 0); [lia|].
  intros [Hlo|Hhi]%andb_false_iff.
  - apply Z.leb_gt in Hlo. lia.
  - apply Z.ltb_ge in Hhi. lia.
Qed.

(** ** Separation of the cities placed in random mode *)

Definition chebyshev (p q : Z * Z) : Z :=
  Z.max (Z.abs (p.1 - q.1)) (Z.abs (p.2 - q.2)).

(** Any two entries at distinct indexes are at Chebyshev distance [d] or
    more. *)
Definition pairwise_separated (d : Z) (ps : list (Z * Z)) : Prop :=
  forall (i j : nat) (p q : Z * Z),
    i <> j -> ps !! i = Some p -> ps !! j = Some q -> d <= chebyshev p q.

Lemma chebyshev_sym (p q : Z * Z) : chebyshev p q = chebyshev q p.
Proof. unfold chebyshev. lia. Qed.

Lemma chebyshev_nonneg (p q : Z * Z) : 0 <= chebyshev p q.
Proof. unfold chebyshev. lia. Qed.

Lemma pairwise_separated_snoc (d : Z) (ps : list (Z * Z)) (q : Z * Z) :
  pairwise_separated d ps ->
  (forall p, p ∈ ps -> d <= chebyshev p q) ->
  pairwise_separated d (ps ++ [q]).
Proof.
  intros Hps Hq i j p1 p2 Hij H1 H2.
  apply lookup_snoc_Some in H1 as [[Hi H1]|[-> <-]];
    apply lookup_snoc_Some in H2 as [[Hj H2]|[-> <-]].
  - by eapply Hps.
  - apply Hq. by eapply list_elem_of_lookup_2.
  - rewrite chebyshev_sym. apply Hq. by eapply list_elem_of_lookup_2.
  - done.
Qed.

Section RandomPlacementFacts.
Context {R : RNG}.

(** One iteration of the loop draws one of the allowed cells. *)
Lemma place_loop_step (n : nat) (pad : Z) (st : placement (R:=R)) :
  np_where (st_allowed_grid st) <> [] ->
  exists row col np_random,
    (row, col) ∈ np_where (st_allowed_grid st)
    /\ place_loop (S n) pad st
       = place_loop n pad
           {| st_city_positions := st_city_positions st ++ [(row, col)];
              st_allowed_grid :=
                np_assign_block (st_allowed_grid st)
                  (Z.max 0 (row - 2 * pad)) (row + 2 * pad + 1)
                  (Z.max 0 (col - 2 * pad)) (col + 2 * pad + 1) false;
              st_np_random := np_random |}.
Proof.
  intros Hne. cbn [place_loop].
  set (cells := np_where (st_allowed_grid st)) in *.
  assert (Hlen : 0 < len cells).
  { unfold len. destruct cells; [done|cbn; lia]. }
  destruct (Z.eqb_spec (len cells) 0) as [|_]; [lia|].
  unfold randint. destruct (Z.ltb_spec 0 (len cells)) as [_|]; [|lia].
  pose proof (rng_randint_range R (st_np_random st) 0 (len cells) Hlen) as Hrange.
  destruct (rng_randint R (st_np_random st) 0 (len cells)) as [k rs'].
  cbn [fst] in Hrange. osimpl.
  rewrite <- (Z2Nat.id k) by lia. rewrite py_index_nat.
  destruct (lookup_lt_is_Some_2 cells (Z.to_nat k)) as [[row col] Hcell].
  { unfold len in Hrange. lia. }
  rewrite Hcell. osimpl.
  exists row, col, rs'. split; [by eapply list_elem_of_lookup_2|done].
Qed.

Lemma place_loop_exhausted (n : nat) (pad : Z) (st : placement (R:=R)) :
  np_where (st_allowed_grid st) = [] -> place_loop n pad st = Ok st.
Proof. intros Hnil. destruct n; [done|]. cbn [place_loop]. by rewrite Hnil. Qed.

(** The loop always returns. *)
Lemma place_loop_total (n : nat) (pad : Z) (st : placement (R:=R)) :
  exists st', place_loop n pad st = Ok st'.
Proof.
  revert st. induction n as [|n IH]; intros st; [by exists st|].
  destruct (decide (np_where (st_allowed_grid st) = [])) as [Hnil|Hne].
  - exists st. by apply place_loop_exhausted.
  - destruct (place_loop_step n pad st Hne) as (row & col & rs & _ & ->).
    apply IH.
Qed.

(** The loop keeps the cities separated and the allowed cells away from
    every city. *)
Lemma place_loop_separated (n : nat) (pad : Z) (st st' : placement (R:=R)) :
  0 <= pad ->
  place_loop n pad st = Ok st' ->
  pairwise_separated (2 * pad + 1) (st_city_positions st) ->
  (forall p cell, p ∈ st_city_positions st ->
                  cell ∈ np_where (st_allowed_grid st) ->
                  2 * pad + 1 <= chebyshev p cell) ->
  pairwise_separated (2 * pad + 1) (st_city_positions st').
Proof.
  intros Hpad. revert st. induction n as [|n IH]; intros st Hrun Hsep Hfar.
  { cbn in Hrun. by injection Hrun as <-. }
  destruct (decide (np_where (st_allowed_grid st) = [])) as [Hnil|Hne].
  { rewrite place_loop_exhausted in Hrun by done. by injection Hrun as <-. }
  destruct (place_loop_step n pad st Hne) as (row & col & rs & Hcell & Hstep).
  rewrite Hstep in Hrun. apply IH in Hrun; [done|..]; cbn.
  - apply pairwise_separated_snoc; [done|]. intros p Hp. by apply Hfar.
  - intros p [r c] Hp Hin.
    apply np_where_assign_false in Hin as (Hold & Hr & grow & Hgrow & Hc & Hout).
    assert (0 <= row /\ 0 <= col) as [Hrow Hcol].
    { apply elem_of_np_where in Hcell as (i & j & ? & -> & -> & _). lia. }
    apply elem_of_app in Hp as [Hp|Hp%list_elem_of_singleton].
    + by apply Hfar.
    + subst p. rewrite chebyshev_sym. unfold chebyshev. cbn [fst snd].
      destruct Hout as [Hout|Hout];
        apply in_slice_false_far in Hout; lia.
Qed.

(** The cities placed so far stay in front, at most one city is added per
    iteration, and the loop stops short only on an exhausted mask. *)
Lemma place_loop_prefix (n : nat) (pad : Z) (st st' : placement (R:=R)) :
  place_loop n pad st = Ok st' ->
  st_city_positions st `prefix_of` st_city_positions st'
  /\ (length (st_city_positions st') <= length (st_city_positions st) + n)%nat
  /\ ((length (st_city_positions st') < length (st_city_positions st) + n)%nat ->
      np_where (st_allowed_grid st') = []).
Proof.
  revert st. induction n as [|n IH]; intros st Hrun.
  { cbn in Hrun. injection Hrun as <-. split; [done|]. split; lia. }
  destruct (decide (np_where (st_allowed_grid st) = [])) as [Hnil|Hne].
  { rewrite place_loop_exhausted in Hrun by done. injection Hrun as <-.
    split; [done|]. split; [lia|done]. }
  destruct (place_loop_step n pad st Hne) as (row & col & rs & Hcell & Hstep).
  rewrite Hstep in Hrun. apply IH in Hrun as (Hpre & Hle & Hlt).
  cbn [st_city_positions] in *. rewrite length_app in *. cbn [length] in *.
  split; [|split; [lia|intros; apply Hlt; lia]].
  etrans; [|exact Hpre]. by apply prefix_app_r.
Qed.

End RandomPlacementFacts.

(** ** The numpy operations whose result depends on float rounding or on
    the sort's tie-breaking

    They are an interface: the model is stated for every implementation
    that meets the recorded facts. [np_linspace_int start stop num] is
    [np.linspace(start, stop, num, dtype=int)] for [num >= 0]: for
    [0 <= start <= stop] and [num > 1] entry [i] is the exact value
    [start + i * (stop - start) / (num - 1)] rounded down, or one less (what
    truncating a float that fell just below an integer gives).
    [np_ceil_sqrt_scaled n h w] is
    [int(np.ceil(np.sqrt(n * (h / w))))] for [w <> 0] and a non-negative
    [n * (h / w)].
    [np_argsort] returns the indexes in some sorted order. *)
Class Numpy : Type := {
  np_ceil_sqrt_scaled : Z -> Z -> Z -> Z;
  np_linspace_int : Z -> Z -> Z -> list Z;
  np_linspace_length :
    forall start stop num,
      length (np_linspace_int start stop num) = Z.to_nat num;
  np_linspace_floor :
    forall start stop num (i : nat) x,
      0 <= start <= stop -> 1 < num ->
      np_linspace_int start stop num !! i = Some x ->
      x * (num - 1) <= start * (num - 1) + Z.of_nat i * (stop - start)
                    <= (x + 1) * (num - 1);
  np_argsort : list Z -> list nat;
  np_argsort_perm : forall l, np_argsort l ≡ₚ seq 0 (length l);
}.

Definition linspace_samples_msg : string :=
  "Number of samples must be non-negative.".

(** [np.linspace(start, stop, num, dtype=int)]. *)
Definition linspace {N : Numpy} (start stop num : Z) : outcome (list Z) :=
  if num <? 0 then Raise (ValueError linspace_samples_msg)
  else Ok (np_linspace_int start stop num).

Definition nan_msg : string := "cannot convert float NaN to integer".

(** [int(np.ceil(np.sqrt(n * (h / w))))] for [w <> 0]: the square root of a
    negative number is NaN, which [int] refuses. *)
Definition ceil_sqrt_scaled {N : Numpy} (n h w : Z) : outcome Z :=
  if n * h * w <? 0 then Raise (ValueError nan_msg)
  else Ok (np_ceil_sqrt_scaled n h w).

(** [int(np.ceil(a / b))] on integers. *)
Definition ceil_div (a b : Z) : outcome Z :=
  if b =? 0 then Raise ZeroDivisionError else Ok (- ((- a) / b)).

(** ** CityPlacer, grid mode: [_generate_evenly_distr_city_positions] *)

Definition _generate_evenly_distr_city_positions {N : Numpy}
    (num_cities city_radius width height : Z) : outcome (list (Z * Z)) :=
  (* aspect_ratio = height / width *)
  if width =? 0 then Raise ZeroDivisionError else
  let padding := 2 in
  let city_size := 2 * (city_radius + 1) in
  if city_size =? 0 then Raise ZeroDivisionError else
  let max_cities_per_row := (height - padding) / city_size in
  let max_cities_per_col := (width - padding) / city_size in
  ceil_sqrt ← ceil_sqrt_scaled num_cities height width;
  let cities_per_row := Z.min ceil_sqrt max_cities_per_row in
  cities_per_col_wanted ← ceil_div num_cities cities_per_row;
  let cities_per_col := Z.min cities_per_col_wanted max_cities_per_col in
  let num_build_cities := Z.min num_cities (cities_per_col * cities_per_row) in
  row_positions ←
    linspace (city_radius + 2) (height - (city_radius + 2)) cities_per_row;
  col_positions ←
    linspace (city_radius + 2) (width - (city_radius + 2)) cities_per_col;
  for_append
    (fun city_idx =>
       row ← py_index row_positions (city_idx mod cities_per_row);
       col ← py_index col_positions (city_idx / cities_per_row);
       Ok (row, col))
    (range num_build_cities).

(** ** An exact implementation of the numpy interface *)

Definition linspace_exact (start stop num : Z) : list Z :=
  if num =? 1 then [start]
  else (fun i => Z.quot (start * (num - 1) + i * (stop - start)) (num - 1))
         <$> range num.

(** [ceil(sqrt(n * h / w))] in exact arithmetic: the least [k] with
    [k * k >= n * h / w]. *)
Definition ceil_sqrt_scaled_exact (n h w : Z) : Z :=
  let q := - ((- (n * h)) / w) in
  if q <=? 0 then 0 else Z.sqrt (q - 1) + 1.

(** Stable insertion sort of indexes by key, which is what
    [sorted(range(len(seq)), key=seq.__getitem__)] computes. *)
Fixpoint insert_by_key (key : nat -> Z) (i : nat) (l : list nat) : list nat :=
  match l with
  | [] => [i]
  | j :: l' =>
      if key i <=? key j then i :: j :: l'
      else j :: insert_by_key key i l'
  end.

Definition argsort (seq_ : list Z) : list nat :=
  foldr (insert_by_key (fun i => default 0 (seq_ !! i))) []
        (seq 0 (length seq_)).

Lemma insert_by_key_perm (key : nat -> Z) (i : nat) (l : list nat) :
  insert_by_key key i l ≡ₚ i :: l.
Proof.
  induction l as [|j l IH]; cbn; [done|].
  destruct (key i <=? key j); [done|].
  rewrite IH. apply Permutation_swap.
Qed.

Lemma argsort_perm (l : list Z) : argsort l ≡ₚ seq 0 (length l).
Proof.
  unfold argsort. generalize (seq 0 (length l)) as idxs.
  induction idxs as [|i idxs IH]; cbn; [done|].
  by rewrite insert_by_key_perm, IH.
Qed.

Lemma linspace_exact_length (start stop num : Z) :
  length (linspace_exact start stop num) = Z.to_nat num.
Proof.
  unfold linspace_exact. destruct (Z.eqb_spec num 1) as [->|_]; [done|].
  unfold range. by rewrite !length_fmap, length_seq.
Qed.

Lemma linspace_exact_floor (start stop num : Z) (i : nat) (x : Z) :
  0 <= start <= stop -> 1 < num ->
  linspace_exact start stop num !! i = Some x ->
  x * (num - 1) <= start * (num - 1) + Z.of_nat i * (stop - start)
                <= (x + 1) * (num - 1).
Proof.
  intros Hss Hnum. unfold linspace_exact, range.
  destruct (Z.eqb_spec num 1) as [->|_]; [lia|].
  rewrite !list_lookup_fmap.
  destruct (seq 0 (Z.to_nat num) !! i) as [k|] eqn:Hk; [|done].
  apply lookup_seq in Hk as [-> _]. cbn. intros [= <-].
  set (e := start * (num - 1) + Z.of_nat i * (stop - start)).
  assert (0 <= e) by (unfold e; nia).
  rewrite Z.quot_div_nonneg by lia.
  pose proof (Z.mul_div_le e (num - 1)).
  pose proof (Z.mul_succ_div_gt e (num - 1)).
  lia.
Qed.

Definition ExactNumpy : Numpy := {|
  np_ceil_sqrt_scaled := ceil_sqrt_scaled_exact;
  np_linspace_int := linspace_exact;
  np_linspace_length := linspace_exact_length;
  np_linspace_floor := linspace_exact_floor;
  np_argsort := argsort;
  np_argsort_perm := argsort_perm;
|}.

(** ** Separation of the cities placed in grid mode *)

Lemma for_append_lookup {A B} (f : A -> outcome B) (l : list A) (ys : list B)
    (i : nat) (y : B) :
  for_append f l = Ok ys -> ys !! i = Some y ->
  exists x, l !! i = Some x /\ f x = Ok y.
Proof.
  revert ys i. induction l as [|x l IH]; intros ys i; cbn [for_append].
  { by intros [= <-]. }
  destruct (f x) as [y0| |] eqn:Hfx; osimpl; [|done..].
  destruct (for_append f l) as [ys'| |]; osimpl; [|done..].
  intros [= <-]. destruct i as [|i]; cbn.
  - intros [= <-]. eauto.
  - intros Hy. by eapply IH.
Qed.

Lemma for_append_length {A B} (f : A -> outcome B) (l : list A) (ys : list B) :
  for_append f l = Ok ys -> length ys = length l.
Proof.
  revert ys. induction l as [|x l IH]; intros ys; cbn [for_append].
  { by intros [= <-]. }
  destruct (f x) as [y0| |]; osimpl; [|done..].
  destruct (for_append f l) as [ys'| |]; osimpl; [|done..].
  intros [= <-]. cbn. f_equal. by apply IH.
Qed.

Lemma lookup_range (n : Z) (i : nat) (x : Z) :
  range n !! i = Some x -> x = Z.of_nat i /\ 0 <= x < n.
Proof.
  unfold range. rewrite list_lookup_fmap.
  destruct (seq 0 (Z.to_nat n) !! i) as [k|] eqn:Hk; [|done].
  apply lookup_seq in Hk as [-> Hlt]. cbn. intros [= <-]. lia.
Qed.

Lemma py_index_Ok {A} (l : list A) (i : Z) (x : A) :
  0 <= i -> py_index l i = Ok x -> l !! Z.to_nat i = Some x.
Proof.
  intros Hi. unfold py_index.
  destruct (Z.ltb_spec i 0); [lia|].
  destruct (Z.ltb_spec i 0); [lia|].
  by destruct (l !! Z.to_nat i); intros [= <-].
Qed.

Section GridPlacementFacts.
Context {N : Numpy}.

(** Two different entries of a [linspace] over a span of at least
    [(num - 1) * s] are at least [s - 1] apart. *)
Lemma linspace_entries_apart (start stop num s : Z) (a b : nat) (x y : Z) :
  0 <= start -> (num - 1) * s <= stop - start -> 0 <= s ->
  a <> b ->
  np_linspace_int start stop num !! a = Some x ->
  np_linspace_int start stop num !! b = Some y ->
  s - 1 <= Z.abs (x - y).
Proof.
  intros Hstart Hspan Hs Hab Hx Hy.
  assert (Ha : (a < Z.to_nat num)%nat).
  { rewrite <- (np_linspace_length start stop num). by eapply lookup_lt_Some. }
  assert (Hb : (b < Z.to_nat num)%nat).
  { rewrite <- (np_linspace_length start stop num). by eapply lookup_lt_Some. }
  assert (Hnum : 1 < num) by lia.
  assert (Hss : 0 <= start <= stop) by nia.
  pose proof (np_linspace_floor start stop num a x Hss Hnum Hx) as [Hx1 Hx2].
  pose proof (np_linspace_floor start stop num b y Hss Hnum Hy) as [Hy1 Hy2].
  assert (Hd : (num - 1) * s <= stop - start) by done.
  destruct (Nat.lt_total a b) as [Hlt|[->|Hlt]]; [|done|].
  - assert ((num - 1) * (s - 1) <= (y - x) * (num - 1)) by nia. nia.
  - assert ((num - 1) * (s - 1) <= (x - y) * (num - 1)) by nia. nia.
Qed.

(** The grid placement keeps any two cities at Chebyshev distance
    [2 * city_radius + 1] or more. *)
Lemma evenly_distr_separated (num_cities city_radius width height : Z)
    (positions : list (Z * Z)) :
  _generate_evenly_distr_city_positions num_cities city_radius width height
    = Ok positions ->
  pairwise_separated (2 * city_radius + 1) positions.
Proof.
  intros Hrun i j p q Hij Hp Hq.
  destruct (Z.lt_ge_cases city_radius 0) as [Hneg|Hr].
  { pose proof (chebyshev_nonneg p q). lia. }
  unfold _generate_evenly_distr_city_positions in Hrun.
  destruct (Z.eqb_spec width 0) as [|_]; [done|].
  destruct (Z.eqb_spec (2 * (city_radius + 1)) 0) as [|_]; [lia|].
  unfold ceil_sqrt_scaled in Hrun.
  destruct (num_cities * height * width <? 0); osimpl in Hrun; [done|].
  set (cs := np_ceil_sqrt_scaled num_cities height width) in *.
  cbv zeta in Hrun.
  set (size := 2 * (city_radius + 1)) in *.
  set (cpr := Z.min cs ((height - 2) / size)) in *.
  unfold ceil_div in Hrun.
  destruct (Z.eqb_spec cpr 0) as [|Hcpr0]; [done|]. osimpl in Hrun.
  set (cpc := Z.min (- (- num_cities / cpr)) ((width - 2) / size)) in *.
  unfold linspace in Hrun.
  destruct (Z.ltb_spec cpr 0) as [|Hcpr]; [done|]. osimpl in Hrun.
  destruct (Z.ltb_spec cpc 0) as [|Hcpc]; [done|]. osimpl in Hrun.
  set (rows := np_linspace_int (city_radius + 2) (height - (city_radius + 2)) cpr) in *.
  set (cols := np_linspace_int (city_radius + 2) (width - (city_radius + 2)) cpc) in *.
  destruct (for_append_lookup _ _ _ _ _ Hrun Hp) as (ci & Hci & Hfi).
  destruct (for_append_lookup _ _ _ _ _ Hrun Hq) as (cj & Hcj & Hfj).
  apply lookup_range in Hci as [-> Hirange].
  apply lookup_range in Hcj as [-> Hjrange].
  destruct (py_index rows (Z.of_nat i mod cpr)) as [ri| |] eqn:Hri;
    osimpl in Hfi; [|done..].
  destruct (py_index cols (Z.of_nat i / cpr)) as [ki| |] eqn:Hki;
    osimpl in Hfi; [|done..].
  destruct (py_index rows (Z.of_nat j mod cpr)) as [rj| |] eqn:Hrj;
    osimpl in Hfj; [|done..].
  destruct (py_index cols (Z.of_nat j / cpr)) as [kj| |] eqn:Hkj;
    osimpl in Hfj; [|done..].
  injection Hfi as <-. injection Hfj as <-.
  assert (Hcprpos : 0 < cpr) by lia.
  pose proof (Z.mod_pos_bound (Z.of_nat i) cpr Hcprpos).
  pose proof (Z.mod_pos_bound (Z.of_nat j) cpr Hcprpos).
  assert (0 <= Z.of_nat i / cpr) by (apply Z.div_pos; lia).
  assert (0 <= Z.of_nat j / cpr) by (apply Z.div_pos; lia).
  apply py_index_Ok in Hri, Hki, Hrj, Hkj; try lia.
  assert (Hsize : 0 < size) by (unfold size; lia).
  assert (Hrowspan : cpr * size <= height - 2).
  { pose proof (Z.mul_div_le (height - 2) size Hsize). unfold cpr. nia. }
  assert (Hcolspan : cpc * size <= width - 2).
  { pose proof (Z.mul_div_le (width - 2) size Hsize). unfold cpc. nia. }
  unfold chebyshev. cbn [fst snd].
  destruct (decide (Z.of_nat i mod cpr = Z.of_nat j mod cpr)) as [Hmod|Hmod].
  - assert (Hdiv : Z.of_nat i / cpr <> Z.of_nat j / cpr).
    { intros Hdiv.
      pose proof (Z.div_mod (Z.of_nat i) cpr). pose proof (Z.div_mod (Z.of_nat j) cpr).
      nia. }
    pose proof (linspace_entries_apart (city_radius + 2) (width - (city_radius + 2))
                  cpc size (Z.to_nat (Z.of_nat i / cpr)) (Z.to_nat (Z.of_nat j / cpr))
                  ki kj) as Hapart.
    unfold size in *.
    assert (2 * (city_radius + 1) - 1 <= Z.abs (ki - kj)); [|lia].
    apply Hapart; try done; try lia.
  - pose proof (linspace_entries_apart (city_radius + 2) (height - (city_radius + 2))
                  cpr size (Z.to_nat (Z.of_nat i mod cpr)) (Z.to_nat (Z.of_nat j mod cpr))
                  ri rj) as Hapart.
    unfold size in *.
    assert (2 * (city_radius + 1) - 1 <= Z.abs (ri - rj)); [|lia].
    apply Hapart; try done; try lia.
Qed.

End GridPlacementFacts.

(** ** Non-overlap of the placed cities *)

Lemma pairwise_separated_weaken (d d' : Z) (ps : list (Z * Z)) :
  d' <= d -> pairwise_separated d ps -> pairwise_separated d' ps.
Proof. intros Hd Hps i j p q Hij Hp Hq. specialize (Hps i j p q Hij Hp Hq). lia. Qed.

Lemma place_random_separated {R : RNG}
    (num_cities city_radius width height : Z) (np_random : rng_state R)
    (st : placement) :
  place_random num_cities city_radius width height np_random = Ok st ->
  pairwise_separated (2 * city_radius + 1) (st_city_positions st).
Proof.
  unfold place_random. destruct (np_zeros height width) as [grid| |]; [|done..].
  osimpl. intros Hrun.
  destruct (Z.lt_ge_cases (city_radius + 1) 0) as [Hneg|Hpad].
  { intros i j p q _ _ _. pose proof (chebyshev_nonneg p q). lia. }
  apply (pairwise_separated_weaken (2 * (city_radius + 1) + 1)); [lia|].
  eapply place_loop_separated; [exact Hpad|exact Hrun|..]; cbn.
  - by intros i j p q _ ?.
  - by intros p cell ?%elem_of_nil.
Qed.

Lemma place_random_total {R : RNG}
    (num_cities city_radius width height : Z) (np_random : rng_state R) :
  0 <= height -> 0 <= width ->
  exists st, place_random num_cities city_radius width height np_random = Ok st.
Proof.
  intros Hh Hw. unfold place_random, np_zeros.
  destruct (Z.ltb_spec height 0); [lia|]. destruct (Z.ltb_spec width 0); [lia|].
  cbn [orb]. osimpl. apply place_loop_total.
Qed.

(** C4. In random mode (for non-negative grid dimensions) the placement
    returns, and any two of its city centers at distinct indexes are at
    Chebyshev distance [2 * city_radius + 1] or more; the same separation
    holds for every list the evenly spaced grid placement returns. Squares
    of side [2 * city_radius + 1] around such centers share no cell. *)
Theorem city_centers_separated {R : RNG} {N : Numpy}
    (num_cities city_radius width height : Z) (np_random : rng_state R)
    (log : list warning) :
  (0 <= height -> 0 <= width ->
   exists positions np_random' log',
     _generate_random_city_positions num_cities city_radius width height
       np_random log = Ok (positions, np_random', log')
     /\ pairwise_separated (2 * city_radius + 1) positions)
  /\ (forall positions,
        _generate_evenly_distr_city_positions num_cities city_radius width height
          = Ok positions ->
        pairwise_separated (2 * city_radius + 1) positions).
Proof.
  split.
  - intros Hh Hw. unfold _generate_random_city_positions.
    destruct (place_random_total num_cities city_radius width height np_random Hh Hw)
      as [st Hst].
    rewrite Hst. osimpl. do 3 eexists. split; [reflexivity|].
    by eapply place_random_separated.
  - apply evenly_distr_separated.
Qed.

(** Four cities of radius 3 on a 40 x 40 grid, in either mode. *)
Lemma city_centers_separated_witness :
  (exists np_random' log',
     _generate_random_city_positions (R:=ScriptedRNG) 4 3 40 40
       ([100; 300; 7; 9], []) []
     = Ok ([(7, 8); (18, 12); (4, 24); (7, 33)], np_random', log')
     /\ pairwise_separated 7 [(7, 8); (18, 12); (4, 24); (7, 33)])
  /\ (_generate_evenly_distr_city_positions (N:=ExactNumpy) 4 3 40 40
        = Ok [(5, 5); (35, 5); (5, 35); (35, 35)]
      /\ pairwise_separated 7 [(5, 5); (35, 5); (5, 35); (35, 35)]).
Proof.
  destruct (city_centers_separated (R:=ScriptedRNG) (N:=ExactNumpy)
              4 3 40 40 ([100; 300; 7; 9], []) []) as [Hrandom Hgrid].
  split.
  - destruct Hrandom as (ps & rs & log' & Hrun & Hsep); [lia..|].
    vm_compute in Hrun. injection Hrun as <- <- <-.
    exists ([], []), []. split; [by vm_compute|exact Hsep].
  - split; [by vm_compute|]. apply Hgrid. by vm_compute.
Defined.

(** ** The flatland operations used by the generator

    They live outside the source file. The grid and the routines that draw
    on it are an interface; a drawing routine returns its path and the grid
    it leaves behind. [Grid4TransitionsEnum] is an [IntEnum] with values
    North 0, East 1, South 2, West 3. *)

Inductive Grid4TransitionsEnum : Type := NORTH | EAST | SOUTH | WEST.

Definition direction_value (d : Grid4TransitionsEnum) : Z :=
  match d with NORTH => 0 | EAST => 1 | SOUTH => 2 | WEST => 3 end.

Class Flatland : Type := {
  GridTransitionMap : Type;
  (* GridTransitionMap(width=width, height=height, transitions=rail_trans) *)
  new_grid_map : Z -> Z -> GridTransitionMap;
  direction_to_point : Z * Z -> Z * Z -> Grid4TransitionsEnum;
  align_cell_to_city : Z * Z -> Z -> Z * Z -> Z;
  (* connect_rail_in_grid_map(grid_map, start, end, rail_trans, ...,
       avoid_rail=True, forbidden_cells=city_cells) *)
  connect_rail_in_grid_map :
    GridTransitionMap -> Z * Z -> Z * Z -> list (Z * Z)
    -> list (Z * Z) * GridTransitionMap;
  connect_straight_line_in_grid_map :
    GridTransitionMap -> Z * Z -> Z * Z -> list (Z * Z) * GridTransitionMap;
  fix_inner_nodes : GridTransitionMap -> Z * Z -> GridTransitionMap;
  (* grid_map.cell_neighbours_valid(cell, True) *)
  cell_neighbours_valid : GridTransitionMap -> Z * Z -> bool;
  (* grid_map.fix_transitions(cell, hint) *)
  fix_transitions : GridTransitionMap -> Z * Z -> Z -> GridTransitionMap;
}.

(** [Vec2dOperations.get_manhattan_distance]. *)
Definition get_manhattan_distance (a b : Z * Z) : Z :=
  Z.abs (a.1 - b.1) + Z.abs (a.2 - b.2).

(** ** More numpy helpers *)

(** [np.arange(a, b)]. *)
Definition np_arange (a b : Z) : list Z := (fun k => a + k) <$> range (b - a).

(** [np.clip(x, lo, hi)]. *)
Definition np_clip (x lo hi : Z) : Z := Z.min hi (Z.max lo x).

(** An index into an axis of length [n]: negative indexes wrap once. *)
Definition np_axis_index (n i : Z) : outcome nat :=
  let j := if i <? 0 then i + n else i in
  if (j <? 0) || (n <=? j) then Raise IndexError else Ok (Z.to_nat j).

(** [a[i] = v] on a one-dimensional array. *)
Definition np_set (a : list Z) (i v : Z) : outcome (list Z) :=
  j ← np_axis_index (len a) i;
  Ok (<[j := v]> a).

(** [field[cell] = v] on a two-dimensional array. *)
Definition np_set2d (field : list (list Z)) (cell : Z * Z) (v : Z)
  : outcome (list (list Z)) :=
  r ← np_axis_index (len field) cell.1;
  match field !! r with
  | None => Raise IndexError
  | Some row =>
      c ← np_axis_index (len row) cell.2;
      Ok (<[r := <[c := v]> row]> field)
  end.

(** [field[cell]] on a two-dimensional array. *)
Definition np_get2d (field : list (list Z)) (cell : Z * Z) : outcome Z :=
  r ← np_axis_index (len field) cell.1;
  match field !! r with
  | None => Raise IndexError
  | Some row =>
      c ← np_axis_index (len row) cell.2;
      match row !! c with
      | None => Raise IndexError
      | Some v => Ok v
      end
  end.

(** A [for] loop that updates a state, stopping at the first exception. *)
Fixpoint for_fold {A S} (f : S -> A -> outcome S) (l : list A) (s : S)
  : outcome S :=
  match l with
  | [] => Ok s
  | x :: l' => s' ← f s x; for_fold f l' s'
  end.

(** ** ConnectionPlanner: [_get_cells_in_city] and
    [_generate_city_connection_points] *)

Section ConnectionPlanner.
Context {R : RNG} {F : Flatland}.

(** Returns the cells of the city square in row-major order and the vector
    field with the orientation hints of these cells written. *)
Definition _get_cells_in_city (center : Z * Z) (radius city_orientation : Z)
    (vector_field : list (list Z))
  : outcome (list (Z * Z) * list (list Z)) :=
  let x_range := np_arange (center.1 - radius) (center.1 + radius + 1) in
  let y_range := np_arange (center.2 - radius) (center.2 + radius + 1) in
  let city_cells := x_range ≫= (fun x => pair x <$> y_range) in
  vector_field ←
    for_fold (fun field cell =>
                np_set2d field cell (align_cell_to_city center city_orientation cell))
             city_cells vector_field;
  Ok (city_cells, vector_field).

(** The inner point and the outer point of slot [connection_idx] on side
    [direction]. *)
Definition connection_point (city_position : Z * Z) (city_radius direction : Z)
    (connection_slots inner_point_offset : list Z) (connection_idx : Z)
  : outcome ((Z * Z) * (Z * Z)) :=
  offset ← py_index inner_point_offset connection_idx;
  slot ← py_index connection_slots connection_idx;
  if direction =? 0 then
    Ok ((city_position.1 - city_radius + offset, city_position.2 + slot),
        (city_position.1 - city_radius, city_position.2 + slot))
  else if direction =? 1 then
    Ok ((city_position.1 + slot, city_position.2 + city_radius - offset),
        (city_position.1 + slot, city_position.2 + city_radius))
  else if direction =? 2 then
    Ok ((city_position.1 + city_radius - offset, city_position.2 + slot),
        (city_position.1 + city_radius, city_position.2 + slot))
  else if direction =? 3 then
    Ok ((city_position.1 + slot, city_position.2 - city_radius + offset),
        (city_position.1 + slot, city_position.2 - city_radius))
  else Raise UnboundLocalError.

(** The body of [for direction in range(4)]: the inner and the outer points
    of one side. *)
Definition side_connection_points (city_position : Z * Z) (city_radius : Z)
    (connections_per_direction : list Z)
    (nr_of_connection_points number_of_out_rails start_idx direction : Z)
  : outcome (list (Z * Z) * list (Z * Z)) :=
  let connection_slots :=
    (fun k => k - start_idx) <$> np_arange 0 nr_of_connection_points in
  let offset_distances :=
    (fun k => k - int_half nr_of_connection_points)
      <$> np_arange 0 nr_of_connection_points in
  let inner_point_offset :=
    (fun d => Z.abs d + np_clip d 0 1 + 1) <$> offset_distances in
  count ← py_index connections_per_direction direction;
  points ←
    for_append
      (fun connection_idx =>
         '(tmp_coordinates, out_tmp_coordinates) ←
           connection_point city_position city_radius direction
                            connection_slots inner_point_offset connection_idx;
         Ok (tmp_coordinates,
             if (start_idx <=? connection_idx)
                && (connection_idx <? start_idx + number_of_out_rails)
             then Some out_tmp_coordinates else None))
      (range count);
  Ok (fst <$> (points : list ((Z * Z) * option (Z * Z))),
      omap snd points).

(** What the loop over the cities accumulates, with the state it mutates. *)
Record connection_plan : Type := {
  inner_connection_points : list (list (list (Z * Z)));
  outer_connection_points : list (list (list (Z * Z)));
  city_orientations : list Z;
  city_cells : list (Z * Z);
  plan_vector_field : list (list Z);
  plan_np_random : rng_state R;
}.

(** The body of [for city_position in city_positions]. *)
Definition plan_city (grid_mode : bool) (city_positions : list (Z * Z))
    (city_radius rails_between_cities rail_pairs_in_city : Z)
    (plan : connection_plan) (city_position : Z * Z)
  : outcome connection_plan :=
  let neighb_dist := get_manhattan_distance city_position <$> city_positions in
  let closest_neighb_idx := argsort neighb_dist in
  let idx := 1 in
  '(current_closest_direction, np_random) ←
    (if grid_mode then randint (plan_np_random plan) 0 4
     else
       closest ← py_index closest_neighb_idx idx;
       neighbour ← py_index city_positions (Z.of_nat closest);
       Ok (direction_value (direction_to_point city_position neighbour),
           plan_np_random plan));
  let connection_sides_idx :=
    [current_closest_direction; (current_closest_direction + 2) mod 4] in
  '(cells, vector_field) ←
    _get_cells_in_city city_position city_radius current_closest_direction
                       (plan_vector_field plan);
  let connections_per_direction := replicate 4 0 in
  '(draw, np_random) ← randint np_random 1 (rail_pairs_in_city + 1);
  let nr_of_connection_points := draw * 2 in
  connections_per_direction ←
    for_fold (fun a idx => np_set a idx nr_of_connection_points)
             connection_sides_idx connections_per_direction;
  let number_of_out_rails := 2 in
  let start_idx := int_half (nr_of_connection_points - number_of_out_rails) in
  sides ←
    for_append
      (side_connection_points city_position city_radius connections_per_direction
         nr_of_connection_points number_of_out_rails start_idx)
      (range 4);
  Ok {| inner_connection_points :=
          inner_connection_points plan
            ++ [fst <$> (sides : list (list (Z * Z) * list (Z * Z)))];
        outer_connection_points := outer_connection_points plan ++ [snd <$> sides];
        city_orientations := city_orientations plan ++ [current_closest_direction];
        city_cells := city_cells plan ++ cells;
        plan_vector_field := vector_field;
        plan_np_random := np_random |}.

Definition _generate_city_connection_points (grid_mode : bool)
    (city_positions : list (Z * Z)) (city_radius : Z)
    (vector_field : list (list Z))
    (rails_between_cities rail_pairs_in_city : Z) (np_random : rng_state R)
  : outcome connection_plan :=
  for_fold
    (plan_city grid_mode city_positions city_radius rails_between_cities
               rail_pairs_in_city)
    city_positions
    {| inner_connection_points := [];
       outer_connection_points := [];
       city_orientations := [];
       city_cells := [];
       plan_vector_field := vector_field;
       plan_np_random := np_random |}.

End ConnectionPlanner.

(** ** A small implementation of the flatland interface, for running the
    model on concrete inputs

    The grid is the list of the cells drawn so far. [direction_to_point]
    looks along the axis of the larger offset; the router returns the two
    requested end points as its path; a straight line is the list of its
    cells, end points included. *)

Definition sketch_direction_to_point (pos1 pos2 : Z * Z) : Grid4TransitionsEnum :=
  let d0 := pos1.1 - pos2.1 in
  let d1 := pos1.2 - pos2.2 in
  if d1 * d1 <=? d0 * d0
  then (if 0 <? d0 then NORTH else SOUTH)
  else (if 0 <? d1 then WEST else EAST).

Definition sketch_align_cell_to_city (center : Z * Z) (orientation : Z)
    (cell : Z * Z) : Z :=
  if orientation mod 2 =? 0
  then 2 * np_clip (cell.1 - center.1) 0 1
  else 2 * np_clip (center.2 - cell.2) 0 1 + 1.

Definition coord_eqb (a b : Z * Z) : bool := (a.1 =? b.1) && (a.2 =? b.2).

Definition sketch_route (grid : list (Z * Z)) (start end_ : Z * Z)
    (forbidden : list (Z * Z)) : list (Z * Z) * list (Z * Z) :=
  ([start; end_], grid ++ [start; end_]).

Definition sketch_straight_line (grid : list (Z * Z)) (start end_ : Z * Z)
  : list (Z * Z) * list (Z * Z) :=
  let line :=
    if start.1 =? end_.1 then
      pair start.1 <$> (if start.2 <=? end_.2
                        then np_arange start.2 (end_.2 + 1)
                        else reverse (np_arange end_.2 (start.2 + 1)))
    else if start.2 =? end_.2 then
      (fun r => (r, start.2)) <$> (if start.1 <=? end_.1
                                   then np_arange start.1 (end_.1 + 1)
                                   else reverse (np_arange end_.1 (start.1 + 1)))
    else [] in
  (line, grid ++ line).

Definition SketchFlatland : Flatland := {|
  GridTransitionMap := list (Z * Z);
  new_grid_map := fun _ _ => [];
  direction_to_point := sketch_direction_to_point;
  align_cell_to_city := sketch_align_cell_to_city;
  connect_rail_in_grid_map := sketch_route;
  connect_straight_line_in_grid_map := sketch_straight_line;
  fix_inner_nodes := fun grid _ => grid;
  cell_neighbours_valid := fun grid cell => existsb (coord_eqb cell) grid;
  fix_transitions := fun grid cell _ => grid ++ [cell];
|}.

(** ** The connection points of a city *)

(** The inward offset of slot [i] on a side with [n] slots. *)
Definition slot_offset (n i : Z) : Z :=
  Z.abs (i - n / 2) + Z.max 0 (Z.min 1 (i - n / 2)) + 1.

(** The inner point of slot [i] on side [direction] of a city whose sides
    carry [n] slots, [2] of them with an outer point. *)
Definition inner_point (city_position : Z * Z) (city_radius direction n i : Z)
  : Z * Z :=
  let slot := i - (n - 2) / 2 in
  if direction =? 0 then
    (city_position.1 - city_radius + slot_offset n i, city_position.2 + slot)
  else if direction =? 1 then
    (city_position.1 + slot, city_position.2 + city_radius - slot_offset n i)
  else if direction =? 2 then
    (city_position.1 + city_radius - slot_offset n i, city_position.2 + slot)
  else
    (city_position.1 + slot, city_position.2 - city_radius + slot_offset n i).

(** How far a point lies inside the border line of side [direction]. *)
Definition inward_offset (city_position : Z * Z) (city_radius direction : Z)
    (p : Z * Z) : Z :=
  if direction =? 0 then p.1 - (city_position.1 - city_radius)
  else if direction =? 1 then city_position.2 + city_radius - p.2
  else if direction =? 2 then city_position.1 + city_radius - p.1
  else p.2 - (city_position.2 - city_radius).

(** What [plan_city] appends for a city: its orientation [d] and its four
    sides, the two active ones with [2 * draw] slots each. *)
Definition city_planned (city_position : Z * Z)
    (city_radius rail_pairs_in_city : Z) (sides : list (list (Z * Z))) (d : Z)
  : Prop :=
  0 <= d < 4
  /\ length sides = 4%nat
  /\ exists draw,
       1 <= draw <= rail_pairs_in_city
       /\ forall direction, 0 <= direction < 4 ->
            sides !! Z.to_nat direction
            = Some (if (direction =? d) || (direction =? (d + 2) mod 4)
                    then inner_point city_position city_radius direction (2 * draw)
                           <$> range (2 * draw)
                    else []).

Lemma py_index_nonneg {A} (l : list A) (i : Z) :
  0 <= i ->
  py_index l i = match l !! Z.to_nat i with
                 | Some x => Ok x
                 | None => Raise IndexError
                 end.
Proof.
  intros Hi. rewrite <- (Z2Nat.id i) at 1 by done. apply py_index_nat.
Qed.

Lemma lookup_range_lt (n i : Z) :
  0 <= i < n -> range n !! Z.to_nat i = Some i.
Proof.
  intros Hi. unfold range. rewrite list_lookup_fmap.
  rewrite lookup_seq_lt by lia. cbn. f_equal. lia.
Qed.

Lemma length_range (n : Z) : length (range n) = Z.to_nat n.
Proof. unfold range. by rewrite length_fmap, length_seq. Qed.

Lemma lookup_np_arange_0 (n i : Z) :
  0 <= i < n -> np_arange 0 n !! Z.to_nat i = Some i.
Proof.
  intros Hi. unfold np_arange. rewrite list_lookup_fmap.
  rewrite Z.sub_0_r, lookup_range_lt by done. done.
Qed.

Section ConnectionPlannerFacts.
Context {R : RNG} {F : Flatland}.

Lemma connection_point_inner (city_position : Z * Z)
    (city_radius direction n start_idx i : Z) :
  0 <= direction < 4 -> 0 <= i < n -> Z.even n = true ->
  start_idx = int_half (n - 2) -> 2 <= n ->
  exists out,
    connection_point city_position city_radius direction
      ((fun k => k - start_idx) <$> np_arange 0 n)
      ((fun d => Z.abs d + np_clip d 0 1 + 1)
         <$> ((fun k => k - int_half n) <$> np_arange 0 n))
      i
    = Ok (inner_point city_position city_radius direction n i, out).
Proof.
  intros Hdir Hi Heven -> Hn. unfold connection_point.
  rewrite !py_index_nonneg by lia.
  rewrite !list_lookup_fmap, lookup_np_arange_0 by done.
  cbn [fmap option_fmap option_map]. osimpl.
  assert (Hoff : Z.abs (i - int_half n) + np_clip (i - int_half n) 0 1 + 1
                 = slot_offset n i).
  { unfold slot_offset, np_clip, int_half.
    rewrite Z.quot_div_nonneg by lia. lia. }
  assert (Hslot : i - int_half (n - 2) = i - (n - 2) / 2).
  { unfold int_half. rewrite Z.quot_div_nonneg by lia. done. }
  rewrite Hoff, Hslot. unfold inner_point.
  destruct (Z.eqb_spec direction 0); [by eexists|].
  destruct (Z.eqb_spec direction 1); [by eexists|].
  destruct (Z.eqb_spec direction 2); [by eexists|].
  destruct (Z.eqb_spec direction 3); [by eexists|lia].
Qed.

Lemma for_append_ok_fst {A B C} (f : A -> outcome (B * C)) (g : A -> B)
    (l : list A) :
  (forall x, x ∈ l -> exists c, f x = Ok (g x, c)) ->
  exists ys, for_append f l = Ok ys /\ fst <$> ys = g <$> l.
Proof.
  induction l as [|x l IH]; intros Hf; [by exists []|].
  destruct (Hf x) as [c Hx]; [left|].
  destruct IH as (ys & Hys & Hfst); [intros y Hy; apply Hf; by right|].
  exists ((g x, c) :: ys). cbn [for_append]. rewrite Hx. osimpl.
  rewrite Hys. osimpl. split; [done|].
  rewrite !fmap_cons. cbn [fst]. by rewrite Hfst.
Qed.

Lemma side_connection_points_active (city_position : Z * Z)
    (city_radius : Z) (cpd : list Z) (n direction : Z) :
  0 <= direction < 4 -> Z.even n = true -> 2 <= n ->
  py_index cpd direction = Ok n ->
  exists outer,
    side_connection_points city_position city_radius cpd n 2
      (int_half (n - 2)) direction
    = Ok (inner_point city_position city_radius direction n <$> range n, outer).
Proof.
  intros Hdir Heven Hn Hcount. unfold side_connection_points.
  rewrite Hcount. osimpl.
  edestruct (for_append_ok_fst
               (fun connection_idx =>
                  '(tmp_coordinates, out_tmp_coordinates) ←
                    connection_point city_position city_radius direction
                      ((fun k => k - int_half (n - 2)) <$> np_arange 0 n)
                      ((fun d => Z.abs d + np_clip d 0 1 + 1)
                         <$> ((fun k => k - int_half n) <$> np_arange 0 n))
                      connection_idx;
                  Ok (tmp_coordinates,
                      if (int_half (n - 2) <=? connection_idx)
                         && (connection_idx <? int_half (n - 2) + 2)
                      then Some out_tmp_coordinates else None))
               (inner_point city_position city_radius direction n)
               (range n)) as (pts & Hpts & Hfst).
  { intros i Hi%range_bounds.
    destruct (connection_point_inner city_position city_radius direction n
                (int_half (n - 2)) i) as [out Hout]; try done.
    rewrite Hout. osimpl. by eexists. }
  rewrite Hpts. osimpl. rewrite Hfst. by eexists.
Qed.

Lemma side_connection_points_inactive (city_position : Z * Z)
    (city_radius : Z) (cpd : list Z) (n m start_idx direction : Z) :
  py_index cpd direction = Ok 0 ->
  side_connection_points city_position city_radius cpd n m start_idx direction
  = Ok ([], []).
Proof. intros Hcount. unfold side_connection_points. by rewrite Hcount. Qed.

End ConnectionPlannerFacts.

Section ConnectionPlanFacts.
Context {R : RNG} {F : Flatland}.

Lemma direction_value_range (d : Grid4TransitionsEnum) :
  0 <= direction_value d < 4.
Proof. destruct d; cbn; lia. Qed.

(** Writing [nr] at the two connection sides of a zeroed array. *)
Lemma set_connection_sides (d nr : Z) :
  0 <= d < 4 ->
  exists cpd,
    for_fold (fun a idx => np_set a idx nr) [d; (d + 2) mod 4] (replicate 4 0)
      = Ok cpd
    /\ forall direction, 0 <= direction < 4 ->
         py_index cpd direction
         = Ok (if (direction =? d) || (direction =? (d + 2) mod 4)
               then nr else 0).
Proof.
  intros Hd.
  assert (d = 0 \/ d = 1 \/ d = 2 \/ d = 3) as [-> | [-> | [-> | ->]]] by lia.
  - exists [nr; 0; nr; 0]. split; [done|]. intros direction Hdir.
    assert (direction = 0 \/ direction = 1 \/ direction = 2 \/ direction = 3)
      as [-> | [-> | [-> | ->]]] by lia; done.
  - exists [0; nr; 0; nr]. split; [done|]. intros direction Hdir.
    assert (direction = 0 \/ direction = 1 \/ direction = 2 \/ direction = 3)
      as [-> | [-> | [-> | ->]]] by lia; done.
  - exists [nr; 0; nr; 0]. split; [done|]. intros direction Hdir.
    assert (direction = 0 \/ direction = 1 \/ direction = 2 \/ direction = 3)
      as [-> | [-> | [-> | ->]]] by lia; done.
  - exists [0; nr; 0; nr]. split; [done|]. intros direction Hdir.
    assert (direction = 0 \/ direction = 1 \/ direction = 2 \/ direction = 3)
      as [-> | [-> | [-> | ->]]] by lia; done.
Qed.

(** One city: what [plan_city] appends. *)
Lemma plan_city_spec (grid_mode : bool) (city_positions : list (Z * Z))
    (city_radius rails_between_cities rail_pairs_in_city : Z)
    (plan plan' : connection_plan (R:=R)) (city_position : Z * Z) :
  plan_city grid_mode city_positions city_radius rails_between_cities
    rail_pairs_in_city plan city_position = Ok plan' ->
  exists sides d,
    inner_connection_points plan' = inner_connection_points plan ++ [sides]
    /\ city_orientations plan' = city_orientations plan ++ [d]
    /\ city_planned city_position city_radius rail_pairs_in_city sides d.
Proof.
  unfold plan_city.
  set (direction_draw := if grid_mode then _ else _).
  assert (Hdir : forall d rs, direction_draw = Ok (d, rs) -> 0 <= d < 4).
  { subst direction_draw. intros d rs. destruct grid_mode.
    - unfold randint. cbn [Z.ltb Z.compare]. intros [= Hdraw].
      pose proof (rng_randint_range R (plan_np_random plan) 0 4 eq_refl) as Hr.
      rewrite Hdraw in Hr. cbn in Hr. lia.
    - destruct (py_index _ _) as [closest| |]; osimpl; [|done..].
      destruct (py_index _ _) as [neighbour| |]; osimpl; [|done..].
      intros [= <- _]. apply direction_value_range. }
  destruct direction_draw as [[d rs]| |]; osimpl; [|done..].
  specialize (Hdir d rs eq_refl).
  destruct (_get_cells_in_city _ _ _ _) as [[cells vector_field]| |];
    osimpl; [|done..].
  unfold randint at 1.
  destruct (Z.ltb_spec 1 (rail_pairs_in_city + 1)) as [Hrp|]; [|done].
  pose proof (rng_randint_range R rs 1 (rail_pairs_in_city + 1) Hrp) as Hdraw.
  destruct (rng_randint R rs 1 (rail_pairs_in_city + 1)) as [draw rs'].
  cbn [fst] in Hdraw. osimpl.
  destruct (set_connection_sides d (draw * 2) Hdir) as (cpd & -> & Hcpd).
  osimpl.
  assert (Heven : Z.even (draw * 2) = true).
  { rewrite Z.even_mul. by rewrite orb_true_r. }
  edestruct (for_append_ok_fst
               (side_connection_points city_position city_radius cpd
                  (draw * 2) 2 (int_half (draw * 2 - 2)))
               (fun direction =>
                  if (direction =? d) || (direction =? (d + 2) mod 4)
                  then inner_point city_position city_radius direction (draw * 2)
                         <$> range (draw * 2)
                  else [])
               (range 4)) as (sides & Hsides & Hfst).
  { intros direction Hdirection%range_bounds.
    specialize (Hcpd direction Hdirection).
    destruct ((direction =? d) || (direction =? (d + 2) mod 4)).
    - apply side_connection_points_active; try done; lia.
    - exists []. by apply side_connection_points_inactive. }
  rewrite Hsides. osimpl. intros [= <-]. cbn.
  exists (fst <$> sides), d. split; [done|]. split; [done|].
  rewrite Hfst. split; [done|]. split; [done|].
  exists draw. split; [lia|]. intros direction Hdirection.
  rewrite list_lookup_fmap, lookup_range_lt by done. cbn.
  by rewrite (Z.mul_comm 2 draw).
Qed.

(** All cities: entry [k] of the plan belongs to city [k]. *)
Lemma plan_cities_spec (grid_mode : bool) (city_positions : list (Z * Z))
    (city_radius rails_between_cities rail_pairs_in_city : Z)
    (cities : list (Z * Z)) (plan plan' : connection_plan (R:=R)) :
  for_fold (plan_city grid_mode city_positions city_radius rails_between_cities
              rail_pairs_in_city) cities plan = Ok plan' ->
  exists new_inner new_orientations,
    inner_connection_points plan' = inner_connection_points plan ++ new_inner
    /\ city_orientations plan' = city_orientations plan ++ new_orientations
    /\ length new_inner = length cities
    /\ length new_orientations = length cities
    /\ forall (k : nat) city_position,
         cities !! k = Some city_position ->
         exists sides d,
           new_inner !! k = Some sides /\ new_orientations !! k = Some d
           /\ city_planned city_position city_radius rail_pairs_in_city sides d.
Proof.
  revert plan. induction cities as [|city cities IH]; intros plan; cbn [for_fold].
  { intros [= <-]. exists [], []. rewrite !app_nil_r. by repeat split. }
  destruct (plan_city _ _ _ _ _ plan city) as [plan1| |] eqn:Hcity;
    osimpl; [|done..].
  intros Hrest.
  apply plan_city_spec in Hcity as (sides & d & Hin1 & Hor1 & Hplanned).
  apply IH in Hrest as (ni & no & Hin & Hor & Hlen_i & Hlen_o & Hall).
  exists (sides :: ni), (d :: no).
  rewrite Hin, Hin1, Hor, Hor1, <- !app_assoc. cbn [app length].
  repeat split; [lia..|].
  intros [|k] city_position; cbn.
  - intros [= <-]. by exists sides, d.
  - apply Hall.
Qed.

(** The plan of [_generate_city_connection_points], city by city. *)
Lemma generate_city_connection_points_planned (grid_mode : bool)
    (city_positions : list (Z * Z)) (city_radius : Z)
    (vector_field : list (list Z))
    (rails_between_cities rail_pairs_in_city : Z) (np_random : rng_state R)
    (plan : connection_plan (R:=R)) :
  _generate_city_connection_points grid_mode city_positions city_radius
    vector_field rails_between_cities rail_pairs_in_city np_random = Ok plan ->
  length (inner_connection_points plan) = length city_positions
  /\ length (city_orientations plan) = length city_positions
  /\ forall (k : nat) city_position,
       city_positions !! k = Some city_position ->
       exists sides d,
         inner_connection_points plan !! k = Some sides
         /\ city_orientations plan !! k = Some d
         /\ city_planned city_position city_radius rail_pairs_in_city sides d.
Proof.
  unfold _generate_city_connection_points. intros Hrun.
  apply plan_cities_spec in Hrun as (ni & no & Hin & Hor & Hli & Hlo & Hall).
  cbn in Hin, Hor. subst. by repeat split.
Qed.

End ConnectionPlanFacts.

(** C5. Every city planned by [_generate_city_connection_points] has four
    sides, of which exactly the orientation side [d] and its opposite
    [(d + 2) mod 4] carry inner connection points; both carry the same
    number [n] of them, [n] is twice a draw of [randint(1,
    rail_pairs_in_city + 1)] (so even and at least 2), and the two other
    sides carry none. *)
Theorem connection_sides_even {R : RNG} {F : Flatland} (grid_mode : bool)
    (city_positions : list (Z * Z)) (city_radius : Z)
    (vector_field : list (list Z))
    (rails_between_cities rail_pairs_in_city : Z) (np_random : rng_state R)
    (plan : connection_plan (R:=R)) :
  _generate_city_connection_points grid_mode city_positions city_radius
    vector_field rails_between_cities rail_pairs_in_city np_random = Ok plan ->
  forall k : nat, (k < length city_positions)%nat ->
  exists sides d n,
    inner_connection_points plan !! k = Some sides
    /\ city_orientations plan !! k = Some d
    /\ length sides = 4%nat
    /\ 0 <= d < 4
    /\ d <> (d + 2) mod 4
    /\ (exists draw, 1 <= draw <= rail_pairs_in_city /\ n = draw * 2)
    /\ forall direction, 0 <= direction < 4 ->
       exists points,
         sides !! Z.to_nat direction = Some points
         /\ len points
            = if (direction =? d) || (direction =? (d + 2) mod 4) then n else 0.
Proof.
  intros Hrun k Hk.
  apply generate_city_connection_points_planned in Hrun as (_ & _ & Hall).
  destruct (lookup_lt_is_Some_2 city_positions k Hk) as [city_position Hcity].
  destruct (Hall k city_position Hcity)
    as (sides & d & Hsides & Hd & Hrange & Hlen & draw & Hdraw & Hpoints).
  exists sides, d, (draw * 2). repeat split; try done; try lia.
  - assert (d = 0 \/ d = 1 \/ d = 2 \/ d = 3) as [-> | [-> | [-> | ->]]] by lia;
      done.
  - by exists draw.
  - intros direction Hdirection. rewrite (Hpoints direction Hdirection).
    eexists. split; [reflexivity|].
    destruct ((direction =? d) || (direction =? (d + 2) mod 4)); [|done].
    unfold len. rewrite length_fmap, length_range. lia.
Qed.

(** C6. On every side of a planned city, the inner point of slot [i] among
    the [n] slots of the side lies [|i - n/2| + clip(i - n/2, 0, 1) + 1]
    cells inside the border line of that side, which is at least 1: no slot
    lies on the border. *)
Theorem inner_point_offset_formula {R : RNG} {F : Flatland} (grid_mode : bool)
    (city_positions : list (Z * Z)) (city_radius : Z)
    (vector_field : list (list Z))
    (rails_between_cities rail_pairs_in_city : Z) (np_random : rng_state R)
    (plan : connection_plan (R:=R)) :
  _generate_city_connection_points grid_mode city_positions city_radius
    vector_field rails_between_cities rail_pairs_in_city np_random = Ok plan ->
  forall (k : nat) city_position sides direction points (i : nat) p,
    city_positions !! k = Some city_position ->
    inner_connection_points plan !! k = Some sides ->
    0 <= direction < 4 ->
    sides !! Z.to_nat direction = Some points ->
    points !! i = Some p ->
    let n := len points in
    let offset := inward_offset city_position city_radius direction p in
    offset = Z.abs (Z.of_nat i - n / 2)
             + Z.max 0 (Z.min 1 (Z.of_nat i - n / 2)) + 1
    /\ 1 <= offset.
Proof.
  intros Hrun k city_position sides direction points i p Hcity Hsides Hdir
    Hpoints Hp.
  apply generate_city_connection_points_planned in Hrun as (_ & _ & Hall).
  destruct (Hall k city_position Hcity)
    as (sides' & d & Hsides' & _ & _ & _ & draw & Hdraw & Hplanned).
  rewrite Hsides in Hsides'. injection Hsides' as <-.
  rewrite (Hplanned direction Hdir) in Hpoints. injection Hpoints as <-.
  destruct ((direction =? d) || (direction =? (d + 2) mod 4)); [|done].
  rewrite list_lookup_fmap in Hp.
  destruct (range (2 * draw) !! i) as [i'|] eqn:Hi; [|done].
  apply lookup_range in Hi as [-> Hi]. injection Hp as <-.
  assert (Hn : len (inner_point city_position city_radius direction (2 * draw)
                      <$> range (2 * draw)) = 2 * draw).
  { unfold len. rewrite length_fmap, length_range. lia. }
  cbv zeta. rewrite Hn.
  assert (Hoff : inward_offset city_position city_radius direction
                   (inner_point city_position city_radius direction (2 * draw)
                      (Z.of_nat i))
                 = slot_offset (2 * draw) (Z.of_nat i)).
  { unfold inward_offset, inner_point.
    destruct (direction =? 0), (direction =? 1), (direction =? 2); cbn; lia. }
  rewrite Hoff. unfold slot_offset. lia.
Qed.

(** Three cities of radius 4 in random mode; the second draw gives the
    second city four slots per active side. *)
Definition sample_vector_field : list (list Z) := replicate 30 (replicate 30 (-1)).
Definition sample_cities : list (Z * Z) := [(7, 8); (18, 12); (4, 24)].

(** The part of a plan that the hints and the connector read. *)
Definition plan_points {R : RNG} (plan : connection_plan (R:=R))
  : list (list (list (Z * Z))) * list (list (list (Z * Z))) * list Z :=
  (inner_connection_points plan, outer_connection_points plan,
   city_orientations plan).

Definition sample_inner : list (list (list (Z * Z))) :=
  [[[(5, 8); (4, 9)]; []; [(9, 8); (10, 9)]; []];
   [[(17, 11); (16, 12); (15, 13); (17, 14)]; [];
    [(19, 11); (20, 12); (21, 13); (19, 14)]; []];
   [[]; [(4, 26); (5, 27)]; []; [(4, 22); (5, 21)]]].

Definition sample_outer : list (list (list (Z * Z))) :=
  [[[(3, 8); (3, 9)]; []; [(11, 8); (11, 9)]; []];
   [[(14, 12); (14, 13)]; []; [(22, 12); (22, 13)]; []];
   [[]; [(4, 28); (5, 28)]; []; [(4, 20); (5, 20)]]].

Lemma sample_plan_run :
  exists plan,
    _generate_city_connection_points (R:=ScriptedRNG) (F:=SketchFlatland)
      false sample_cities 4 sample_vector_field 2 2 ([0; 1; 0], []) = Ok plan
    /\ plan_points plan = (sample_inner, sample_outer, [2; 0; 3]).
Proof.
  assert (Hsum : plan_points
                   <$> _generate_city_connection_points (R:=ScriptedRNG)
                         (F:=SketchFlatland) false sample_cities 4
                         sample_vector_field 2 2 ([0; 1; 0], [])
                 = Ok (sample_inner, sample_outer, [2; 0; 3]))
    by (vm_compute; reflexivity).
  destruct (_generate_city_connection_points _ _ _ _ _ _ _) as [plan| |];
    [|discriminate Hsum..].
  exists plan. split; [reflexivity|]. osimpl in Hsum. congruence.
Qed.

Lemma connection_sides_even_witness :
  exists plan,
    _generate_city_connection_points (R:=ScriptedRNG) (F:=SketchFlatland)
      false sample_cities 4 sample_vector_field 2 2 ([0; 1; 0], []) = Ok plan
    /\ inner_connection_points plan !! 1%nat
       = Some [[(17, 11); (16, 12); (15, 13); (17, 14)]; [];
               [(19, 11); (20, 12); (21, 13); (19, 14)]; []]
    /\ exists sides d n,
         inner_connection_points plan !! 1%nat = Some sides
         /\ city_orientations plan !! 1%nat = Some d
         /\ length sides = 4%nat
         /\ 0 <= d < 4
         /\ d <> (d + 2) mod 4
         /\ (exists draw, 1 <= draw <= 2 /\ n = draw * 2)
         /\ forall direction, 0 <= direction < 4 ->
            exists points,
              sides !! Z.to_nat direction = Some points
              /\ len points
                 = if (direction =? d) || (direction =? (d + 2) mod 4)
                   then n else 0.
Proof.
  destruct sample_plan_run as (plan & Hrun & Hpoints).
  exists plan. split; [exact Hrun|]. split.
  - injection Hpoints as -> _ _. reflexivity.
  - apply (connection_sides_even (R:=ScriptedRNG) (F:=SketchFlatland)
             false sample_cities 4 sample_vector_field 2 2
             ([0; 1; 0], []) plan Hrun 1%nat).
    unfold sample_cities. cbn [length]. lia.
Defined.

Lemma inner_point_offset_formula_witness :
  exists plan,
    _generate_city_connection_points (R:=ScriptedRNG) (F:=SketchFlatland)
      false sample_cities 4 sample_vector_field 2 2 ([0; 1; 0], []) = Ok plan
    /\ inward_offset (18, 12) 4 0 (17, 14) = 3
    /\ (let n := len [(17, 11); (16, 12); (15, 13); (17, 14)] in
        let offset := inward_offset (18, 12) 4 0 (17, 14) in
        offset = Z.abs (Z.of_nat 3 - n / 2)
                 + Z.max 0 (Z.min 1 (Z.of_nat 3 - n / 2)) + 1
        /\ 1 <= offset).
Proof.
  destruct sample_plan_run as (plan & Hrun & Hpoints).
  exists plan. split; [exact Hrun|]. split; [reflexivity|].
  apply (inner_point_offset_formula (R:=ScriptedRNG) (F:=SketchFlatland)
           false sample_cities 4 sample_vector_field
           2 2 ([0; 1; 0], []) plan Hrun 1%nat (18, 12)
           [[(17, 11); (16, 12); (15, 13); (17, 14)]; [];
            [(19, 11); (20, 12); (21, 13); (19, 14)]; []]
           0 [(17, 11); (16, 12); (15, 13); (17, 14)] 3%nat (17, 14)).
  - reflexivity.
  - injection Hpoints as -> _ _. reflexivity.
  - lia.
  - reflexivity.
  - reflexivity.
Defined.

(** ** CliqueDetector: [build_clique3] and [contains_cliques] *)

(** [sorted(l)] on integers. *)
Fixpoint insert_sorted (x : nat) (l : list nat) : list nat :=
  match l with
  | [] => [x]
  | y :: l' => if (x <=? y)%nat then x :: y :: l' else y :: insert_sorted x l'
  end.

Definition sorted (l : list nat) : list nat := foldr insert_sorted [] l.

(** [list(dict.fromkeys(l))]: the first occurrence of every element, in
    order. *)
Definition dict_fromkeys (l : list nat) : list nat :=
  foldl (fun acc x => if bool_decide (x ∈ acc) then acc else acc ++ [x]) [] l.

Definition build_clique3 (index_array : list (list nat)) (index : nat)
  : outcome (list nat) :=
  row ← py_index index_array (Z.of_nat index);
  closest_index1 ← py_index row 0;
  closest_index2 ← py_index row 1;
  closest_index3 ← py_index row 2;
  Ok (sorted [closest_index1; closest_index2; closest_index3]).

(** The loop [for i in range(len(city_positions))] with its early
    returns. *)
Fixpoint cliques_from (sort_index : list (list nat)) (idxs : list nat)
  : outcome bool :=
  match idxs with
  | [] => Ok false
  | i :: rest =>
      clique3 ← build_clique3 sort_index i;
      i1 ← py_index clique3 1;
      clique31 ← build_clique3 sort_index i1;
      i2 ← py_index clique3 2;
      clique32 ← build_clique3 sort_index i2;
      if bool_decide (clique3 = clique31) && bool_decide (clique3 = clique32)
      then Ok true
      else
        let cluster := dict_fromkeys (clique3 ++ clique31 ++ clique32) in
        if len cluster =? 4 then
          additional_element ←
            py_index (filter (fun x => x ∉ clique3) cluster) 0;
          clique33 ← build_clique3 sort_index additional_element;
          if bool_decide (cluster = dict_fromkeys (cluster ++ clique33))
          then Ok true
          else cliques_from sort_index rest
        else cliques_from sort_index rest
  end.

Definition contains_cliques {N : Numpy} (city_positions : list (Z * Z))
  : outcome bool :=
  let distance_array :=
    (fun a => get_manhattan_distance a <$> city_positions) <$> city_positions in
  let sort_index := np_argsort <$> distance_array in
  cliques_from sort_index (seq 0 (length city_positions)).

(** ** InterCityConnector: [_connect_cities]

    The local variables of the Python function live for the whole call: a
    variable assigned in one iteration is still bound in the next one, also
    for the next city. A variable that may be read before it was ever
    assigned is an [option] here; reading [None] raises
    [UnboundLocalError]. *)

Definition read_local {A} (v : option A) : outcome A :=
  match v with
  | Some x => Ok x
  | None => Raise UnboundLocalError
  end.

Definition remove_msg : string := "list.remove(x): x not in list".

(** [l.remove(x)]: drops the first entry equal to [x]. *)
Fixpoint list_remove_first (x : Z * Z) (l : list (Z * Z))
  : outcome (list (Z * Z)) :=
  match l with
  | [] => Raise (ValueError remove_msg)
  | y :: l' =>
      if bool_decide (x = y) then Ok l'
      else l'' ← list_remove_first x l'; Ok (y :: l'')
  end.

(** [l[i] = x] on a Python list. *)
Definition py_set {A} (l : list A) (i : Z) (x : A) : outcome (list A) :=
  _ ← py_index l i;
  Ok (<[Z.to_nat (if i <? 0 then i + len l else i) := x]> l).

(** The local variables of [_connect_cities] that steer it. None of them
    holds a path returned by a routing call. *)
Record connect_locals : Type := {
  set_of_connections : list (Z * Z);
  cs_i : Z;
  connection_points_copy : list (list (list (Z * Z)));
  neighbour_connection_point : option (Z * Z);
  next_neighbour_connection_point : option (Z * Z);
  last_city_out_connection_point : option (Z * Z);
  current_direction : option Z;
  neighbour_index_for_connection : option Z;
  possible_connection : option (Z * Z);
  city_direction : option Z;
}.

Definition set_i (i : Z) (st : connect_locals) : connect_locals :=
  {| set_of_connections := set_of_connections st;
     cs_i := i;
     connection_points_copy := connection_points_copy st;
     neighbour_connection_point := neighbour_connection_point st;
     next_neighbour_connection_point := next_neighbour_connection_point st;
     last_city_out_connection_point := last_city_out_connection_point st;
     current_direction := current_direction st;
     neighbour_index_for_connection := neighbour_index_for_connection st;
     possible_connection := possible_connection st;
     city_direction := city_direction st |}.

Definition set_copy (copy : list (list (list (Z * Z)))) (st : connect_locals)
  : connect_locals :=
  {| set_of_connections := set_of_connections st;
     cs_i := cs_i st;
     connection_points_copy := copy;
     neighbour_connection_point := neighbour_connection_point st;
     next_neighbour_connection_point := next_neighbour_connection_point st;
     last_city_out_connection_point := last_city_out_connection_point st;
     current_direction := current_direction st;
     neighbour_index_for_connection := neighbour_index_for_connection st;
     possible_connection := possible_connection st;
     city_direction := city_direction st |}.

(** [set_of_connections.append(possible_connection)]. *)
Definition append_connection (st : connect_locals) : outcome connect_locals :=
  connection ← read_local (possible_connection st);
  Ok {| set_of_connections := set_of_connections st ++ [connection];
        cs_i := cs_i st;
        connection_points_copy := connection_points_copy st;
        neighbour_connection_point := neighbour_connection_point st;
        next_neighbour_connection_point := next_neighbour_connection_point st;
        last_city_out_connection_point := last_city_out_connection_point st;
        current_direction := current_direction st;
        neighbour_index_for_connection := neighbour_index_for_connection st;
        possible_connection := possible_connection st;
        city_direction := city_direction st |}.

(** The assignments of the search loop when a closer point is found. *)
Definition set_found (point : Z * Z) (direction neighbour : Z)
    (st : connect_locals) : connect_locals :=
  {| set_of_connections := set_of_connections st;
     cs_i := cs_i st;
     connection_points_copy := connection_points_copy st;
     neighbour_connection_point := Some point;
     next_neighbour_connection_point := next_neighbour_connection_point st;
     last_city_out_connection_point := last_city_out_connection_point st;
     current_direction := Some direction;
     neighbour_index_for_connection := Some neighbour;
     possible_connection := possible_connection st;
     city_direction := city_direction st |}.

(** The assignments of the even branch between the search loop and the
    test on [set_of_connections]. *)
Definition set_candidate (connection : Z * Z) (direction : Z)
    (st : connect_locals) : connect_locals :=
  {| set_of_connections := set_of_connections st;
     cs_i := cs_i st;
     connection_points_copy := connection_points_copy st;
     neighbour_connection_point := neighbour_connection_point st;
     next_neighbour_connection_point := next_neighbour_connection_point st;
     last_city_out_connection_point := last_city_out_connection_point st;
     current_direction := current_direction st;
     neighbour_index_for_connection := neighbour_index_for_connection st;
     possible_connection := Some connection;
     city_direction := Some direction |}.

(** The assignments of the even branch when the connection is new. *)
Definition set_pairing (point next_point last_out : Z * Z)
    (copy : list (list (list (Z * Z)))) (st : connect_locals) : connect_locals :=
  {| set_of_connections := set_of_connections st;
     cs_i := cs_i st;
     connection_points_copy := copy;
     neighbour_connection_point := Some point;
     next_neighbour_connection_point := Some next_point;
     last_city_out_connection_point := Some last_out;
     current_direction := current_direction st;
     neighbour_index_for_connection := neighbour_index_for_connection st;
     possible_connection := possible_connection st;
     city_direction := city_direction st |}.

(** [tmp_dist < min_connection_dist], where [None] is [np.inf]. *)
Definition below (tmp_dist : Z) (min_connection_dist : option Z) : bool :=
  match min_connection_dist with
  | None => true
  | Some m => tmp_dist <? m
  end.

(** The search for the closest connection point of the neighbour, over the
    four sides in the order North, East, South, West. [rank] is 1 in the
    first pass of a city and 2 in the second. *)
Definition search_closest (rank : Z) (closest_neighb_idx : list Z)
    (city_out_connection_point : Z * Z) (st : connect_locals)
  : outcome connect_locals :=
  snd <$>
  for_fold
    (fun (acc : option Z * connect_locals) direction =>
       neighbour ← py_index closest_neighb_idx rank;
       sides ← py_index (connection_points_copy acc.2) neighbour;
       current_points ← py_index sides direction;
       Ok (foldl
             (fun (acc : option Z * connect_locals) tmp_in_connection_point =>
                let tmp_dist :=
                  get_manhattan_distance city_out_connection_point
                                         tmp_in_connection_point in
                if below tmp_dist acc.1
                then (Some tmp_dist,
                      set_found tmp_in_connection_point direction neighbour acc.2)
                else acc)
             acc current_points))
    [0; 1; 2; 3] (None, st).

(** The test of the odd branch: whether the two tracks would cross. *)
Definition tracks_cross (city_dir : Z) (point last_out : Z * Z) : bool :=
  ((city_dir =? 0) || (city_dir =? 1))
  && (((point.1 <? last_out.1) && (last_out.2 <? point.2))
      || ((last_out.1 <? point.1) && (point.2 <? last_out.2)))
  || ((city_dir =? 2) || (city_dir =? 3))
     && (((point.1 <? last_out.1) && (point.2 <? last_out.2))
         || ((last_out.1 <? point.1) && (last_out.2 <? point.2))).

Section InterCityConnector.
Context {F : Flatland}.

(** What the routing calls produce: the cells of all paths, the grid, and
    the warning log. *)
Record drawing : Type := {
  all_paths : list (Z * Z);
  dr_grid_map : GridTransitionMap;
  dr_log : list warning;
}.

(** The warning that follows a routing call from [start] to [end_] that
    returned [new_line]. *)
Definition line_warning (start end_ : Z * Z) (new_line : list (Z * Z))
  : list warning :=
  if len new_line =? 0 then [NoLineAdded]
  else if negb (bool_decide (last new_line = Some end_))
          || negb (bool_decide (head new_line = Some start))
       then [UnableToConnect]
       else [].

(** One call of [connect_rail_in_grid_map] with the two checks and the
    [all_paths.extend] that follow it. *)
Definition draw_line (city_cells : list (Z * Z)) (start end_ : Z * Z)
    (d : drawing) : drawing :=
  let '(new_line, grid_map) :=
    connect_rail_in_grid_map (dr_grid_map d) start end_ city_cells in
  {| all_paths := all_paths d ++ new_line;
     dr_grid_map := grid_map;
     dr_log := dr_log d ++ line_warning start end_ new_line |}.

(** [_closest_neighbour_in_grid4_directions]; [_connect_cities] calls it
    and never reads the result. *)
Definition _closest_neighbour_in_grid4_directions {N : Numpy}
    (current_city_idx : Z) (city_positions : list (Z * Z))
  : outcome (list (option Z)) :=
  current ← py_index city_positions current_city_idx;
  let city_distances := get_manhattan_distance current <$> city_positions in
  let sorted_neighbours := np_argsort city_distances in
  for_fold
    (fun closest_neighbour neighbour =>
       if bool_decide (None ∈ closest_neighbour) then
         position ← py_index city_positions (Z.of_nat neighbour);
         let direction_to_neighbour :=
           direction_value (direction_to_point current position) in
         slot ← py_index closest_neighbour direction_to_neighbour;
         match slot with
         | None => py_set closest_neighbour direction_to_neighbour
                          (Some (Z.of_nat neighbour))
         | Some _ => Ok closest_neighbour
         end
       else Ok closest_neighbour)
    (drop 1 sorted_neighbours) (replicate 4 None).

(** The branch [if i % 2 == 0]; it draws nothing. *)
Definition even_step (rank : Z) (city_positions : list (Z * Z))
    (current_city_idx : Z) (city_position : Z * Z) (closest_neighb_idx : list Z)
    (city_out_connection_point : Z * Z) (st : connect_locals)
  : outcome connect_locals :=
  st ← search_closest rank closest_neighb_idx city_out_connection_point st;
  neighbour_index ← read_local (neighbour_index_for_connection st);
  let possible := (current_city_idx, neighbour_index) in
  let reversed_possible_connection := (neighbour_index, current_city_idx) in
  let city_dir :=
    direction_value (direction_to_point city_position city_out_connection_point) in
  neighbour ← py_index closest_neighb_idx rank;
  neighbour_position ← py_index city_positions neighbour;
  point ← read_local (neighbour_connection_point st);
  let neighbour_direction :=
    direction_value (direction_to_point neighbour_position point) in
  let st := set_candidate possible city_dir st in
  if negb (bool_decide (reversed_possible_connection ∈ set_of_connections st))
  then
    let first_index :=
      if bool_decide (city_dir + neighbour_direction ∈ [1; 5])
         || (city_dir =? neighbour_direction)
      then 1 else 0 in
    sides ← py_index (connection_points_copy st) neighbour;
    direction ← read_local (current_direction st);
    points ← py_index sides direction;
    point ← py_index points first_index;
    next_point ← py_index points (1 - first_index);
    points ← list_remove_first point points;
    sides ← py_set sides direction points;
    copy ← py_set (connection_points_copy st) neighbour sides;
    Ok (set_pairing point next_point city_out_connection_point copy st)
  else Ok (set_i (cs_i st + 1) st).

(** The branch [else] of [if i % 2 == 0]: the two paths of a pair. *)
Definition odd_step (city_cells : list (Z * Z))
    (city_out_connection_point : Z * Z) (st : connect_locals) (d : drawing)
  : outcome (connect_locals * drawing) :=
  city_dir ← read_local (city_direction st);
  point ← read_local (neighbour_connection_point st);
  last_out ← read_local (last_city_out_connection_point st);
  if tracks_cross city_dir point last_out then
    next_point ← read_local (next_neighbour_connection_point st);
    let d := draw_line city_cells city_out_connection_point next_point d in
    let d := draw_line city_cells last_out point d in
    st ← append_connection st;
    Ok (st, d)
  else
    let d := draw_line city_cells last_out point d in
    st ← append_connection st;
    next_point ← read_local (next_neighbour_connection_point st);
    Ok (st, draw_line city_cells city_out_connection_point next_point d).

(** The body of [for city_out_connection_point in ...], with the
    [i += 1] that ends it. *)
Definition connect_point (rank : Z) (city_positions city_cells : list (Z * Z))
    (current_city_idx : Z) (city_position : Z * Z) (closest_neighb_idx : list Z)
    (s : connect_locals * drawing) (city_out_connection_point : Z * Z)
  : outcome (connect_locals * drawing) :=
  '(st, d) ←
    (if cs_i s.1 mod 2 =? 0
     then
       st ← even_step rank city_positions current_city_idx city_position
              closest_neighb_idx city_out_connection_point s.1;
       Ok (st, s.2)
     else odd_step city_cells city_out_connection_point s.1 s.2);
  Ok (set_i (cs_i st + 1) st, d).

(** One pass over the outer points of side [out_direction]:
    [copy.deepcopy] and the loop. *)
Definition side_pass (rank : Z) (city_positions : list (Z * Z))
    (connection_points : list (list (list (Z * Z))))
    (city_cells : list (Z * Z)) (current_city_idx : Z) (city_position : Z * Z)
    (closest_neighb_idx : list Z) (out_direction : Z)
    (s : connect_locals * drawing)
  : outcome (connect_locals * drawing) :=
  let s := (set_copy connection_points s.1, s.2) in
  sides ← py_index connection_points current_city_idx;
  out_points ← py_index sides out_direction;
  for_fold
    (connect_point rank city_positions city_cells current_city_idx
                   city_position closest_neighb_idx)
    out_points s.

(** The two sides of a city to connect from: [closest_direction] and
    [second_closest_direction]. *)
Definition out_directions (city_positions : list (Z * Z))
    (connection_points : list (list (list (Z * Z))))
    (current_city_idx : Z) (city_position : Z * Z) (closest_neighb_idx : list Z)
  : outcome (Z * Z) :=
  closest ← py_index closest_neighb_idx 1;
  closest_position ← py_index city_positions closest;
  let closest_direction :=
    direction_value (direction_to_point city_position closest_position) in
  sides ← py_index connection_points current_city_idx;
  closest_side ← py_index sides closest_direction;
  if bool_decide (closest_side = []) then
    let closest_direction := (closest_direction + 1) mod 4 in
    Ok (closest_direction, (closest_direction + 2) mod 4)
  else
    second ← py_index closest_neighb_idx 2;
    second_position ← py_index city_positions second;
    let second_closest_direction :=
      direction_value (direction_to_point city_position second_position) in
    sides ← py_index connection_points current_city_idx;
    second_side ← py_index sides second_closest_direction;
    if bool_decide (second_side = [])
    then Ok (closest_direction, (closest_direction + 2) mod 4)
    else Ok (closest_direction, second_closest_direction).

(** The body of [for current_city_idx in np.arange(len(city_positions))]. *)
Definition connect_city {N : Numpy} (city_positions : list (Z * Z))
    (connection_points : list (list (list (Z * Z))))
    (city_cells : list (Z * Z)) (s : connect_locals * drawing)
    (current_city_idx : Z)
  : outcome (connect_locals * drawing) :=
  _ ← _closest_neighbour_in_grid4_directions current_city_idx city_positions;
  city_position ← py_index city_positions current_city_idx;
  let neighb_dist := get_manhattan_distance city_position <$> city_positions in
  let closest_neighb_idx := Z.of_nat <$> argsort neighb_dist in
  '(closest_direction, second_closest_direction) ←
    out_directions city_positions connection_points current_city_idx
                   city_position closest_neighb_idx;
  let s := (set_i 0 s.1, s.2) in
  s ← side_pass 1 city_positions connection_points city_cells
        current_city_idx city_position closest_neighb_idx closest_direction s;
  if negb (closest_direction =? second_closest_direction) then
    side_pass 2 city_positions connection_points city_cells
      current_city_idx city_position closest_neighb_idx
      second_closest_direction s
  else Ok s.

Definition initial_locals : connect_locals :=
  {| set_of_connections := [];
     cs_i := 0;
     connection_points_copy := [];
     neighbour_connection_point := None;
     next_neighbour_connection_point := None;
     last_city_out_connection_point := None;
     current_direction := None;
     neighbour_index_for_connection := None;
     possible_connection := None;
     city_direction := None |}.

(** Returns [all_paths], with the grid as the routing calls left it and the
    warning log. *)
Definition _connect_cities {N : Numpy} (city_positions : list (Z * Z))
    (connection_points : list (list (list (Z * Z))))
    (city_cells : list (Z * Z)) (grid_map : GridTransitionMap)
    (log : list warning) : outcome drawing :=
  snd <$>
  for_fold (connect_city city_positions connection_points city_cells)
    (np_arange 0 (len city_positions))
    (initial_locals,
     {| all_paths := []; dr_grid_map := grid_map; dr_log := log |}).

End InterCityConnector.

(** ** Routing failures do not steer the connector *)

(** Two outcomes end the same way, with related results. *)
Inductive rel_outcome {A B} (P : A -> B -> Prop)
  : outcome A -> outcome B -> Prop :=
  | rel_ok a b : P a b -> rel_outcome P (Ok a) (Ok b)
  | rel_raise e : rel_outcome P (Raise e) (Raise e)
  | rel_out_of_fuel : rel_outcome P OutOfFuel OutOfFuel.

Lemma rel_outcome_bind {A B A' B'} (P : A -> B -> Prop) (P' : A' -> B' -> Prop)
    (o1 : outcome A) (o2 : outcome B) (f : A -> outcome A') (g : B -> outcome B') :
  rel_outcome P o1 o2 ->
  (forall a b, P a b -> rel_outcome P' (f a) (g b)) ->
  rel_outcome P' (o1 ≫= f) (o2 ≫= g).
Proof. intros [a b Hab|e|] Hfg; osimpl; [by apply Hfg|constructor..]. Qed.

Lemma rel_outcome_bind_same {A A' B'} (P' : A' -> B' -> Prop)
    (o : outcome A) (f : A -> outcome A') (g : A -> outcome B') :
  (forall a, rel_outcome P' (f a) (g a)) ->
  rel_outcome P' (o ≫= f) (o ≫= g).
Proof. intros Hfg. destruct o; osimpl; [apply Hfg|constructor..]. Qed.

Lemma for_fold_rel {A S1 S2} (P : S1 -> S2 -> Prop)
    (f : S1 -> A -> outcome S1) (g : S2 -> A -> outcome S2) (l : list A) :
  (forall s1 s2 x, P s1 s2 -> rel_outcome P (f s1 x) (g s2 x)) ->
  forall s1 s2, P s1 s2 -> rel_outcome P (for_fold f l s1) (for_fold g l s2).
Proof.
  intros Hstep. induction l as [|x l IH]; intros s1 s2 Hs; cbn [for_fold].
  - by constructor.
  - eapply rel_outcome_bind; [by apply Hstep|]. apply IH.
Qed.

Section ConnectorSimulation.
Context {N : Numpy}.
Variables F1 F2 : Flatland.
Hypothesis Hdir : @direction_to_point F1 = @direction_to_point F2.

(** A relation between the drawings of the two runs that every pair of
    routing calls with the same request keeps. *)
Variable city_cells : list (Z * Z).
Variable Q : drawing (F:=F1) -> drawing (F:=F2) -> Prop.
Hypothesis HQ :
  forall start end_ d1 d2,
    Q d1 d2 ->
    Q (draw_line city_cells start end_ d1) (draw_line city_cells start end_ d2).

(** The two runs hold the same locals and related drawings. *)
Definition sim (s1 : connect_locals * drawing (F:=F1))
    (s2 : connect_locals * drawing (F:=F2)) : Prop :=
  s1.1 = s2.1 /\ Q s1.2 s2.2.

Lemma even_step_same rank city_positions current_city_idx city_position
    closest_neighb_idx city_out_connection_point st :
  even_step (F:=F1) rank city_positions current_city_idx city_position
            closest_neighb_idx city_out_connection_point st
  = even_step (F:=F2) rank city_positions current_city_idx city_position
              closest_neighb_idx city_out_connection_point st.
Proof. unfold even_step. by rewrite Hdir. Qed.

Lemma out_directions_same city_positions connection_points current_city_idx
    city_position closest_neighb_idx :
  out_directions (F:=F1) city_positions connection_points current_city_idx
                 city_position closest_neighb_idx
  = out_directions (F:=F2) city_positions connection_points current_city_idx
                   city_position closest_neighb_idx.
Proof. unfold out_directions. by rewrite Hdir. Qed.

Lemma closest_neighbour_same current_city_idx city_positions :
  _closest_neighbour_in_grid4_directions (F:=F1) current_city_idx city_positions
  = _closest_neighbour_in_grid4_directions (F:=F2) current_city_idx city_positions.
Proof. unfold _closest_neighbour_in_grid4_directions. by rewrite Hdir. Qed.

Lemma odd_step_sim city_out_connection_point st d1 d2 :
  Q d1 d2 ->
  rel_outcome sim (odd_step (F:=F1) city_cells city_out_connection_point st d1)
                  (odd_step (F:=F2) city_cells city_out_connection_point st d2).
Proof.
  intros Hd. unfold odd_step.
  apply rel_outcome_bind_same; intros city_dir.
  apply rel_outcome_bind_same; intros point.
  apply rel_outcome_bind_same; intros last_out.
  destruct (tracks_cross city_dir point last_out).
  - apply rel_outcome_bind_same; intros next_point.
    apply rel_outcome_bind_same; intros st'.
    constructor. split; [done|]. cbn. by do 2 apply HQ.
  - apply rel_outcome_bind_same; intros st'.
    apply rel_outcome_bind_same; intros next_point.
    constructor. split; [done|]. cbn. by do 2 apply HQ.
Qed.

Lemma connect_point_sim rank city_positions current_city_idx
    city_position closest_neighb_idx s1 s2 city_out_connection_point :
  sim s1 s2 ->
  rel_outcome sim
    (connect_point (F:=F1) rank city_positions city_cells current_city_idx
                   city_position closest_neighb_idx s1 city_out_connection_point)
    (connect_point (F:=F2) rank city_positions city_cells current_city_idx
                   city_position closest_neighb_idx s2 city_out_connection_point).
Proof.
  destruct s1 as [st d1], s2 as [st2 d2]. intros [Hst Hd]. cbn in Hst, Hd.
  subst st2. unfold connect_point. cbn [fst snd].
  eapply rel_outcome_bind with (P := sim).
  - destruct (cs_i st mod 2 =? 0).
    + rewrite even_step_same. apply rel_outcome_bind_same; intros st'.
      by constructor.
    + by apply odd_step_sim.
  - intros [st1 e1] [st2 e2] [Hst He]. cbn in Hst, He. subst st2.
    by constructor.
Qed.

Lemma side_pass_sim rank city_positions connection_points
    current_city_idx city_position closest_neighb_idx out_direction s1 s2 :
  sim s1 s2 ->
  rel_outcome sim
    (side_pass (F:=F1) rank city_positions connection_points city_cells
               current_city_idx city_position closest_neighb_idx out_direction s1)
    (side_pass (F:=F2) rank city_positions connection_points city_cells
               current_city_idx city_position closest_neighb_idx out_direction s2).
Proof.
  intros [Hst Hd]. unfold side_pass.
  apply rel_outcome_bind_same; intros sides.
  apply rel_outcome_bind_same; intros out_points.
  apply for_fold_rel.
  - intros. by apply connect_point_sim.
  - split; cbn; [by rewrite Hst|done].
Qed.

Lemma connect_city_sim city_positions connection_points s1 s2
    current_city_idx :
  sim s1 s2 ->
  rel_outcome sim
    (connect_city (F:=F1) city_positions connection_points city_cells s1
                  current_city_idx)
    (connect_city (F:=F2) city_positions connection_points city_cells s2
                  current_city_idx).
Proof.
  intros [Hst Hd]. unfold connect_city.
  rewrite closest_neighbour_same.
  apply rel_outcome_bind_same; intros _.
  apply rel_outcome_bind_same; intros city_position.
  rewrite out_directions_same.
  apply rel_outcome_bind_same; intros [closest_direction second_closest_direction].
  eapply rel_outcome_bind with (P := sim).
  - apply side_pass_sim. split; cbn; [by rewrite Hst|done].
  - intros s1' s2' Hs'.
    destruct (negb (closest_direction =? second_closest_direction)).
    + by apply side_pass_sim.
    + by constructor.
Qed.

Lemma connect_cities_sim city_positions connection_points
    grid_map1 grid_map2 log1 log2 :
  Q {| all_paths := []; dr_grid_map := grid_map1; dr_log := log1 |}
    {| all_paths := []; dr_grid_map := grid_map2; dr_log := log2 |} ->
  rel_outcome Q
    (_connect_cities (F:=F1) city_positions connection_points city_cells
                     grid_map1 log1)
    (_connect_cities (F:=F2) city_positions connection_points city_cells
                     grid_map2 log2).
Proof.
  intros Hinit. unfold _connect_cities.
  pose proof (for_fold_rel sim
                (connect_city (F:=F1) city_positions connection_points city_cells)
                (connect_city (F:=F2) city_positions connection_points city_cells)
                (np_arange 0 (len city_positions))) as Hfold.
  specialize (Hfold (fun s1 s2 x Hs => connect_city_sim _ _ s1 s2 x Hs)).
  specialize (Hfold (initial_locals, _) (initial_locals, _) (conj eq_refl Hinit)).
  destruct Hfold as [s1 s2 [_ Hs]|e|]; cbn; by constructor.
Qed.

End ConnectorSimulation.

(** The drawing after the routing calls for [requests], issued one after
    another. *)
Definition draw_requests {F : Flatland} (city_cells : list (Z * Z))
    (requests : list ((Z * Z) * (Z * Z))) (d : drawing) : drawing :=
  foldl (fun d request => draw_line city_cells request.1 request.2 d) d requests.

(** C8. Every routing call is followed by the check of the returned path:
    an empty path appends the warning "No line added", a non-empty path that
    does not start and end at the requested cells appends "Unable to
    connect", and the path is appended to [all_paths] in every case. Whatever
    the routing calls return, [_connect_cities] goes on with the same list of
    routing requests: run with two routers (two implementations of the
    flatland interface with the same [direction_to_point]) on any two grids,
    it ends the same way (it returns for both, or it raises the same
    exception for both), and when it returns both results are those of
    issuing one and the same list of requests. So a routing failure raises
    nothing and skips nothing. *)
Theorem connect_cities_tolerates_routing_failures {N : Numpy}
    (F1 F2 : Flatland) (city_positions : list (Z * Z))
    (connection_points : list (list (list (Z * Z))))
    (city_cells : list (Z * Z))
    (grid_map1 : GridTransitionMap (Flatland:=F1))
    (grid_map2 : GridTransitionMap (Flatland:=F2)) (log : list warning) :
  @direction_to_point F1 = @direction_to_point F2 ->
  (forall start end_ (d : drawing (F:=F1)),
     let new_line :=
       (connect_rail_in_grid_map (dr_grid_map d) start end_ city_cells).1 in
     all_paths (draw_line city_cells start end_ d) = all_paths d ++ new_line
     /\ dr_log (draw_line city_cells start end_ d)
        = dr_log d
          ++ (if bool_decide (new_line = []) then [NoLineAdded]
              else if bool_decide (last new_line = Some end_
                                   /\ head new_line = Some start)
                   then [] else [UnableToConnect]))
  /\ rel_outcome
       (fun d1 d2 =>
          exists requests,
            d1 = draw_requests city_cells requests
                   {| all_paths := []; dr_grid_map := grid_map1; dr_log := log |}
            /\ d2 = draw_requests city_cells requests
                      {| all_paths := []; dr_grid_map := grid_map2; dr_log := log |})
       (_connect_cities (F:=F1) city_positions connection_points city_cells
                        grid_map1 log)
       (_connect_cities (F:=F2) city_positions connection_points city_cells
                        grid_map2 log).
Proof.
  intros Hdir. split.
  - intros start end_ d new_line. subst new_line. unfold draw_line.
    destruct (connect_rail_in_grid_map _ _ _ _) as [new_line grid_map].
    cbn [fst all_paths dr_log]. split; [done|]. f_equal.
    unfold line_warning, len.
    destruct new_line as [|c new_line]; [done|].
    destruct (Z.eqb_spec (Z.of_nat (length (c :: new_line))) 0) as [Hlen|_];
      [cbn in Hlen; lia|].
    repeat case_bool_decide; cbn [negb orb]; try done; tauto.
  - apply (connect_cities_sim F1 F2 Hdir).
    + intros start end_ d1 d2 (requests & -> & ->).
      exists (requests ++ [(start, end_)]).
      unfold draw_requests. rewrite !foldl_snoc. split; reflexivity.
    + by exists [].
Qed.

(** The sketch implementation with a router that never finds a path. *)
Definition BlockedFlatland : Flatland := {|
  GridTransitionMap := list (Z * Z);
  new_grid_map := fun _ _ => [];
  direction_to_point := sketch_direction_to_point;
  align_cell_to_city := sketch_align_cell_to_city;
  connect_rail_in_grid_map := fun grid _ _ _ => ([], grid);
  connect_straight_line_in_grid_map := sketch_straight_line;
  fix_inner_nodes := fun grid _ => grid;
  cell_neighbours_valid := fun grid cell => existsb (coord_eqb cell) grid;
  fix_transitions := fun grid cell _ => grid ++ [cell];
|}.

(** The six routing requests of the three sample cities: with the sketch
    router every path is drawn, with the blocked router every call fails,
    warns, and the connector still runs to its end. *)
Definition sample_requests : list ((Z * Z) * (Z * Z)) :=
  [((11, 9), (14, 13)); ((11, 8), (14, 12)); ((3, 8), (4, 20));
   ((3, 9), (5, 20)); ((5, 28), (14, 12)); ((4, 28), (14, 13))].

Definition sketch_drawing (paths grid : list (Z * Z)) (log : list warning)
  : drawing (F:=SketchFlatland) :=
  {| all_paths := paths; dr_grid_map := (grid : @GridTransitionMap SketchFlatland);
     dr_log := log |}.

Definition blocked_drawing (paths grid : list (Z * Z)) (log : list warning)
  : drawing (F:=BlockedFlatland) :=
  {| all_paths := paths; dr_grid_map := (grid : @GridTransitionMap BlockedFlatland);
     dr_log := log |}.

Lemma connect_cities_sample_runs :
  _connect_cities (F:=SketchFlatland) (N:=ExactNumpy) sample_cities
    sample_outer [] ([] : @GridTransitionMap SketchFlatland) []
  = Ok (draw_requests [] sample_requests (sketch_drawing [] [] []))
  /\ _connect_cities (F:=BlockedFlatland) (N:=ExactNumpy) sample_cities
       sample_outer [] ([] : @GridTransitionMap BlockedFlatland) []
     = Ok (blocked_drawing [] [] (replicate 6 NoLineAdded)).
Proof. split; by vm_compute. Qed.

Lemma connect_cities_tolerates_routing_failures_witness :
  @direction_to_point SketchFlatland = @direction_to_point BlockedFlatland
  /\ rel_outcome
       (fun d1 d2 =>
          exists requests,
            d1 = draw_requests [] requests (sketch_drawing [] [] [])
            /\ d2 = draw_requests [] requests (blocked_drawing [] [] []))
       (_connect_cities (F:=SketchFlatland) (N:=ExactNumpy) sample_cities
                        sample_outer [] ([] : @GridTransitionMap SketchFlatland) [])
       (_connect_cities (F:=BlockedFlatland) (N:=ExactNumpy) sample_cities
                        sample_outer [] ([] : @GridTransitionMap BlockedFlatland) []).
Proof.
  split; [reflexivity|].
  apply (connect_cities_tolerates_routing_failures (N:=ExactNumpy)
           SketchFlatland BlockedFlatland sample_cities sample_outer []
           ([] : @GridTransitionMap SketchFlatland)
           ([] : @GridTransitionMap BlockedFlatland) []).
  reflexivity.
Defined.

(** ** InnerCityBuilder: [_build_inner_cities] *)

Section InnerCityBuilder.
Context {F : Flatland}.

(** The loop [for i in range(4)] that looks for the first side with inner
    points; [boarder] keeps its value from the previous city when no side
    has any. *)
Fixpoint find_boarder (sides : list (list (Z * Z))) (idxs : list Z)
    (boarder : option Z) : outcome (option Z) :=
  match idxs with
  | [] => Ok boarder
  | i :: rest =>
      points ← py_index sides i;
      if 0 <? len points then Ok (Some i) else find_boarder sides rest boarder
  end.

(** The state of the loop over the cities. *)
Record inner_state : Type := {
  free_rails : list (list (list (Z * Z)));
  in_grid_map : GridTransitionMap;
  in_boarder : option Z;
}.

(** The body of [for current_city in range(len(city_positions))]. *)
Definition build_inner_city
    (inner_connection_points outer_connection_points : list (list (list (Z * Z))))
    (st : inner_state) (current_city : Z) : outcome inner_state :=
  sides ← py_index inner_connection_points current_city;
  boarder ← find_boarder sides (range 4) (in_boarder st);
  boarder_value ← read_local boarder;
  let opposite_boarder := (boarder_value + 2) mod 4 in
  boarder_points ← py_index sides boarder_value;
  let nr_of_connection_points := len boarder_points in
  outer_sides ← py_index outer_connection_points current_city;
  outer_boarder_points ← py_index outer_sides boarder_value;
  let number_of_out_rails := len outer_boarder_points in
  let start_idx := Z.quot (nr_of_connection_points - number_of_out_rails) 2 in
  (* Connect parallel tracks *)
  '(tracks, grid_map) ←
    for_fold
      (fun (acc : list (list (Z * Z)) * GridTransitionMap) track_id =>
         source ← py_index boarder_points track_id;
         opposite_points ← py_index sides opposite_boarder;
         target ← py_index opposite_points track_id;
         let '(current_track, grid_map) :=
           connect_straight_line_in_grid_map acc.2 source target in
         Ok (acc.1 ++ [current_track], grid_map))
      (range nr_of_connection_points) ([], in_grid_map st);
  grid_map ←
    for_fold
      (fun grid_map track_id =>
         source ← py_index boarder_points track_id;
         opposite_points ← py_index sides opposite_boarder;
         target ← py_index opposite_points track_id;
         (* Connect parallel tracks with each other *)
         let grid_map := fix_inner_nodes grid_map source in
         let grid_map := fix_inner_nodes grid_map target in
         (* Connect outer tracks to inner tracks *)
         if (start_idx <=? track_id)
            && (track_id <? start_idx + number_of_out_rails)
         then
           source_outer ← py_index outer_boarder_points (track_id - start_idx);
           outer_opposite_points ← py_index outer_sides opposite_boarder;
           target_outer ← py_index outer_opposite_points (track_id - start_idx);
           let grid_map :=
             (connect_straight_line_in_grid_map grid_map source source_outer).2 in
           Ok (connect_straight_line_in_grid_map grid_map target target_outer).2
         else Ok grid_map)
      (range nr_of_connection_points) grid_map;
  Ok {| free_rails := free_rails st ++ [tracks];
        in_grid_map := grid_map;
        in_boarder := boarder |}.

(** Returns [free_rails] and the grid with the inner tracks drawn. *)
Definition _build_inner_cities (city_positions : list (Z * Z))
    (inner_connection_points outer_connection_points : list (list (list (Z * Z))))
    (grid_map : GridTransitionMap)
  : outcome (list (list (list (Z * Z))) * GridTransitionMap) :=
  st ←
    for_fold (build_inner_city inner_connection_points outer_connection_points)
      (range (len city_positions))
      {| free_rails := []; in_grid_map := grid_map; in_boarder := None |};
  Ok (free_rails st, in_grid_map st).

(** ** TransitionFixer: [_fix_transitions] *)

(** [height] and [width] are [grid_map.height] and [grid_map.width]; the
    array [rails_to_fix] has room for [2 * height * width] cells. *)
Definition _fix_transitions (city_cells inter_city_lines : list (Z * Z))
    (grid_map : GridTransitionMap) (vector_field : list (list Z))
    (height width : Z) : outcome GridTransitionMap :=
  let capacity := 3 * height * width * 2 in
  let cells_to_fix := city_cells ++ inter_city_lines in
  rails_to_fix ←
    for_fold
      (fun (rails_to_fix : list (Z * Z * Z)) cell =>
         let cell_valid := cell_neighbours_valid grid_map cell in
         if negb cell_valid then
           if capacity <=? 3 * len rails_to_fix then Raise IndexError
           else
             hint ← np_get2d vector_field cell;
             Ok (rails_to_fix ++ [(cell.1, cell.2, hint)])
         else Ok rails_to_fix)
      cells_to_fix [];
  (* Fix all other cells *)
  Ok (foldl (fun grid_map entry =>
               fix_transitions grid_map (entry.1.1, entry.1.2) entry.2)
            grid_map rails_to_fix).

End InnerCityBuilder.

(** ** The generator: [SparseRailGen.__init__] and [generate] *)

(** A [height] x [width] array filled with [v]; [np.zeros] refuses negative
    dimensions. *)
Definition np_full (height width v : Z) : outcome (list (list Z)) :=
  if (height <? 0) || (width <? 0)
  then Raise (ValueError negative_dimensions_msg)
  else Ok (replicate (Z.to_nat height) (replicate (Z.to_nat width) v)).

Record SparseRailGen : Type := {
  max_num_cities : Z;
  grid_mode : bool;
  max_rails_between_cities : Z;
  max_rail_pairs_in_city : Z;
  seed : option Z;
}.

Section Generate.
Context {R : RNG} {N : Numpy} {F : Flatland}.

(** The [while contains_cliques] loop: one more random placement per
    positive detection. [fuel] bounds the number of detections. *)
Fixpoint replace_while_cliques (fuel : nat)
    (max_feasible_cities city_radius width height : Z)
    (city_positions : list (Z * Z)) (np_random : rng_state R)
    (log : list warning)
  : outcome (list (Z * Z) * rng_state R * list warning) :=
  match fuel with
  | O => OutOfFuel
  | S fuel' =>
      cliques ← contains_cliques city_positions;
      if cliques : bool then
        '(city_positions, np_random, log) ←
          _generate_random_city_positions max_feasible_cities city_radius
            width height np_random log;
        replace_while_cliques fuel' max_feasible_cities city_radius width height
          city_positions np_random log
      else Ok (city_positions, np_random, log)
  end.

(** The placement part of [generate]: the chosen mode, the clique check for
    more than 4 requested cities, and the fall-back to the grid placement
    when fewer than 2 cities came out. *)
Definition place_cities (self : SparseRailGen) (fuel : nat)
    (max_feasible_cities city_radius width height : Z)
    (np_random : rng_state R) (log : list warning)
  : outcome (list (Z * Z) * rng_state R * list warning) :=
  '(city_positions, np_random, log) ←
    (if grid_mode self then
       city_positions ←
         _generate_evenly_distr_city_positions max_feasible_cities city_radius
           width height;
       Ok (city_positions, np_random, log)
     else
       '(city_positions, np_random, log) ←
         _generate_random_city_positions max_feasible_cities city_radius
           width height np_random log;
       if 4 <? max_num_cities self then
         replace_while_cliques fuel max_feasible_cities city_radius width height
           city_positions np_random log
       else Ok (city_positions, np_random, log));
  let num_cities := len city_positions in
  if num_cities <? 2 then
    let log := log ++ [ChangingToGridMode] in
    city_positions ←
      _generate_evenly_distr_city_positions max_feasible_cities city_radius
        width height;
    Ok (city_positions, np_random, log)
  else Ok (city_positions, np_random, log).

(** What [generate] returns, with the warnings it emitted. *)
Record RailGeneratorProduct : Type := {
  grid_map : GridTransitionMap;
  hint_city_positions : list (Z * Z);
  hint_train_stations : list (list ((Z * Z) * Z));
  hint_city_orientations : list Z;
  warnings : list warning;
}.

(** The random source of a call: seeded from [self.seed] when there is
    one, else the [np_random] argument, else seeded from
    [np.random.randint(2**32)], whose value is [global_draw]. *)
Definition choose_np_random (self : SparseRailGen)
    (np_random : option (rng_state R)) (global_draw : Z)
  : outcome (rng_state R) :=
  match seed self with
  | Some s => rng_seed R s
  | None =>
      match np_random with
      | Some np_random => Ok np_random
      | None => rng_seed R global_draw
      end
  end.

Definition rail_pairs_in_city_of (self : SparseRailGen) : Z :=
  let min_nr_rail_pairs_in_city := 1 in
  if max_rail_pairs_in_city self <? min_nr_rail_pairs_in_city
  then min_nr_rail_pairs_in_city else max_rail_pairs_in_city self.

(** [int(np.ceil((rail_pairs_in_city * 2) / 2)) + city_padding]. *)
Definition city_radius_of (self : SparseRailGen) : Z :=
  let city_padding := 2 in
  rail_pairs_in_city_of self + city_padding.

Definition max_feasible_cities_of (self : SparseRailGen) (width height : Z) : Z :=
  let city_radius := city_radius_of self in
  Z.min (max_num_cities self)
        (((height - 2) / (2 * (city_radius + 1)))
         * ((width - 2) / (2 * (city_radius + 1)))).

(** [generate] after the feasibility check: placement, connection points,
    inter-city lines, inner cities, stations, transition repair. *)
Definition build_network (self : SparseRailGen) (fuel : nat)
    (width height : Z) (np_random : rng_state R)
    (vector_field : list (list Z)) (grid_map : GridTransitionMap)
  : outcome RailGeneratorProduct :=
  let rail_pairs_in_city := rail_pairs_in_city_of self in
  let rails_between_cities :=
    if rail_pairs_in_city * 2 <? max_rails_between_cities self
    then rail_pairs_in_city * 2 else max_rails_between_cities self in
  let city_radius := city_radius_of self in
  let max_feasible_cities := max_feasible_cities_of self width height in
  '(city_positions, np_random, log) ←
    place_cities self fuel max_feasible_cities city_radius width height
                 np_random [];
  (* Set up connection points for all cities *)
  plan ←
    _generate_city_connection_points (grid_mode self) city_positions
      city_radius vector_field rails_between_cities rail_pairs_in_city
      np_random;
  (* Connect the cities through the connection points *)
  lines ←
    _connect_cities city_positions (outer_connection_points plan)
      (city_cells plan) grid_map log;
  (* Build inner cities *)
  '(free_rails, grid_map) ←
    _build_inner_cities city_positions (inner_connection_points plan)
      (outer_connection_points plan) (dr_grid_map lines);
  (* Populate cities *)
  train_stations ←
    _set_trainstation_positions city_positions city_radius free_rails;
  (* Fix all transition elements *)
  grid_map ←
    _fix_transitions (city_cells plan) (all_paths lines) grid_map
      (plan_vector_field plan) height width;
  Ok {| grid_map := grid_map;
        hint_city_positions := city_positions;
        hint_train_stations := train_stations;
        hint_city_orientations := city_orientations plan;
        warnings := dr_log lines |}.

Definition generate (self : SparseRailGen) (fuel : nat)
    (width height num_agents num_resets : Z)
    (np_random : option (rng_state R)) (global_draw : Z)
  : outcome RailGeneratorProduct :=
  np_random ← choose_np_random self np_random global_draw;
  let grid_map := new_grid_map width height in
  (* vector_field = np.zeros(shape=(height, width)) - 1. *)
  vector_field ← np_full height width (-1);
  (* Calculate the max number of cities allowed *)
  let max_feasible_cities := max_feasible_cities_of self width height in
  if max_feasible_cities <? 2 then Raise (ValueError infeasible_msg)
  else build_network self fuel width height np_random vector_field grid_map.

End Generate.

(** ** Determinism of [generate] *)

(** C1. With a seed in [self], the outcome of [generate] (the grid, the
    city positions, the train stations, the city orientations and the
    warnings, or the exception) is a function of [self], [width] and
    [height] alone: it depends neither on the [np_random] argument nor on
    the global numpy random state, and not on [num_agents] or [num_resets]
    either. Two calls with the same input give the same result. *)
Theorem generate_deterministic {R : RNG} {N : Numpy} {F : Flatland}
    (self : SparseRailGen) (fuel : nat) (width height : Z)
    (num_agents1 num_resets1 num_agents2 num_resets2 : Z)
    (np_random1 np_random2 : option (rng_state R))
    (global_draw1 global_draw2 : Z) (s : Z) :
  seed self = Some s ->
  generate self fuel width height num_agents1 num_resets1 np_random1 global_draw1
  = generate self fuel width height num_agents2 num_resets2 np_random2 global_draw2.
Proof.
  intros Hseed. unfold generate, choose_np_random. by rewrite Hseed.
Qed.

(** The scenario of the specification: a 40 x 40 grid, 4 cities, one pair
    of tracks per city, grid mode, seed 42. *)
Definition scenario : SparseRailGen :=
  {| max_num_cities := 4;
     grid_mode := true;
     max_rails_between_cities := 2;
     max_rail_pairs_in_city := 1;
     seed := Some 42 |}.

Lemma generate_deterministic_witness :
  seed scenario = Some 42
  /\ generate (R:=ScriptedRNG) (N:=ExactNumpy) (F:=SketchFlatland)
       scenario 1 40 40 4 0 None 7
     = generate (R:=ScriptedRNG) (N:=ExactNumpy) (F:=SketchFlatland)
         scenario 1 40 40 4 0 (Some ([1; 2; 3], [])) 99
  /\ hint_city_positions
       <$> generate (R:=ScriptedRNG) (N:=ExactNumpy) (F:=SketchFlatland)
             scenario 1 40 40 4 0 None 7
     = Ok [(5, 5); (35, 5); (5, 35); (35, 35)].
Proof.
  split; [reflexivity|]. split.
  - apply (generate_deterministic (R:=ScriptedRNG) (N:=ExactNumpy)
             (F:=SketchFlatland) scenario 1 40 40 4 0 4 0 None
             (Some ([1; 2; 3], [])) 7 99 42).
    reflexivity.
  - vm_compute. reflexivity.
Defined.

(** ** Which exceptions the stages after the feasibility check can raise *)

(** The outcome is not the exception [e]. *)
Definition never {A} (e : exn) (o : outcome A) : Prop := o <> Raise e.

Lemma never_Ok {A} (e : exn) (a : A) : never e (Ok a).
Proof. done. Qed.

Lemma never_OutOfFuel {A} (e : exn) : never e (@OutOfFuel A).
Proof. done. Qed.

Lemma never_Raise {A} (e e' : exn) : e' <> e -> never e (@Raise A e').
Proof. intros Hne [= Heq]. done. Qed.

Lemma never_bind {A B} (e : exn) (o : outcome A) (f : A -> outcome B) :
  never e o -> (forall a, never e (f a)) -> never e (o ≫= f).
Proof. intros Ho Hf. destruct o; osimpl; [apply Hf|by intros [= ->]|done]. Qed.

Lemma never_fmap {A B} (e : exn) (o : outcome A) (f : A -> B) :
  never e o -> never e (f <$> o).
Proof. intros Ho. destruct o; osimpl; [done|by intros [= ->]|done]. Qed.

Lemma never_for_fold {A S} (e : exn) (f : S -> A -> outcome S) (l : list A) (s : S) :
  (forall s x, never e (f s x)) -> never e (for_fold f l s).
Proof.
  intros Hf. revert s. induction l as [|x l IH]; intros s; cbn [for_fold].
  - done.
  - by apply never_bind.
Qed.

Lemma never_for_append {A B} (e : exn) (f : A -> outcome B) (l : list A) :
  (forall x, never e (f x)) -> never e (for_append f l).
Proof.
  intros Hf. induction l as [|x l IH]; cbn [for_append]; [done|].
  apply never_bind; [done|]. intros y. by apply never_bind.
Qed.

(** The exception of the feasibility check. *)
Definition infeasible : exn := ValueError infeasible_msg.

(** One step of the analysis of a stage: the monad's operations, the
    loops, and case distinctions. *)
Ltac never_step :=
  lazymatch goal with
  | |- never _ (Ok _) => apply never_Ok
  | |- never _ OutOfFuel => apply never_OutOfFuel
  | |- never _ (Raise _) =>
      apply never_Raise; let H := fresh in intros H; vm_compute in H; discriminate H
  | |- never _ (_ ≫= _) => apply never_bind; [|intros]
  | |- never _ (_ <$> _) => apply never_fmap
  | |- never _ (for_fold _ _ _) => apply never_for_fold; intros
  | |- never _ (for_append _ _) => apply never_for_append; intros
  | |- never _ (if ?b then _ else _) => destruct b
  | |- never _ (match ?x with _ => _ end) => destruct x
  | |- never _ (let _ := _ in _) => cbv zeta
  end.

Create HintDb never discriminated.

Ltac never_tac := repeat first [ solve [auto with never] | never_step ].

Lemma never_py_index {A} (l : list A) (i : Z) : never infeasible (py_index l i).
Proof. unfold py_index. never_tac. Qed.
#[export] Hint Resolve never_py_index : never.

Lemma never_read_local {A} (v : option A) : never infeasible (read_local v).
Proof. unfold read_local. never_tac. Qed.
#[export] Hint Resolve never_read_local : never.

Lemma never_randint {R : RNG} (np_random : rng_state R) (low high : Z) :
  never infeasible (randint np_random low high).
Proof. unfold randint. never_tac. Qed.
#[export] Hint Resolve never_randint : never.

Lemma never_np_axis_index (n i : Z) : never infeasible (np_axis_index n i).
Proof. unfold np_axis_index. never_tac. Qed.
#[export] Hint Resolve never_np_axis_index : never.

Lemma never_np_set (a : list Z) (i v : Z) : never infeasible (np_set a i v).
Proof. unfold np_set. never_tac. Qed.
#[export] Hint Resolve never_np_set : never.

Lemma never_np_set2d field cell v : never infeasible (np_set2d field cell v).
Proof. unfold np_set2d. never_tac. Qed.
#[export] Hint Resolve never_np_set2d : never.

Lemma never_np_get2d field cell : never infeasible (np_get2d field cell).
Proof. unfold np_get2d. never_tac. Qed.
#[export] Hint Resolve never_np_get2d : never.

Lemma never_py_set {A} (l : list A) (i : Z) (x : A) :
  never infeasible (py_set l i x).
Proof. unfold py_set. never_tac. Qed.
#[export] Hint Resolve never_py_set : never.

Lemma never_list_remove_first x l : never infeasible (list_remove_first x l).
Proof. induction l as [|y l IH]; cbn [list_remove_first]; never_tac. Qed.
#[export] Hint Resolve never_list_remove_first : never.

Lemma never_np_zeros height width : never infeasible (np_zeros height width).
Proof. unfold np_zeros. never_tac. Qed.
#[export] Hint Resolve never_np_zeros : never.

Lemma never_linspace {N : Numpy} start stop num :
  never infeasible (linspace start stop num).
Proof. unfold linspace. never_tac. Qed.
#[export] Hint Resolve never_linspace : never.

Lemma never_ceil_div a b : never infeasible (ceil_div a b).
Proof. unfold ceil_div. never_tac. Qed.
#[export] Hint Resolve never_ceil_div : never.

Lemma never_ceil_sqrt_scaled {N : Numpy} n h w :
  never infeasible (ceil_sqrt_scaled n h w).
Proof. unfold ceil_sqrt_scaled. never_tac. Qed.
#[export] Hint Resolve never_ceil_sqrt_scaled : never.

Section NeverInfeasible.
Context {R : RNG} {N : Numpy} {F : Flatland}.

Lemma never_place_loop n pad (st : placement (R:=R)) :
  never infeasible (place_loop n pad st).
Proof.
  revert st. induction n as [|n IH]; intros st; cbn [place_loop]; never_tac.
Qed.

Lemma never_generate_random_city_positions num_cities city_radius width height
    (np_random : rng_state R) log :
  never infeasible
    (_generate_random_city_positions num_cities city_radius width height
       np_random log).
Proof.
  unfold _generate_random_city_positions, place_random.
  never_tac. apply never_place_loop.
Qed.

Lemma never_generate_evenly_distr_city_positions num_cities city_radius
    width height :
  never infeasible
    (_generate_evenly_distr_city_positions num_cities city_radius width height).
Proof. unfold _generate_evenly_distr_city_positions. never_tac. Qed.

Lemma never_build_clique3 index_array index :
  never infeasible (build_clique3 index_array index).
Proof. unfold build_clique3. never_tac. Qed.

Lemma never_cliques_from sort_index idxs :
  never infeasible (cliques_from sort_index idxs).
Proof.
  induction idxs as [|i idxs IH]; cbn [cliques_from];
    repeat first [ apply never_build_clique3 | exact IH | never_step
                 | solve [auto with never] ].
Qed.

Lemma never_contains_cliques city_positions :
  never infeasible (contains_cliques city_positions).
Proof. unfold contains_cliques. cbv zeta. apply never_cliques_from. Qed.

Lemma never_replace_while_cliques fuel mfc city_radius width height
    city_positions (np_random : rng_state R) log :
  never infeasible
    (replace_while_cliques fuel mfc city_radius width height city_positions
       np_random log).
Proof.
  revert city_positions np_random log.
  induction fuel as [|fuel IH]; intros city_positions np_random log;
    cbn [replace_while_cliques]; [done|].
  apply never_bind; [apply never_contains_cliques|]. intros [|]; [|done].
  apply never_bind; [apply never_generate_random_city_positions|].
  intros [[ps rs] log']. apply IH.
Qed.

Lemma never_place_cities self fuel mfc city_radius width height
    (np_random : rng_state R) log :
  never infeasible
    (place_cities self fuel mfc city_radius width height np_random log).
Proof.
  unfold place_cities.
  apply never_bind.
  - destruct (grid_mode self).
    + apply never_bind; [apply never_generate_evenly_distr_city_positions|done].
    + apply never_bind; [apply never_generate_random_city_positions|].
      intros [[ps rs] log']. destruct (4 <? max_num_cities self); [|done].
      apply never_replace_while_cliques.
  - intros [[ps rs] log']. cbv zeta. destruct (len ps <? 2); [|done].
    apply never_bind; [apply never_generate_evenly_distr_city_positions|done].
Qed.

Lemma never_get_cells_in_city center radius city_orientation vector_field :
  never infeasible
    (_get_cells_in_city center radius city_orientation vector_field).
Proof. unfold _get_cells_in_city. never_tac. Qed.

Lemma never_connection_point city_position city_radius direction
    connection_slots inner_point_offset connection_idx :
  never infeasible
    (connection_point city_position city_radius direction connection_slots
       inner_point_offset connection_idx).
Proof. unfold connection_point. never_tac. Qed.

Lemma never_side_connection_points city_position city_radius cpd nr m
    start_idx direction :
  never infeasible
    (side_connection_points city_position city_radius cpd nr m start_idx
       direction).
Proof.
  unfold side_connection_points.
  repeat first [ apply never_connection_point | never_step
               | solve [auto with never] ].
Qed.

Lemma never_plan_city grid_mode city_positions city_radius rbc rp
    (plan : connection_plan (R:=R)) city_position :
  never infeasible
    (plan_city grid_mode city_positions city_radius rbc rp plan city_position).
Proof.
  unfold plan_city. cbv zeta.
  apply never_bind; [never_tac|]. intros [d rs].
  apply never_bind; [apply never_get_cells_in_city|]. intros [cells vf].
  apply never_bind; [never_tac|]. intros [draw rs'].
  apply never_bind; [never_tac|]. intros cpd.
  apply never_bind; [|done].
  apply never_for_append. intros. apply never_side_connection_points.
Qed.

Lemma never_generate_city_connection_points grid_mode city_positions
    city_radius vector_field rbc rp (np_random : rng_state R) :
  never infeasible
    (_generate_city_connection_points grid_mode city_positions city_radius
       vector_field rbc rp np_random).
Proof.
  unfold _generate_city_connection_points.
  apply never_for_fold. intros. apply never_plan_city.
Qed.

Lemma never_closest_neighbour current_city_idx city_positions :
  never infeasible
    (_closest_neighbour_in_grid4_directions current_city_idx city_positions).
Proof. unfold _closest_neighbour_in_grid4_directions. never_tac. Qed.

Lemma never_search_closest rank closest_neighb_idx out st :
  never infeasible (search_closest rank closest_neighb_idx out st).
Proof. unfold search_closest. never_tac. Qed.

Lemma never_append_connection st : never infeasible (append_connection st).
Proof. unfold append_connection. never_tac. Qed.

Lemma never_even_step rank city_positions current_city_idx city_position
    closest_neighb_idx out st :
  never infeasible
    (even_step rank city_positions current_city_idx city_position
       closest_neighb_idx out st).
Proof.
  unfold even_step.
  repeat first [ apply never_search_closest | never_step
               | solve [auto with never] ].
Qed.

Lemma never_odd_step city_cells out st d :
  never infeasible (odd_step city_cells out st d).
Proof.
  unfold odd_step.
  repeat first [ apply never_append_connection | never_step
               | solve [auto with never] ].
Qed.

Lemma never_connect_point rank city_positions city_cells current_city_idx
    city_position closest_neighb_idx s out :
  never infeasible
    (connect_point rank city_positions city_cells current_city_idx
       city_position closest_neighb_idx s out).
Proof.
  unfold connect_point. apply never_bind.
  - destruct (cs_i s.1 mod 2 =? 0).
    + apply never_bind; [apply never_even_step|done].
    + apply never_odd_step.
  - by intros [st d].
Qed.

Lemma never_side_pass rank city_positions connection_points city_cells
    current_city_idx city_position closest_neighb_idx out_direction s :
  never infeasible
    (side_pass rank city_positions connection_points city_cells
       current_city_idx city_position closest_neighb_idx out_direction s).
Proof.
  unfold side_pass. cbv zeta.
  apply never_bind; [auto with never|]. intros sides.
  apply never_bind; [auto with never|]. intros out_points.
  apply never_for_fold. intros. apply never_connect_point.
Qed.

Lemma never_out_directions city_positions connection_points current_city_idx
    city_position closest_neighb_idx :
  never infeasible
    (out_directions city_positions connection_points current_city_idx
       city_position closest_neighb_idx).
Proof. unfold out_directions. never_tac. Qed.

Lemma never_connect_city city_positions connection_points city_cells s
    current_city_idx :
  never infeasible
    (connect_city city_positions connection_points city_cells s
       current_city_idx).
Proof.
  unfold connect_city.
  apply never_bind; [apply never_closest_neighbour|]. intros _.
  apply never_bind; [auto with never|]. intros city_position. cbv zeta.
  apply never_bind; [apply never_out_directions|]. intros [d1 d2].
  apply never_bind; [apply never_side_pass|]. intros s'.
  destruct (negb (d1 =? d2)); [apply never_side_pass|done].
Qed.

Lemma never_connect_cities city_positions connection_points city_cells
    grid_map log :
  never infeasible
    (_connect_cities city_positions connection_points city_cells grid_map log).
Proof.
  unfold _connect_cities. apply never_fmap, never_for_fold.
  intros. apply never_connect_city.
Qed.

Lemma never_find_boarder sides idxs boarder :
  never infeasible (find_boarder sides idxs boarder).
Proof. induction idxs as [|i idxs IH]; cbn [find_boarder]; never_tac. Qed.

Lemma never_build_inner_city inner outer st current_city :
  never infeasible (build_inner_city inner outer st current_city).
Proof.
  unfold build_inner_city.
  repeat first [ apply never_find_boarder | never_step
               | solve [auto with never] ].
Qed.

Lemma never_build_inner_cities city_positions inner outer grid_map :
  never infeasible (_build_inner_cities city_positions inner outer grid_map).
Proof.
  unfold _build_inner_cities. apply never_bind; [|done].
  apply never_for_fold. intros. apply never_build_inner_city.
Qed.

Lemma never_set_trainstation_positions city_positions city_radius free_rails :
  never infeasible
    (_set_trainstation_positions city_positions city_radius free_rails).
Proof.
  unfold _set_trainstation_positions, station_on_track. never_tac.
Qed.

Lemma never_fix_transitions city_cells inter_city_lines grid_map vector_field
    height width :
  never infeasible
    (_fix_transitions city_cells inter_city_lines grid_map vector_field
       height width).
Proof. unfold _fix_transitions. never_tac. Qed.

Lemma never_build_network self fuel width height (np_random : rng_state R)
    vector_field grid_map :
  never infeasible
    (build_network self fuel width height np_random vector_field grid_map).
Proof.
  unfold build_network. cbv zeta.
  apply never_bind; [apply never_place_cities|]. intros [[ps rs] log].
  apply never_bind; [apply never_generate_city_connection_points|]. intros plan.
  apply never_bind; [apply never_connect_cities|]. intros lines.
  apply never_bind; [apply never_build_inner_cities|]. intros [rails grid].
  apply never_bind; [apply never_set_trainstation_positions|]. intros stations.
  apply never_bind; [apply never_fix_transitions|done].
Qed.

End NeverInfeasible.

(** ** The feasibility check of [generate] *)

(** C2. For non-negative grid dimensions and a random source that could be
    set up, [generate] raises the [ValueError] of the feasibility check
    exactly when
    [min(max_num_cities, ((height - 2) // (2 * (city_radius + 1)))
                         * ((width - 2) // (2 * (city_radius + 1)))) < 2],
    where [city_radius] is [max(1, max_rail_pairs_in_city) + 2]; an
    exception carries no map. Otherwise generation proceeds with the
    placement and the later stages, none of which raises this error. *)
Theorem generate_infeasible_iff {R : RNG} {N : Numpy} {F : Flatland}
    (self : SparseRailGen) (fuel : nat) (width height num_agents num_resets : Z)
    (np_random : option (rng_state R)) (global_draw : Z)
    (np_random' : rng_state R) :
  0 <= height -> 0 <= width ->
  choose_np_random self np_random global_draw = Ok np_random' ->
  let city_radius := city_radius_of self in
  let max_feasible_cities :=
    Z.min (max_num_cities self)
          (((height - 2) / (2 * (city_radius + 1)))
           * ((width - 2) / (2 * (city_radius + 1)))) in
  city_radius = Z.max 1 (max_rail_pairs_in_city self) + 2
  /\ (generate self fuel width height num_agents num_resets np_random global_draw
      = Raise (ValueError infeasible_msg)
      <-> max_feasible_cities < 2)
  /\ (2 <= max_feasible_cities ->
      generate self fuel width height num_agents num_resets np_random global_draw
      = build_network self fuel width height np_random'
          (replicate (Z.to_nat height) (replicate (Z.to_nat width) (-1)))
          (new_grid_map width height)).
Proof.
  intros Hh Hw Hrng city_radius max_feasible_cities.
  assert (Hgen :
    generate self fuel width height num_agents num_resets np_random global_draw
    = if max_feasible_cities <? 2 then Raise (ValueError infeasible_msg)
      else build_network self fuel width height np_random'
             (replicate (Z.to_nat height) (replicate (Z.to_nat width) (-1)))
             (new_grid_map width height)).
  { unfold generate. rewrite Hrng. osimpl. unfold np_full.
    destruct (Z.ltb_spec height 0); [lia|].
    destruct (Z.ltb_spec width 0); [lia|]. done. }
  split; [|split].
  - unfold city_radius, city_radius_of, rail_pairs_in_city_of.
    destruct (Z.ltb_spec (max_rail_pairs_in_city self) 1); lia.
  - rewrite Hgen. destruct (Z.ltb_spec max_feasible_cities 2) as [Hlt|Hge].
    + done.
    + split; [|lia]. intros Hraise.
      by apply (never_build_network self fuel width height np_random') in Hraise.
  - intros Hge. rewrite Hgen.
    destruct (Z.ltb_spec max_feasible_cities 2); [lia|done].
Qed.

(** The scenario on a 17 x 10 grid, where a single city of radius 3 fits. *)
Lemma generate_infeasible_iff_witness :
  0 <= 10 /\ 0 <= 17
  /\ choose_np_random (R:=ScriptedRNG) scenario None 0 = Ok (lcg_script 64 42, [])
  /\ generate (R:=ScriptedRNG) (N:=ExactNumpy) (F:=SketchFlatland)
       scenario 1 17 10 4 0 None 0
     = Raise (ValueError infeasible_msg).
Proof.
  split; [lia|]. split; [lia|]. split; [reflexivity|].
  destruct (generate_infeasible_iff (R:=ScriptedRNG) (N:=ExactNumpy)
              (F:=SketchFlatland) scenario 1 17 10 4 0 None 0
              (lcg_script 64 42, [])) as (_ & Hiff & _);
    [lia|lia|reflexivity|].
  apply Hiff. vm_compute. reflexivity.
Defined.

(** ** The clique retry loop of [generate] *)



(** Five cities requested on a 27 x 10 grid, where three fit: every
    placement of three cities is a clique for the detector, and with a
    random source that keeps drawing the first allowed cell the loop of
    [generate] never ends. *)
Definition crowded : SparseRailGen :=
  {| max_num_cities := 5;
     grid_mode := false;
     max_rails_between_cities := 2;
     max_rail_pairs_in_city := 1;
     seed := None |}.

Lemma crowded_loop (fuel : nat) :
  replace_while_cliques (R:=ScriptedRNG) (N:=ExactNumpy) fuel 3 3 27 10
    [(4, 4); (4, 13); (4, 22)] ([], []) []
  = OutOfFuel.
Proof.
  induction fuel as [|fuel IH]; [done|].
  cbn [replace_while_cliques].
  assert (Hc : contains_cliques (N:=ExactNumpy) [(4, 4); (4, 13); (4, 22)]
               = Ok true) by (vm_compute; reflexivity).
  assert (Hp : _generate_random_city_positions (R:=ScriptedRNG) 3 3 27 10
                 ([], []) []
               = Ok ([(4, 4); (4, 13); (4, 22)], ([], []), []))
    by (vm_compute; reflexivity).
  rewrite Hc. osimpl. rewrite Hp. osimpl. exact IH.
Qed.

Lemma generate_unfold {R : RNG} {N : Numpy} {F : Flatland}
    (self : SparseRailGen) (fuel : nat) (width height num_agents num_resets : Z)
    (np_random : option (rng_state R)) (global_draw : Z)
    (np_random' : rng_state R) :
  0 <= height -> 0 <= width ->
  choose_np_random self np_random global_draw = Ok np_random' ->
  generate self fuel width height num_agents num_resets np_random global_draw
  = if max_feasible_cities_of self width height <? 2
    then Raise (ValueError infeasible_msg)
    else build_network self fuel width height np_random'
           (replicate (Z.to_nat height) (replicate (Z.to_nat width) (-1)))
           (new_grid_map width height).
Proof.
  intros Hh Hw Hrng. unfold generate. rewrite Hrng. osimpl. unfold np_full.
  destruct (Z.ltb_spec height 0); [lia|].
  destruct (Z.ltb_spec width 0); [lia|]. done.
Qed.

(** C3, as stated, fails: an input and a random state for which no amount
    of fuel lets [generate] leave the placement loop. *)
Lemma generate_retries_unbounded :
  exists (self : SparseRailGen) (width height : Z)
         (np_random : rng_state ScriptedRNG),
    forall fuel,
      generate (R:=ScriptedRNG) (N:=ExactNumpy) (F:=SketchFlatland)
        self fuel width height 1 0 (Some np_random) 0
      = OutOfFuel.
Proof.
  exists crowded, 27, 10, ([], []). intros fuel.
  rewrite (generate_unfold (R:=ScriptedRNG) (N:=ExactNumpy)
             (F:=SketchFlatland) crowded fuel 27 10 1 0
             (Some (([], []) : rng_state ScriptedRNG)) 0 ([], []))
    by (done || lia).
  change (max_feasible_cities_of crowded 27 10 <? 2) with false.
  unfold build_network. cbv zeta.
  assert (Hplace :
    place_cities (R:=ScriptedRNG) (N:=ExactNumpy) crowded fuel
      (max_feasible_cities_of crowded 27 10) (city_radius_of crowded) 27 10
      ([], []) []
    = OutOfFuel).
  { unfold place_cities.
    change (grid_mode crowded) with false.
    change (4 <? max_num_cities crowded) with true.
    change (max_feasible_cities_of crowded 27 10) with 3.
    change (city_radius_of crowded) with 3.
    assert (Hp : _generate_random_city_positions (R:=ScriptedRNG) 3 3 27 10
                   ([], []) []
                 = Ok ([(4, 4); (4, 13); (4, 22)], ([], []), []))
      by (vm_compute; reflexivity).
    rewrite Hp. osimpl. by rewrite crowded_loop. }
  by rewrite Hplace.
Qed.

(** ** Fewer cities than requested in random mode *)

(** The warning log only grows while the connector runs. *)
Lemma for_fold_grows {A S} (P : S -> S -> Prop)
    (f : S -> A -> outcome S) (l : list A) (s s' : S) :
  Reflexive P -> Transitive P ->
  (forall s x s', f s x = Ok s' -> P s s') ->
  for_fold f l s = Ok s' -> P s s'.
Proof.
  intros Hrefl Htrans Hstep. revert s.
  induction l as [|x l IH]; intros s Hrun; cbn [for_fold] in Hrun.
  - injection Hrun as <-. reflexivity.
  - destruct (f s x) as [s1| |] eqn:Hf; osimpl in Hrun; [|done..].
    etrans; [by eapply Hstep|by apply IH].
Qed.

Section ConnectorLog.
Context {N : Numpy} {F : Flatland}.

(** The relation that the steps of the connector keep. *)
Definition log_grows (s s' : connect_locals * drawing) : Prop :=
  dr_log s.2 `prefix_of` dr_log s'.2.

#[local] Instance log_grows_refl : Reflexive log_grows.
Proof. intros s. unfold log_grows. reflexivity. Qed.

#[local] Instance log_grows_trans : Transitive log_grows.
Proof. intros s1 s2 s3. unfold log_grows. apply transitivity. Qed.

Lemma draw_line_log (city_cells : list (Z * Z)) (start end_ : Z * Z)
    (d : drawing) :
  dr_log d `prefix_of` dr_log (draw_line city_cells start end_ d).
Proof.
  unfold draw_line.
  destruct (connect_rail_in_grid_map _ _ _ _) as [new_line grid].
  cbn [dr_log]. by apply prefix_app_r.
Qed.

Lemma odd_step_log (city_cells : list (Z * Z)) (point : Z * Z)
    (st st' : connect_locals) (d d' : drawing) :
  odd_step city_cells point st d = Ok (st', d') ->
  dr_log d `prefix_of` dr_log d'.
Proof.
  unfold odd_step. intros Hrun.
  destruct (read_local (city_direction st)) as [city_dir| |];
    osimpl in Hrun; [|done..].
  destruct (read_local (neighbour_connection_point st)) as [p| |];
    osimpl in Hrun; [|done..].
  destruct (read_local (last_city_out_connection_point st)) as [last_out| |];
    osimpl in Hrun; [|done..].
  destruct (tracks_cross city_dir p last_out).
  - destruct (read_local (next_neighbour_connection_point st)) as [q| |];
      osimpl in Hrun; [|done..].
    destruct (append_connection st) as [st1| |]; osimpl in Hrun; [|done..].
    injection Hrun as _ <-.
    etrans; [|apply draw_line_log]. apply draw_line_log.
  - destruct (append_connection st) as [st1| |]; osimpl in Hrun; [|done..].
    destruct (read_local (next_neighbour_connection_point st1)) as [q| |];
      osimpl in Hrun; [|done..].
    injection Hrun as _ <-.
    etrans; [|apply draw_line_log]. apply draw_line_log.
Qed.

Lemma connect_point_log (rank : Z) (city_positions city_cells : list (Z * Z))
    (idx : Z) (city_position : Z * Z) (closest : list Z)
    (s : connect_locals * drawing) (point : Z * Z)
    (s' : connect_locals * drawing) :
  connect_point rank city_positions city_cells idx city_position closest s point
    = Ok s' ->
  log_grows s s'.
Proof.
  unfold connect_point, log_grows. intros Hrun.
  destruct (cs_i s.1 mod 2 =? 0).
  - destruct (even_step _ _ _ _ _ _ _) as [st| |]; osimpl in Hrun; [|done..].
    by injection Hrun as <-.
  - destruct (odd_step city_cells point s.1 s.2) as [[st d]| |] eqn:Hodd;
      osimpl in Hrun; [|done..].
    injection Hrun as <-. cbn [snd]. by eapply odd_step_log.
Qed.

Lemma side_pass_log (rank : Z) (city_positions : list (Z * Z))
    (connection_points : list (list (list (Z * Z))))
    (city_cells : list (Z * Z)) (idx : Z) (city_position : Z * Z)
    (closest : list Z) (out_direction : Z)
    (s s' : connect_locals * drawing) :
  side_pass rank city_positions connection_points city_cells idx city_position
    closest out_direction s = Ok s' ->
  log_grows s s'.
Proof.
  unfold side_pass. intros Hrun.
  destruct (py_index connection_points idx) as [sides| |];
    osimpl in Hrun; [|done..].
  destruct (py_index sides out_direction) as [out_points| |];
    osimpl in Hrun; [|done..].
  apply (for_fold_grows log_grows) in Hrun; [exact Hrun|apply _..|].
  intros ???. apply connect_point_log.
Qed.

Lemma connect_city_log (city_positions : list (Z * Z))
    (connection_points : list (list (list (Z * Z))))
    (city_cells : list (Z * Z)) (s : connect_locals * drawing) (idx : Z)
    (s' : connect_locals * drawing) :
  connect_city city_positions connection_points city_cells s idx = Ok s' ->
  log_grows s s'.
Proof.
  unfold connect_city. intros Hrun.
  destruct (_closest_neighbour_in_grid4_directions idx city_positions)
    as [unused| |]; osimpl in Hrun; [|done..].
  destruct (py_index city_positions idx) as [city_position| |];
    osimpl in Hrun; [|done..].
  destruct (out_directions _ _ _ _ _) as [[d1 d2]| |]; osimpl in Hrun; [|done..].
  destruct (side_pass 1 _ _ _ _ _ _ _ _) as [s1| |] eqn:Hfirst;
    osimpl in Hrun; [|done..].
  apply side_pass_log in Hfirst.
  destruct (negb (d1 =? d2)).
  - apply side_pass_log in Hrun. by etrans.
  - by injection Hrun as <-.
Qed.

Lemma connect_cities_log (city_positions : list (Z * Z))
    (connection_points : list (list (list (Z * Z))))
    (city_cells : list (Z * Z)) (grid : GridTransitionMap)
    (log : list warning) (lines : drawing) :
  _connect_cities city_positions connection_points city_cells grid log
    = Ok lines ->
  log `prefix_of` dr_log lines.
Proof.
  unfold _connect_cities. intros Hrun.
  destruct (for_fold _ _ _) as [[st d]| |] eqn:Hfold; osimpl in Hrun; [|done..].
  injection Hrun as <-.
  apply (for_fold_grows log_grows) in Hfold; [exact Hfold|apply _..|].
  intros ???. apply connect_city_log.
Qed.

End ConnectorLog.

Section Shortfall.
Context {R : RNG} {N : Numpy} {F : Flatland}.

(** [positions] with [log] is what a run of the random placement for
    [num_cities] cities leaves: the cities it placed, a mask with no allowed
    cell left when they are fewer than [num_cities], and in that case its
    warning in the log. *)
Definition random_placement_of (num_cities city_radius width height : Z)
    (positions : list (Z * Z)) (log : list warning) : Prop :=
  exists (np_random : rng_state R) (st : placement),
    place_random num_cities city_radius width height np_random = Ok st
    /\ st_city_positions st = positions
    /\ len positions <= num_cities
    /\ (len positions < num_cities ->
        np_where (st_allowed_grid st) = []
        /\ CouldNotSetAllCities (len positions) num_cities ∈ log).

Lemma random_positions_placement (num_cities city_radius width height : Z)
    (np_random np_random' : rng_state R) (log log' : list warning)
    (positions : list (Z * Z)) :
  0 <= num_cities ->
  _generate_random_city_positions num_cities city_radius width height
    np_random log = Ok (positions, np_random', log') ->
  random_placement_of num_cities city_radius width height positions log'
  /\ log `prefix_of` log'.
Proof.
  intros Hnum. unfold _generate_random_city_positions. intros Hrun.
  destruct (place_random num_cities city_radius width height np_random)
    as [st| |] eqn:Hplace; osimpl in Hrun; [|done..].
  injection Hrun as <- _ <-.
  assert (Hlen : (length (st_city_positions st) <= Z.to_nat num_cities)%nat
                 /\ ((length (st_city_positions st) < Z.to_nat num_cities)%nat ->
                     np_where (st_allowed_grid st) = [])).
  { unfold place_random in Hplace.
    destruct (np_zeros height width) as [grid| |]; osimpl in Hplace; [|done..].
    apply place_loop_prefix in Hplace as (_ & Hle & Hlt).
    cbn [st_city_positions length] in *. split; [lia|intros; apply Hlt; lia]. }
  destruct Hlen as [Hle Hlt]. unfold len in *. split.
  - exists np_random, st. unfold len. split; [done|]. split; [done|].
    split; [lia|]. intros Hshort. split; [apply Hlt; lia|].
    destruct (Z.ltb_spec (Z.of_nat (length (st_city_positions st))) num_cities);
      [|lia].
    apply elem_of_app. right. by apply list_elem_of_singleton.
  - destruct (_ <? _); [by apply prefix_app_r|done].
Qed.

Lemma replace_while_cliques_placement (fuel : nat)
    (num_cities city_radius width height : Z)
    (positions positions' : list (Z * Z)) (np_random np_random' : rng_state R)
    (log log' : list warning) :
  0 <= num_cities ->
  random_placement_of num_cities city_radius width height positions log ->
  replace_while_cliques fuel num_cities city_radius width height positions
    np_random log = Ok (positions', np_random', log') ->
  random_placement_of num_cities city_radius width height positions' log'.
Proof.
  intros Hnum. revert positions np_random log.
  induction fuel as [|fuel IH]; intros positions np_random log Hinv Hrun;
    [done|].
  cbn [replace_while_cliques] in Hrun.
  destruct (contains_cliques positions) as [[|]| |]; osimpl in Hrun; [| |done..].
  - destruct (_generate_random_city_positions num_cities city_radius width
                height np_random log) as [[[ps rs] lg]| |] eqn:Hredo;
      osimpl in Hrun; [|done..].
    apply random_positions_placement in Hredo as [Hredo _]; [|done].
    by eapply IH.
  - by injection Hrun as <- _ <-.
Qed.


End Shortfall.

(** Four cities requested on a 25 x 25 grid: the first city, in the middle,
    leaves no allowed cell. *)
Definition sparse4 : SparseRailGen :=
  {| max_num_cities := 4;
     grid_mode := false;
     max_rails_between_cities := 2;
     max_rail_pairs_in_city := 1;
     seed := None |}.

Definition middle_first : rng_state ScriptedRNG := ([144], []).

Definition placement_summary {F : Flatland} (product : RailGeneratorProduct)
  : list (Z * Z) * list warning :=
  (hint_city_positions product, warnings product).

Lemma sparse4_run :
  exists product,
    generate (R:=ScriptedRNG) (N:=ExactNumpy) (F:=SketchFlatland) sparse4 0
      25 25 1 0 (Some middle_first) 0 = Ok product
    /\ placement_summary product
       = ([(5, 5); (20, 5); (5, 20); (20, 20)],
          [CouldNotSetAllCities 1 4; ChangingToGridMode]).
Proof.
  assert (Hsum : placement_summary
                   <$> generate (R:=ScriptedRNG) (N:=ExactNumpy)
                         (F:=SketchFlatland) sparse4 0 25 25 1 0
                         (Some middle_first) 0
                 = Ok ([(5, 5); (20, 5); (5, 20); (20, 20)],
                       [CouldNotSetAllCities 1 4; ChangingToGridMode]))
    by (vm_compute; reflexivity).
  destruct (generate _ _ _ _ _ _ _ _) as [product| |]; [|discriminate Hsum..].
  exists product. split; [reflexivity|]. osimpl in Hsum. congruence.
Qed.

(** C9, as stated, fails: the random placement put one city, [(12, 12)],
    and [generate] returned four other cities, those of the grid
    placement. *)
Lemma shortfall_list_replaced :
  _generate_random_city_positions (R:=ScriptedRNG) 4 3 25 25 middle_first []
  = Ok ([(12, 12)], ([], []), [CouldNotSetAllCities 1 4])
  /\ exists product,
       generate (R:=ScriptedRNG) (N:=ExactNumpy) (F:=SketchFlatland) sparse4 0
         25 25 1 0 (Some middle_first) 0 = Ok product
       /\ hint_city_positions product = [(5, 5); (20, 5); (5, 20); (20, 20)]
       /\ warnings product = [CouldNotSetAllCities 1 4; ChangingToGridMode].
Proof.
  split; [vm_compute; reflexivity|].
  destruct sparse4_run as (product & Hrun & Hsum).
  exists product. split; [exact Hrun|].
  split; [exact (f_equal fst Hsum)|exact (f_equal snd Hsum)].
Qed.


(** * Further properties of the generator

    ** The random placement: where the cities lie *)

Section RandomPlacementInterior.
Context {R : RNG}.

(** The loop only adds cells that are allowed when it draws them. *)
Lemma place_loop_cells (P : Z * Z -> Prop) (n : nat) (pad : Z)
    (st st' : placement (R:=R)) :
  place_loop n pad st = Ok st' ->
  (forall cell, cell ∈ np_where (st_allowed_grid st) -> P cell) ->
  (forall p, p ∈ st_city_positions st -> P p) ->
  forall p, p ∈ st_city_positions st' -> P p.
Proof.
  revert st. induction n as [|n IH]; intros st Hrun Hmask Hcities.
  { cbn in Hrun. by injection Hrun as <-. }
  destruct (decide (np_where (st_allowed_grid st) = [])) as [Hnil|Hne].
  { rewrite place_loop_exhausted in Hrun by done. by injection Hrun as <-. }
  destruct (place_loop_step n pad st Hne) as (row & col & rs & Hcell & Hstep).
  rewrite Hstep in Hrun. apply (IH _ Hrun); cbn.
  - intros [r c] Hin. apply np_where_assign_false in Hin as [Hin _]. auto.
  - intros p [Hp|Hp%list_elem_of_singleton]%elem_of_app; [auto|].
    subst p. auto.
Qed.

(** The mask before the first draw: the 1-cells are the cells at least
    [pad] away from every edge. *)
Lemma initial_mask_cells (height width pad r c : Z) :
  0 < pad -> 0 <= height -> 0 <= width ->
  (r, c) ∈ np_where
             (np_assign_block
                (replicate (Z.to_nat height) (replicate (Z.to_nat width) false))
                pad (- pad) pad (- pad) true)
  <-> pad <= r < height - pad /\ pad <= c < width - pad.
Proof.
  intros Hpad Hh Hw. rewrite elem_of_np_where. unfold np_assign_block.
  assert (Hslice : forall n i, 0 <= n -> 0 <= i < n ->
            in_slice n pad (- pad) i = true <-> pad <= i < n - pad).
  { intros n i Hn Hi. unfold in_slice, slice_bound.
    destruct (Z.ltb_spec pad 0); [lia|].
    destruct (Z.ltb_spec (- pad) 0); [|lia].
    rewrite andb_true_iff, Z.leb_le, Z.ltb_lt. lia. }
  split.
  - intros (i & j & row & -> & -> & Hrow & Hj).
    rewrite list_lookup_imap in Hrow.
    destruct (replicate _ _ !! i) as [row0|] eqn:Hrow0; [|done].
    apply lookup_replicate in Hrow0 as [-> Hi].
    cbn in Hrow. unfold len in Hrow. rewrite !length_replicate in Hrow.
    rewrite !Z2Nat.id in Hrow by done.
    destruct (in_slice height pad (- pad) (Z.of_nat i)) eqn:Hrs.
    + injection Hrow as <-. rewrite list_lookup_imap in Hj.
      destruct (replicate _ _ !! j) as [x|] eqn:Hx; [|done].
      apply lookup_replicate in Hx as [-> Hjlt]. cbn in Hj.
      destruct (in_slice width pad (- pad) (Z.of_nat j)) eqn:Hcs; [|done].
      apply Hslice in Hrs; [|lia..]. apply Hslice in Hcs; [|lia..]. lia.
    + injection Hrow as <-. by apply lookup_replicate in Hj as [? _].
  - intros [Hr Hc].
    exists (Z.to_nat r), (Z.to_nat c),
      (imap (fun j x => if in_slice width pad (- pad) (Z.of_nat j)
                        then true else x)
            (replicate (Z.to_nat width) false)).
    split; [lia|]. split; [lia|]. split.
    + rewrite list_lookup_imap.
      rewrite (proj2 (lookup_replicate _ _ _ _)) by (split; [done|lia]).
      cbn. unfold len. rewrite !length_replicate, !Z2Nat.id by lia.
      by rewrite (proj2 (Hslice height r Hh ltac:(lia))) by lia.
    + rewrite list_lookup_imap.
      rewrite (proj2 (lookup_replicate _ _ _ _)) by (split; [done|lia]).
      cbn. rewrite Z2Nat.id by lia.
      by rewrite (proj2 (Hslice width c Hw ltac:(lia))) by lia.
Qed.

(** The cities of a placement state lie in the interior. *)
Lemma place_random_inside (num_cities city_radius width height : Z)
    (np_random : rng_state R) (st : placement) :
  0 <= city_radius ->
  place_random num_cities city_radius width height np_random = Ok st ->
  forall row col, (row, col) ∈ st_city_positions st ->
    city_radius + 1 <= row < height - (city_radius + 1)
    /\ city_radius + 1 <= col < width - (city_radius + 1).
Proof.
  intros Hr. unfold place_random, np_zeros.
  destruct (Z.ltb_spec height 0); [done|].
  destruct (Z.ltb_spec width 0); [done|]. cbn [orb]. osimpl.
  intros Hloop row col Hin.
  change ((fun p => city_radius + 1 <= p.1 < height - (city_radius + 1)
                     /\ city_radius + 1 <= p.2 < width - (city_radius + 1))
            (row, col)).
  eapply place_loop_cells; [exact Hloop| | |exact Hin];
    cbn [st_allowed_grid st_city_positions].
  - intros [r c] Hcell. by apply initial_mask_cells in Hcell; [|lia..].
  - intros p Hp. by apply elem_of_nil in Hp.
Qed.

(** X1. Every city center that the random placement returns lies in the
    interior of the grid: at least [city_radius + 1] cells away from each of
    the four edges. *)
Theorem random_cities_inside_interior
    (num_cities city_radius width height : Z) (np_random np_random' : rng_state R)
    (log log' : list warning) (positions : list (Z * Z)) :
  0 <= city_radius ->
  _generate_random_city_positions num_cities city_radius width height
    np_random log = Ok (positions, np_random', log') ->
  forall row col, (row, col) ∈ positions ->
    city_radius + 1 <= row < height - (city_radius + 1)
    /\ city_radius + 1 <= col < width - (city_radius + 1).
Proof.
  intros Hr. unfold _generate_random_city_positions.
  destruct (place_random _ _ _ _ _) as [st| |] eqn:Hst; osimpl; [|done..].
  intros [= <- _ _]. by eapply place_random_inside.
Qed.

(** With an interior cell and a city to place, the first draw places one. *)
Lemma place_random_some_city (num_cities city_radius width height : Z)
    (np_random : rng_state R) (st : placement) :
  0 < num_cities -> 0 <= city_radius ->
  2 * (city_radius + 1) < height -> 2 * (city_radius + 1) < width ->
  place_random num_cities city_radius width height np_random = Ok st ->
  st_city_positions st <> [].
Proof.
  intros Hnum Hr Hh Hw. unfold place_random, np_zeros.
  destruct (Z.ltb_spec height 0); [lia|].
  destruct (Z.ltb_spec width 0); [lia|]. cbn [orb]. osimpl.
  set (mask := np_assign_block _ _ _ _ _ _).
  set (st0 := {| st_city_positions := []; st_allowed_grid := mask;
                 st_np_random := np_random |}).
  intros Hloop Hnil.
  assert (Hcell : (city_radius + 1, city_radius + 1) ∈ np_where mask).
  { apply initial_mask_cells; lia. }
  assert (Hne : np_where (st_allowed_grid st0) <> []).
  { change (st_allowed_grid st0) with mask. intros Hempty.
    rewrite Hempty in Hcell. by apply elem_of_nil in Hcell. }
  destruct (Z.to_nat num_cities) as [|n] eqn:Hn; [lia|].
  destruct (place_loop_step n (city_radius + 1) st0 Hne)
    as (row & col & rs & _ & Hstep).
  rewrite Hstep in Hloop.
  apply place_loop_prefix in Hloop as [[rest Hpre] _].
  cbn [st_city_positions] in Hpre. rewrite Hnil in Hpre. done.
Qed.

(** X2. For a positive number of requested cities, the random placement
    returns no city exactly when the grid has no interior cell, that is when
    [height] or [width] is at most [2 * (city_radius + 1)]. *)
Theorem random_placement_empty_iff
    (num_cities city_radius width height : Z) (np_random np_random' : rng_state R)
    (log log' : list warning) (positions : list (Z * Z)) :
  0 < num_cities -> 0 <= city_radius ->
  _generate_random_city_positions num_cities city_radius width height
    np_random log = Ok (positions, np_random', log') ->
  positions = []
  <-> height <= 2 * (city_radius + 1) \/ width <= 2 * (city_radius + 1).
Proof.
  intros Hnum Hr Hrun. split.
  - intros ->.
    destruct (Z.le_gt_cases height (2 * (city_radius + 1))) as [|Hh]; [by left|].
    destruct (Z.le_gt_cases width (2 * (city_radius + 1))) as [|Hw]; [by right|].
    unfold _generate_random_city_positions in Hrun.
    destruct (place_random _ _ _ _ _) as [st| |] eqn:Hst; osimpl in Hrun;
      [|done..].
    injection Hrun as Hnil _ _.
    by apply place_random_some_city in Hst.
  - intros Hsmall.
    destruct positions as [|[row col] rest]; [done|].
    unfold _generate_random_city_positions in Hrun.
    destruct (place_random _ _ _ _ _) as [st| |] eqn:Hst; osimpl in Hrun;
      [|done..].
    injection Hrun as Hps _ _.
    assert (Hin : (row, col) ∈ st_city_positions st) by (rewrite Hps; left).
    apply (place_random_inside _ _ _ _ _ _ Hr Hst) in Hin. lia.
Qed.

(** X3. Any two cities that the random placement returns differ in their
    row or in their column by at least [2 * (city_radius + 1) + 1]: the
    blocked square around a city has half-width [2 * (city_radius + 1)]. *)
Theorem random_cities_padded_separation
    (num_cities city_radius width height : Z) (np_random np_random' : rng_state R)
    (log log' : list warning) (positions : list (Z * Z)) :
  0 <= city_radius ->
  _generate_random_city_positions num_cities city_radius width height
    np_random log = Ok (positions, np_random', log') ->
  pairwise_separated (2 * (city_radius + 1) + 1) positions.
Proof.
  intros Hr. unfold _generate_random_city_positions, place_random.
  destruct (np_zeros height width) as [grid| |]; osimpl; [|done..].
  destruct (place_loop _ _ _) as [st| |] eqn:Hloop; osimpl; [|done..].
  intros [= <- _ _].
  eapply place_loop_separated; [|exact Hloop|..]; [lia|..]; cbn.
  - by intros i j p q _ ?.
  - intros p cell Hp. by apply elem_of_nil in Hp.
Qed.

End RandomPlacementInterior.

(** Three cities of radius 3 on a 40 x 40 grid. *)
Lemma random_cities_inside_interior_witness :
  0 <= 3
  /\ _generate_random_city_positions (R:=ScriptedRNG) 3 3 40 40
       ([100; 300; 7], []) []
     = Ok ([(7, 8); (18, 12); (4, 24)], ([], []), [])
  /\ (3 + 1 <= 18 < 40 - (3 + 1) /\ 3 + 1 <= 12 < 40 - (3 + 1)).
Proof.
  split; [lia|]. split; [vm_compute; reflexivity|].
  apply (random_cities_inside_interior (R:=ScriptedRNG) 3 3 40 40
           ([100; 300; 7], []) ([], []) [] []
           [(7, 8); (18, 12); (4, 24)]); [lia|vm_compute; reflexivity|].
  apply list_elem_of_further, list_elem_of_here.
Defined.

(** A grid that is too narrow for a city of radius 3, and one with room. *)
Lemma random_placement_empty_iff_witness :
  (([] : list (Z * Z)) = [] <-> 20 <= 2 * (3 + 1) \/ 8 <= 2 * (3 + 1))
  /\ ([(4, 4)] = [] <-> 9 <= 2 * (3 + 1) \/ 9 <= 2 * (3 + 1)).
Proof.
  split.
  - apply (random_placement_empty_iff (R:=ScriptedRNG) 2 3 8 20
             ([], []) ([], []) [] [CouldNotSetAllCities 0 2] []);
      [lia|lia|vm_compute; reflexivity].
  - apply (random_placement_empty_iff (R:=ScriptedRNG) 2 3 9 9
             ([], []) ([], []) [] [CouldNotSetAllCities 1 2] [(4, 4)]);
      [lia|lia|vm_compute; reflexivity].
Defined.

Lemma random_cities_padded_separation_witness :
  _generate_random_city_positions (R:=ScriptedRNG) 3 3 40 40
    ([100; 300; 7], []) []
  = Ok ([(7, 8); (18, 12); (4, 24)], ([], []), [])
  /\ pairwise_separated (2 * (3 + 1) + 1) [(7, 8); (18, 12); (4, 24)].
Proof.
  split; [vm_compute; reflexivity|].
  apply (random_cities_padded_separation (R:=ScriptedRNG) 3 3 40 40
           ([100; 300; 7], []) ([], []) [] []
           [(7, 8); (18, 12); (4, 24)]); [lia|vm_compute; reflexivity].
Defined.

(** ** [_are_cities_overlapping] *)

(** [np.abs(center_1[0] - center_2[0]) < radius and
     np.abs(center_1[1] - center_2[1]) < radius]. *)
Definition _are_cities_overlapping (center_1 center_2 : Z * Z) (radius : Z)
  : bool :=
  (Z.abs (center_1.1 - center_2.1) <? radius)
  && (Z.abs (center_1.2 - center_2.2) <? radius).

Lemma are_cities_overlapping_chebyshev (center_1 center_2 : Z * Z) (radius : Z) :
  _are_cities_overlapping center_1 center_2 radius = true
  <-> chebyshev center_1 center_2 < radius.
Proof.
  unfold _are_cities_overlapping, chebyshev.
  rewrite andb_true_iff, !Z.ltb_lt. lia.
Qed.

(** X4. The overlap test agrees with the placement: for two cities at
    distinct indexes of a list returned by the random placement or by the
    evenly spaced grid placement, [_are_cities_overlapping] is [False] for
    every radius up to [2 * city_radius + 1], the side of a city square, and
    so in particular for [city_radius] itself. The test does not depend on
    the order of its two centers. *)
Theorem placed_cities_not_overlapping {R : RNG} {N : Numpy}
    (num_cities city_radius width height : Z) (np_random np_random' : rng_state R)
    (log log' : list warning) (positions : list (Z * Z)) :
  _generate_random_city_positions num_cities city_radius width height
    np_random log = Ok (positions, np_random', log')
  \/ _generate_evenly_distr_city_positions num_cities city_radius width height
     = Ok positions ->
  forall (i j : nat) (p q : Z * Z) (radius : Z),
    i <> j -> positions !! i = Some p -> positions !! j = Some q ->
    radius <= 2 * city_radius + 1 ->
    _are_cities_overlapping p q radius = false
    /\ _are_cities_overlapping q p radius = false.
Proof.
  intros Hplaced i j p q radius Hij Hp Hq Hradius.
  assert (Hsep : pairwise_separated (2 * city_radius + 1) positions).
  { destruct Hplaced as [Hrandom|Hgrid].
    - unfold _generate_random_city_positions in Hrandom.
      destruct (place_random _ _ _ _ _) as [st| |] eqn:Hst;
        osimpl in Hrandom; [|done..].
      injection Hrandom as <- _ _. by eapply place_random_separated.
    - by eapply evenly_distr_separated. }
  specialize (Hsep i j p q Hij Hp Hq).
  split; apply not_true_iff_false; rewrite are_cities_overlapping_chebyshev;
    [|rewrite chebyshev_sym]; lia.
Qed.

Lemma placed_cities_not_overlapping_witness :
  _are_cities_overlapping (7, 8) (18, 12) 7 = false
  /\ _are_cities_overlapping (18, 12) (7, 8) 7 = false.
Proof.
  apply (placed_cities_not_overlapping (R:=ScriptedRNG) (N:=ExactNumpy)
           3 3 40 40 ([100; 300; 7], []) ([], []) [] []
           [(7, 8); (18, 12); (4, 24)]
           (or_introl eq_refl) 0%nat 1%nat (7, 8) (18, 12) 7);
    [lia|reflexivity|reflexivity|lia].
Defined.

(** ** The static method [argsort] *)

(** The order of the result: by key, and by index among equal keys. *)
Definition key_index_lt (key : nat -> Z) (a b : nat) : Prop :=
  key a < key b \/ (key a = key b /\ (a < b)%nat).

Lemma insert_by_key_ordered (key : nat -> Z) (i : nat) (l : list nat) :
  (forall j, j ∈ l -> (i < j)%nat) ->
  (forall (m n : nat) a b, (m < n)%nat -> l !! m = Some a -> l !! n = Some b ->
     key_index_lt key a b) ->
  forall (m n : nat) a b, (m < n)%nat ->
    insert_by_key key i l !! m = Some a ->
    insert_by_key key i l !! n = Some b ->
    key_index_lt key a b.
Proof.
  induction l as [|j l IH]; intros Hnew Hord m n a b Hmn Ha Hb.
  { destruct n as [|n]; [lia|]. cbn in Hb. done. }
  cbn [insert_by_key] in Ha, Hb.
  assert (Hij : (i < j)%nat) by (apply Hnew; left).
  assert (Htail : forall (n' : nat) b', l !! n' = Some b' -> key_index_lt key j b').
  { intros n' b' Hb'. apply (Hord 0%nat (S n') j b'); [lia|done..]. }
  destruct (Z.leb_spec (key i) (key j)) as [Hle|Hgt].
  - destruct m as [|m]; destruct n as [|n]; try lia.
    + cbn in Ha, Hb. injection Ha as <-.
      assert (Hjb : b = j \/ key_index_lt key j b).
      { destruct n; cbn in Hb; [left; congruence|right; by eapply Htail]. }
      destruct Hjb as [->|[Hlt|[Heq Hlt]]]; unfold key_index_lt; lia.
    + cbn in Ha, Hb. eapply (Hord m n); [lia|done..].
  - destruct m as [|m]; destruct n as [|n]; try lia.
    + cbn in Ha, Hb. injection Ha as <-.
      assert (Hin : b ∈ insert_by_key key i l)
        by (by eapply list_elem_of_lookup_2).
      rewrite insert_by_key_perm in Hin.
      apply elem_of_cons in Hin as [->|Hin].
      * left. lia.
      * apply list_elem_of_lookup in Hin as [n' Hn']. by eapply Htail.
    + cbn in Ha, Hb. eapply (IH _ _ m n); [lia|done..].
      Unshelve.
      * intros j' Hj'. apply Hnew. by right.
      * intros m' n' a' b' Hlt Ha' Hb'.
        apply (Hord (S m') (S n') a' b'); [lia|done..].
Qed.

(** X5. [argsort(seq)] is a stable sort of the indexes of [seq]: it returns
    every index exactly once, in the order of the values, and two indexes
    with the same value stay in increasing order. *)
Theorem argsort_stable (seq_ : list Z) :
  argsort seq_ ≡ₚ seq 0 (length seq_)
  /\ forall (m n : nat) a b, (m < n)%nat ->
       argsort seq_ !! m = Some a -> argsort seq_ !! n = Some b ->
       key_index_lt (fun i => default 0 (seq_ !! i)) a b.
Proof.
  split; [apply argsort_perm|].
  unfold argsort. generalize (fun i => default 0 (seq_ !! i)) as key.
  intros key. generalize 0%nat as start.
  induction (length seq_) as [|len IH]; intros start; cbn [seq foldr].
  { intros m n a b _ Ha. done. }
  apply insert_by_key_ordered; [|apply IH].
  intros j Hj.
  assert (Hperm : foldr (insert_by_key key) [] (seq (S start) len)
                  ≡ₚ seq (S start) len).
  { generalize (seq (S start) len) as idxs.
    induction idxs as [|k idxs IHk]; cbn; [done|].
    by rewrite insert_by_key_perm, IHk. }
  rewrite Hperm in Hj. apply elem_of_seq in Hj. lia.
Qed.

(** ** [contains_cliques] on few cities *)

Section CliqueDetectorSmall.
Context {N : Numpy}.

(** The rows of [sort_index] are permutations of the city indexes. *)
Lemma sort_index_rows (city_positions : list (Z * Z)) (k : nat) (row : list nat) :
  ((fun l => np_argsort l)
     <$> ((fun a => get_manhattan_distance a <$> city_positions)
            <$> city_positions)) !! k = Some row ->
  row ≡ₚ seq 0 (length city_positions).
Proof.
  rewrite !list_lookup_fmap.
  destruct (city_positions !! k) as [a|]; [|done]. cbn. intros [= <-].
  rewrite np_argsort_perm. by rewrite length_fmap.
Qed.

Lemma sort_index_length (city_positions : list (Z * Z)) :
  length ((fun l => np_argsort l)
            <$> ((fun a => get_manhattan_distance a <$> city_positions)
                   <$> city_positions))
  = length city_positions.
Proof. by rewrite !length_fmap. Qed.

Lemma contains_cliques_short (city_positions : list (Z * Z)) :
  (length city_positions < 3)%nat ->
  contains_cliques city_positions
  = if bool_decide (city_positions = []) then Ok false else Raise IndexError.
Proof.
  intros Hlen. unfold contains_cliques.
  pose proof (sort_index_rows city_positions 0) as Hrow.
  pose proof (sort_index_length city_positions) as Hlen_index.
  set (sort_index := _ <$> (_ <$> city_positions)) in *.
  destruct city_positions as [|p0 [|p1 [|p2 ?]]]; cbn in Hlen; [done| | |lia].
  - destruct sort_index as [|row0 ?]; [done|].
    specialize (Hrow row0 eq_refl).
    apply Permutation_length in Hrow as Hlen0.
    destruct row0 as [|a [|? ?]]; [done| |done].
    rewrite bool_decide_eq_false_2 by done. done.
  - destruct sort_index as [|row0 ?]; [done|].
    specialize (Hrow row0 eq_refl).
    apply Permutation_length in Hrow as Hlen0.
    destruct row0 as [|a [|b [|? ?]]]; [done|done| |done].
    rewrite bool_decide_eq_false_2 by done. done.
Qed.

(** X6. [contains_cliques] needs three cities: it returns [False] on the
    empty list and raises [IndexError] on a list of one or two cities, where
    a row of [sort_index] has no third entry. *)
Theorem contains_cliques_few_cities (city_positions : list (Z * Z)) :
  (length city_positions < 3)%nat ->
  (city_positions = [] -> contains_cliques city_positions = Ok false)
  /\ (city_positions <> [] -> contains_cliques city_positions = Raise IndexError).
Proof.
  intros Hlen. rewrite (contains_cliques_short _ Hlen).
  split; intros Hcase.
  - by rewrite bool_decide_eq_true_2.
  - by rewrite bool_decide_eq_false_2.
Qed.

End CliqueDetectorSmall.

Lemma contains_cliques_few_cities_witness :
  contains_cliques (N:=ExactNumpy) [(4, 8); (13, 30)] = Raise IndexError
  /\ contains_cliques (N:=ExactNumpy) [] = Ok false.
Proof.
  split.
  - apply (contains_cliques_few_cities (N:=ExactNumpy) [(4, 8); (13, 30)]);
      [cbn; lia|done].
  - apply (contains_cliques_few_cities (N:=ExactNumpy) []); [cbn; lia|done].
Defined.

(** ** [contains_cliques] on three or four cities *)

(** The loop of [contains_cliques] over any way of looking up a clique. *)
Fixpoint cliques_with (build : nat -> outcome (list nat)) (idxs : list nat)
  : outcome bool :=
  match idxs with
  | [] => Ok false
  | i :: rest =>
      clique3 ← build i;
      i1 ← py_index clique3 1;
      clique31 ← build i1;
      i2 ← py_index clique3 2;
      clique32 ← build i2;
      if bool_decide (clique3 = clique31) && bool_decide (clique3 = clique32)
      then Ok true
      else
        let cluster := dict_fromkeys (clique3 ++ clique31 ++ clique32) in
        if len cluster =? 4 then
          additional_element ←
            py_index (filter (fun x => x ∉ clique3) cluster) 0;
          clique33 ← build additional_element;
          if bool_decide (cluster = dict_fromkeys (cluster ++ clique33))
          then Ok true
          else cliques_with build rest
        else cliques_with build rest
  end.

Lemma cliques_from_with (sort_index : list (list nat)) (idxs : list nat) :
  cliques_from sort_index idxs = cliques_with (build_clique3 sort_index) idxs.
Proof. induction idxs as [|i rest IH]; cbn; [done|]. by rewrite IH. Qed.

Lemma cliques_with_ext (build1 build2 : nat -> outcome (list nat))
    (idxs : list nat) :
  (forall k, build1 k = build2 k) ->
  cliques_with build1 idxs = cliques_with build2 idxs.
Proof.
  intros Hext. induction idxs as [|i rest IH]; cbn [cliques_with]; [done|].
  rewrite IH, Hext.
  destruct (build2 i) as [clique3| |]; osimpl; [|done..].
  destruct (py_index clique3 1) as [i1| |]; osimpl; [|done..].
  rewrite Hext. destruct (build2 i1) as [clique31| |]; osimpl; [|done..].
  destruct (py_index clique3 2) as [i2| |]; osimpl; [|done..].
  rewrite Hext. destruct (build2 i2) as [clique32| |]; osimpl; [|done..].
  destruct (_ && _); [done|]. destruct (_ =? 4); [|done].
  destruct (py_index _ 0) as [extra| |]; osimpl; [|done..].
  by rewrite Hext.
Qed.

(** The cliques of [n] cities as a table, one per city. *)
Definition build_from_table (table : list (list nat)) (k : nat)
  : outcome (list nat) :=
  match table !! k with
  | Some clique => Ok clique
  | None => Raise IndexError
  end.

(** The sorted triples over [n] indexes that a row prefix can give. *)
Definition triples (n : nat) : list (list nat) :=
  a ← seq 0 n; b ← seq 0 n; c ← seq 0 n;
  if bool_decide (a < b < c)%nat then [[a; b; c]] else [].

(** All tables of [n] cliques taken from [cliques]. *)
Fixpoint tables (cliques : list (list nat)) (n : nat) : list (list (list nat)) :=
  match n with
  | O => [[]]
  | S n' => clique ← cliques; table ← tables cliques n'; [clique :: table]
  end.

Lemma elem_of_tables (cliques : list (list nat)) (table : list (list nat)) :
  Forall (fun clique => clique ∈ cliques) table ->
  table ∈ tables cliques (length table).
Proof.
  induction 1 as [|clique table Hclique _ IH]; cbn [tables length].
  { apply list_elem_of_here. }
  apply list_elem_of_bind. exists clique. split; [|done].
  apply list_elem_of_bind. exists table. split; [|done].
  apply list_elem_of_here.
Qed.

(** Sorting the first three entries of a permutation of [seq 0 n]. *)
Lemma sorted_prefix_triple (n : nat) (row : list nat) (a b c : nat) :
  (n <= 4)%nat ->
  row ≡ₚ seq 0 n ->
  row !! 0%nat = Some a -> row !! 1%nat = Some b -> row !! 2%nat = Some c ->
  sorted [a; b; c] ∈ triples n.
Proof.
  intros Hn Hperm Ha Hb Hc.
  assert (Hnodup : NoDup row) by (rewrite Hperm; apply NoDup_seq).
  assert (Hlt : forall x, x ∈ row -> (x < n)%nat).
  { intros x Hx. rewrite Hperm in Hx. apply elem_of_seq in Hx. lia. }
  destruct row as [|a' [|b' [|c' rest]]]; try done.
  cbn in Ha, Hb, Hc. injection Ha as ->. injection Hb as ->. injection Hc as ->.
  assert (a < n /\ b < n /\ c < n)%nat as (Han & Hbn & Hcn).
  { repeat split; apply Hlt; repeat constructor. }
  assert (a <> b /\ a <> c /\ b <> c) as (Hab & Hac & Hbc).
  { apply NoDup_cons in Hnodup as [Ha Hnodup].
    apply NoDup_cons in Hnodup as [Hb _].
    repeat split; intros ->; [apply Ha|apply Ha|apply Hb];
      repeat constructor. }
  clear Hperm Hnodup Hlt.
  assert (Hcheck :
    forallb (fun a => forallb (fun b => forallb (fun c =>
      implb (negb (Nat.eqb a b) && negb (Nat.eqb a c) && negb (Nat.eqb b c))
            (bool_decide (sorted [a; b; c] ∈ triples 4)
             && implb (Nat.ltb (Nat.max a (Nat.max b c)) 3)
                      (bool_decide (sorted [a; b; c] ∈ triples 3))))
      (seq 0 4)) (seq 0 4)) (seq 0 4) = true) by (vm_compute; reflexivity).
  assert (Hseq : forall x, (x < n)%nat -> In x (seq 0 4))
    by (intros x Hx; apply in_seq; lia).
  pose proof (proj1 (forallb_forall _ _) Hcheck a (Hseq a Han)) as Hcheck_a.
  pose proof (proj1 (forallb_forall _ _) Hcheck_a b (Hseq b Hbn)) as Hcheck_b.
  pose proof (proj1 (forallb_forall _ _) Hcheck_b c (Hseq c Hcn)) as Hcheck_c.
  clear Hcheck Hcheck_a Hcheck_b. cbv beta in Hcheck_c.
  rewrite (proj2 (Nat.eqb_neq a b)), (proj2 (Nat.eqb_neq a c)),
          (proj2 (Nat.eqb_neq b c)) in Hcheck_c by done.
  cbn [negb andb implb] in Hcheck_c.
  apply andb_true_iff in Hcheck_c as [H4 H3].
  apply bool_decide_eq_true in H4.
  destruct (decide (n = 4%nat)) as [->|]; [done|].
  assert (Hn3 : n = 3%nat).
  { destruct n as [|[|[|[|[|?]]]]]; lia. }
  subst n. rewrite (proj2 (Nat.ltb_lt _ _)) in H3 by lia.
  by apply bool_decide_eq_true in H3.
Qed.

Section CliqueDetectorDegenerate.
Context {N : Numpy}.

(** With three or four cities every clique lookup succeeds, with a sorted
    triple of city indexes. *)
Lemma build_clique3_table (city_positions : list (Z * Z)) :
  (3 <= length city_positions <= 4)%nat ->
  exists table,
    length table = length city_positions
    /\ Forall (fun clique => clique ∈ triples (length city_positions)) table
    /\ forall k,
         build_clique3
           ((fun l => np_argsort l)
              <$> ((fun a => get_manhattan_distance a <$> city_positions)
                     <$> city_positions)) k
         = build_from_table table k.
Proof.
  intros Hlen.
  pose proof (sort_index_rows city_positions) as Hrows.
  pose proof (sort_index_length city_positions) as Hlen_index.
  set (sort_index := _ <$> (_ <$> city_positions)) in *.
  set (n := length city_positions) in *. clearbody sort_index n.
  clear city_positions.
  assert (Hrow : forall row, row ∈ sort_index ->
            exists clique, clique ∈ triples n
              /\ (row0 ← Ok row;
                  closest_index1 ← py_index row0 0;
                  closest_index2 ← py_index row0 1;
                  closest_index3 ← py_index row0 2;
                  Ok (sorted [closest_index1; closest_index2; closest_index3]))
                 = Ok clique).
  { intros row [k Hk]%list_elem_of_lookup. specialize (Hrows k row Hk).
    apply Permutation_length in Hrows as Hlen_row. rewrite length_seq in Hlen_row.
    destruct row as [|a [|b [|c rest]]]; cbn in Hlen_row; try lia.
    exists (sorted [a; b; c]). split; [|done].
    by apply (sorted_prefix_triple n (a :: b :: c :: rest)); [lia|..]. }
  clear Hrows.
  assert (Htable : exists table,
            length table = length sort_index
            /\ Forall (fun clique => clique ∈ triples n) table
            /\ forall k, build_clique3 sort_index k = build_from_table table k);
    [|by rewrite Hlen_index in Htable].
  clear Hlen_index Hlen.
  induction sort_index as [|row sort_index IH].
  { exists []. split; [done|]. split; [done|]. intros k.
    unfold build_clique3, build_from_table. by rewrite py_index_nat. }
  destruct (Hrow row) as (clique & Hclique & Hbuild); [left|].
  destruct IH as (table & Htable & Hall & Hext).
  { intros row' Hrow'. apply Hrow. by right. }
  exists (clique :: table). split; [cbn; lia|].
  split; [by constructor|].
  intros [|k]; [exact Hbuild|]. specialize (Hext k).
  unfold build_clique3, build_from_table in *.
  rewrite py_index_nat in *. cbn [lookup list_lookup]. exact Hext.
Qed.

Lemma cliques_of_three_or_four (city_positions : list (Z * Z)) :
  (3 <= length city_positions <= 4)%nat ->
  contains_cliques city_positions = Ok true.
Proof.
  intros Hlen. unfold contains_cliques. cbv zeta.
  destruct (build_clique3_table city_positions Hlen)
    as (table & Htable & Hall & Hext).
  rewrite cliques_from_with, (cliques_with_ext _ _ _ Hext).
  apply elem_of_tables in Hall. rewrite Htable in Hall.
  assert (Hcheck :
    forallb (fun n =>
      forallb (fun table =>
                 match cliques_with (build_from_table table) (seq 0 n) with
                 | Ok true => true
                 | _ => false
                 end)
              (tables (triples n) n))
      [3; 4]%nat = true) by (vm_compute; reflexivity).
  assert (Hn : In (length city_positions) [3; 4]%nat) by (cbn; lia).
  pose proof (proj1 (forallb_forall _ _) Hcheck _ Hn) as Hcheck_n.
  pose proof (proj1 (forallb_forall _ _) Hcheck_n table
                (proj1 (list_elem_of_In _ _) Hall)) as Hcheck_table.
  cbv beta in Hcheck_table.
  by destruct (cliques_with _ _) as [[|]| |].
Qed.

(** X7. On three or four cities [contains_cliques] returns [True], wherever
    the cities lie and however [np.argsort] breaks ties: the two closest
    neighbours of a city among so few cities always make a clique for the
    detector. *)
Theorem contains_cliques_three_or_four (city_positions : list (Z * Z)) :
  (3 <= length city_positions <= 4)%nat ->
  contains_cliques city_positions = Ok true.
Proof. apply cliques_of_three_or_four. Qed.

End CliqueDetectorDegenerate.

Lemma contains_cliques_three_or_four_witness :
  contains_cliques (N:=ExactNumpy) [(4, 4); (30, 30); (4, 60); (40, 4)]
  = Ok true.
Proof.
  apply (contains_cliques_three_or_four (N:=ExactNumpy)
           [(4, 4); (30, 30); (4, 60); (40, 4)]).
  cbn. lia.
Defined.

(** ** More than four cities requested where at most four fit *)

Section CrowdedGrid.
Context {R : RNG} {N : Numpy} {F : Flatland}.

(** A run that gives no result: the loop is still going when the fuel is
    used up, or [IndexError] was raised. *)
Definition stuck_or_index_error {A} (o : outcome A) : Prop :=
  o = OutOfFuel \/ o = Raise IndexError.

(** One to four cities never leave the clique loop. *)
Lemma replace_while_cliques_crowded (fuel : nat)
    (num_cities city_radius width height : Z)
    (city_positions : list (Z * Z)) (np_random : rng_state R)
    (log : list warning) :
  0 < num_cities <= 4 -> 0 <= city_radius ->
  2 * (city_radius + 1) < height -> 2 * (city_radius + 1) < width ->
  (1 <= length city_positions <= 4)%nat ->
  stuck_or_index_error
    (replace_while_cliques fuel num_cities city_radius width height
       city_positions np_random log).
Proof.
  intros Hnum Hr Hh Hw. revert city_positions np_random log.
  induction fuel as [|fuel IH]; intros city_positions np_random log Hlen;
    [by left|].
  cbn [replace_while_cliques].
  destruct (decide (length city_positions < 3)%nat) as [Hfew|Hmany].
  - rewrite (contains_cliques_short _ Hfew).
    rewrite bool_decide_eq_false_2 by (by destruct city_positions; cbn in Hlen; [lia|]).
    by right.
  - rewrite cliques_of_three_or_four by lia. osimpl.
    unfold _generate_random_city_positions.
    destruct (place_random_total num_cities city_radius width height np_random)
      as [st Hst]; [lia..|].
    rewrite Hst. osimpl. apply IH.
    assert (Hsome : st_city_positions st <> []).
    { eapply place_random_some_city; [| | | |exact Hst]; [lia|done..]. }
    unfold place_random in Hst.
    destruct (np_zeros height width) as [grid| |]; osimpl in Hst; [|done..].
    apply place_loop_prefix in Hst as (_ & Hle & _).
    cbn [st_city_positions length] in Hle.
    destruct (st_city_positions st); [done|cbn in *; lia].
Qed.

(** The grid has an interior when two cities are feasible. *)
Lemma feasible_interior (self : SparseRailGen) (width height : Z) :
  0 <= height -> 0 <= width ->
  2 <= max_feasible_cities_of self width height ->
  2 * (city_radius_of self + 1) < height
  /\ 2 * (city_radius_of self + 1) < width.
Proof.
  intros Hh Hw. unfold max_feasible_cities_of. cbv zeta.
  assert (Hr : 3 <= city_radius_of self).
  { unfold city_radius_of, rail_pairs_in_city_of. cbv zeta.
    destruct (Z.ltb_spec (max_rail_pairs_in_city self) 1); lia. }
  set (size := 2 * (city_radius_of self + 1)) in *.
  assert (Hsize : 8 <= size) by (unfold size; lia).
  pose proof (Z.div_mod (height - 2) size ltac:(lia)) as Hdiv_h.
  pose proof (Z.mod_pos_bound (height - 2) size ltac:(lia)) as Hmod_h.
  pose proof (Z.div_mod (width - 2) size ltac:(lia)) as Hdiv_w.
  pose proof (Z.mod_pos_bound (width - 2) size ltac:(lia)) as Hmod_w.
  set (a := (height - 2) / size) in *. set (b := (width - 2) / size) in *.
  intros Hfeasible.
  assert (Hab : 2 <= a * b) by lia.
  assert (1 <= a /\ 1 <= b) as [Ha Hb]; [|nia].
  assert (-1 <= a) by nia. assert (-1 <= b) by nia. nia.
Qed.

(** X8. In random mode, a request for more than 4 cities on a grid where
    between 2 and 4 cities are feasible never yields a map: [generate] goes
    into the clique loop, which so few cities cannot leave. The call ends in
    [IndexError] (one or two cities placed) or does not end at all. *)
Theorem generate_crowded_gives_no_map (self : SparseRailGen) (fuel : nat)
    (width height num_agents num_resets : Z)
    (np_random : option (rng_state R)) (global_draw : Z)
    (np_random' : rng_state R) :
  grid_mode self = false ->
  4 < max_num_cities self ->
  2 <= max_feasible_cities_of self width height <= 4 ->
  0 <= height -> 0 <= width ->
  choose_np_random self np_random global_draw = Ok np_random' ->
  stuck_or_index_error
    (generate self fuel width height num_agents num_resets np_random
       global_draw).
Proof.
  intros Hmode Hmany Hfeasible Hh Hw Hrng.
  rewrite (generate_unfold self fuel width height num_agents num_resets
             np_random global_draw np_random' Hh Hw Hrng).
  destruct (Z.ltb_spec (max_feasible_cities_of self width height) 2); [lia|].
  destruct (feasible_interior self width height Hh Hw ltac:(lia))
    as [Hroom_h Hroom_w].
  assert (Hr : 0 <= city_radius_of self).
  { unfold city_radius_of, rail_pairs_in_city_of. cbv zeta.
    destruct (Z.ltb_spec (max_rail_pairs_in_city self) 1); lia. }
  unfold build_network. cbv zeta.
  assert (Hplace :
    stuck_or_index_error
      (place_cities self fuel (max_feasible_cities_of self width height)
         (city_radius_of self) width height np_random' [])).
  { unfold place_cities. rewrite Hmode.
    destruct (Z.ltb_spec 4 (max_num_cities self)); [|lia].
    set (requested := max_feasible_cities_of self width height) in *.
    unfold _generate_random_city_positions.
    destruct (place_random_total requested (city_radius_of self) width height
                np_random' Hh Hw) as [st Hst].
    rewrite Hst. osimpl.
    assert (Hloop :
      stuck_or_index_error
        (replace_while_cliques fuel requested (city_radius_of self) width
           height (st_city_positions st) (st_np_random st)
           (if len (st_city_positions st) <? requested
            then [] ++ [CouldNotSetAllCities (len (st_city_positions st))
                          requested]
            else []))).
    { apply replace_while_cliques_crowded; [lia|done..|].
      assert (Hsome : st_city_positions st <> []).
      { eapply place_random_some_city; [| | | |exact Hst]; [lia|done..]. }
      unfold place_random in Hst.
      destruct (np_zeros height width) as [grid| |]; osimpl in Hst; [|done..].
      apply place_loop_prefix in Hst as (_ & Hle & _).
      cbn [st_city_positions length] in Hle.
      destruct (st_city_positions st); [done|cbn in *; lia]. }
    by destruct Hloop as [-> | ->]; [left|right]. }
  by destruct Hplace as [-> | ->]; [left|right].
Qed.

End CrowdedGrid.

(** Five cities requested on a 27 x 10 grid, where three fit. *)
Lemma generate_crowded_gives_no_map_witness :
  stuck_or_index_error
    (generate (R:=ScriptedRNG) (N:=ExactNumpy) (F:=SketchFlatland) crowded 7
       27 10 1 0 (Some (([3; 1; 4], []) : rng_state ScriptedRNG)) 0).
Proof.
  apply (generate_crowded_gives_no_map (R:=ScriptedRNG) (N:=ExactNumpy)
           (F:=SketchFlatland) crowded 7 27 10 1 0
           (Some (([3; 1; 4], []) : rng_state ScriptedRNG)) 0 ([3; 1; 4], []));
    [reflexivity|reflexivity|vm_compute; split; discriminate|lia|lia
    |reflexivity].
Defined.

(** ** The closest neighbours of a city: [_closest_neighbour_in_grid4_directions]
    and [get_closest_neighbour_for_direction] *)

(** Returns the entry for [out_direction], or else the first entry that is
    not [None] among the counter-clockwise, the clockwise and the opposite
    direction. *)
Definition get_closest_neighbour_for_direction
    (closest_neighbours : list (option Z)) (out_direction : Z)
  : outcome (option Z) :=
  neighbour_idx ← py_index closest_neighbours out_direction;
  if bool_decide (neighbour_idx <> None) then Ok neighbour_idx else
  (* counter-clockwise *)
  neighbour_idx ← py_index closest_neighbours ((out_direction - 1) mod 4);
  if bool_decide (neighbour_idx <> None) then Ok neighbour_idx else
  (* clockwise *)
  neighbour_idx ← py_index closest_neighbours ((out_direction + 1) mod 4);
  if bool_decide (neighbour_idx <> None) then Ok neighbour_idx else
  py_index closest_neighbours ((out_direction + 2) mod 4).

Lemma get_closest_neighbour_for_direction_cases
    (closest_neighbours : list (option Z)) (out_direction : Z) :
  length closest_neighbours = 4%nat ->
  0 <= out_direction ->
  if out_direction <? 4 then
    exists neighbour,
      get_closest_neighbour_for_direction closest_neighbours out_direction
        = Ok neighbour
      /\ (forall v, closest_neighbours !! Z.to_nat out_direction = Some (Some v) ->
          neighbour = Some v)
      /\ (forall v, neighbour = Some v -> Some v ∈ closest_neighbours)
      /\ (neighbour = None <-> forall x, x ∈ closest_neighbours -> x = None)
  else
    get_closest_neighbour_for_direction closest_neighbours out_direction
      = Raise IndexError.
Proof.
  intros Hlen Hdir.
  destruct closest_neighbours as [|n [|e [|s [|w [|? ?]]]]]; try done.
  destruct (Z.ltb_spec out_direction 4) as [Hlt|Hge].
  - assert (Hall : forall x, x ∈ [n; e; s; w] <-> x = n \/ x = e \/ x = s \/ x = w).
    { intros x. rewrite !elem_of_cons, elem_of_nil. tauto. }
    assert (Hcases : out_direction = 0 \/ out_direction = 1
                     \/ out_direction = 2 \/ out_direction = 3) by lia.
    destruct Hcases as [-> | [-> | [-> | ->]]];
      destruct n as [n|], e as [e|], s as [s|], w as [w|];
      (eexists; split; [reflexivity|]; split; [by intros v [= ->]|];
       split; [intros v [= ->]; apply Hall; tauto|];
       split; [try done; intros Hnone x Hx; apply Hall in Hx;
               destruct Hx as [-> | [-> | [-> | ->]]]; congruence
              |intros Hnone; try done;
               first [by discriminate (Hnone (Some n) ltac:(apply Hall; tauto))
                     |by discriminate (Hnone (Some e) ltac:(apply Hall; tauto))
                     |by discriminate (Hnone (Some s) ltac:(apply Hall; tauto))
                     |by discriminate (Hnone (Some w) ltac:(apply Hall; tauto))]]).
  - unfold get_closest_neighbour_for_direction.
    rewrite (py_index_nonneg _ out_direction) by lia.
    rewrite lookup_ge_None_2 by (cbn; lia). done.
Qed.

(** X9. On a list of four entries and a direction from 0 to 3,
    [get_closest_neighbour_for_direction] returns the entry of the direction
    itself when there is one, and otherwise another entry of the list; it
    returns [None] only when all four entries are [None]. A direction of 4
    or more raises [IndexError]. *)
Theorem get_closest_neighbour_for_direction_spec
    (closest_neighbours : list (option Z)) (out_direction : Z) :
  length closest_neighbours = 4%nat ->
  0 <= out_direction ->
  if out_direction <? 4 then
    exists neighbour,
      get_closest_neighbour_for_direction closest_neighbours out_direction
        = Ok neighbour
      /\ (forall v, closest_neighbours !! Z.to_nat out_direction = Some (Some v) ->
          neighbour = Some v)
      /\ (forall v, neighbour = Some v -> Some v ∈ closest_neighbours)
      /\ (neighbour = None <-> forall x, x ∈ closest_neighbours -> x = None)
  else
    get_closest_neighbour_for_direction closest_neighbours out_direction
      = Raise IndexError.
Proof. apply get_closest_neighbour_for_direction_cases. Qed.

Lemma get_closest_neighbour_for_direction_spec_witness :
  exists neighbour,
    get_closest_neighbour_for_direction [None; Some 2; None; None] 3
      = Ok neighbour
    /\ (forall v, [None; Some 2; None; None] !! Z.to_nat 3 = Some (Some v) ->
        neighbour = Some v)
    /\ (forall v, neighbour = Some v -> Some v ∈ [None; Some 2; None; None])
    /\ (neighbour = None
        <-> forall x, x ∈ [None; Some 2; None; None] -> x = None).
Proof.
  apply (get_closest_neighbour_for_direction_spec [None; Some 2; None; None] 3);
    [reflexivity|lia].
Defined.

Lemma for_fold_cons {A S} (f : S -> A -> outcome S) (x : A) (l : list A)
    (s : S) :
  for_fold f (x :: l) s = (s' ← f s x; for_fold f l s').
Proof. reflexivity. Qed.

Section ClosestNeighbours.
Context {N : Numpy} {F : Flatland}.

(** What the loop over the sorted neighbours keeps. *)
Definition neighbours_valid (n : nat) (closest_neighbour : list (option Z))
  : Prop :=
  length closest_neighbour = 4%nat
  /\ forall v, Some v ∈ closest_neighbour -> 0 <= v < Z.of_nat n.

Lemma closest_neighbour_step (city_positions : list (Z * Z)) (current : Z * Z)
    (closest_neighbour : list (option Z)) (neighbour : nat) :
  (neighbour < length city_positions)%nat ->
  neighbours_valid (length city_positions) closest_neighbour ->
  exists closest_neighbour',
    (if bool_decide (None ∈ closest_neighbour) then
       position ← py_index city_positions (Z.of_nat neighbour);
       slot ← py_index closest_neighbour
                (direction_value (direction_to_point current position));
       match slot with
       | None => py_set closest_neighbour
                        (direction_value (direction_to_point current position))
                        (Some (Z.of_nat neighbour))
       | Some _ => Ok closest_neighbour
       end
     else Ok closest_neighbour) = Ok closest_neighbour'
    /\ neighbours_valid (length city_positions) closest_neighbour'
    /\ (closest_neighbour = replicate 4 None ->
        Some (Z.of_nat neighbour) ∈ closest_neighbour').
Proof.
  intros Hneighbour [Hlen Hvalid].
  destruct (bool_decide (None ∈ closest_neighbour)) eqn:Hnone.
  2: { exists closest_neighbour. split; [done|]. split; [done|].
       intros ->. apply bool_decide_eq_false in Hnone.
       destruct Hnone. apply list_elem_of_here. }
  rewrite py_index_nat.
  destruct (lookup_lt_is_Some_2 city_positions neighbour Hneighbour)
    as [position ->]. osimpl.
  pose proof (direction_value_range (direction_to_point current position)) as Hd.
  set (d := direction_value (direction_to_point current position)) in *.
  rewrite py_index_nonneg by lia.
  destruct (lookup_lt_is_Some_2 closest_neighbour (Z.to_nat d)) as [slot Hslot];
    [lia|].
  rewrite Hslot. osimpl. destruct slot as [v|].
  - exists closest_neighbour. split; [done|]. split; [done|].
    intros ->. by apply lookup_replicate in Hslot as [? _].
  - unfold py_set. rewrite py_index_nonneg, Hslot by lia. osimpl.
    destruct (Z.ltb_spec d 0); [lia|].
    eexists. split; [reflexivity|]. split; [split|].
    + by rewrite length_insert.
    + intros v Hv. apply list_elem_of_lookup in Hv as [k Hk].
      destruct (decide (k = Z.to_nat d)) as [->|Hne].
      * rewrite list_lookup_insert_eq in Hk by lia.
        injection Hk as <-. lia.
      * rewrite list_lookup_insert_ne in Hk by done.
        apply Hvalid. by eapply list_elem_of_lookup_2.
    + intros _. apply list_elem_of_lookup. exists (Z.to_nat d).
      apply list_lookup_insert_eq. lia.
Qed.

Lemma closest_neighbour_loop (city_positions : list (Z * Z)) (current : Z * Z)
    (neighbours : list nat) (closest_neighbour : list (option Z)) :
  Forall (fun neighbour => (neighbour < length city_positions)%nat) neighbours ->
  neighbours_valid (length city_positions) closest_neighbour ->
  exists closest_neighbour',
    for_fold
      (fun closest_neighbour neighbour =>
         if bool_decide (None ∈ closest_neighbour) then
           position ← py_index city_positions (Z.of_nat neighbour);
           slot ← py_index closest_neighbour
                    (direction_value (direction_to_point current position));
           match slot with
           | None => py_set closest_neighbour
                            (direction_value
                               (direction_to_point current position))
                            (Some (Z.of_nat neighbour))
           | Some _ => Ok closest_neighbour
           end
         else Ok closest_neighbour)
      neighbours closest_neighbour = Ok closest_neighbour'
    /\ neighbours_valid (length city_positions) closest_neighbour'
    /\ (forall v, Some v ∈ closest_neighbour -> Some v ∈ closest_neighbour').
Proof.
  intros Hall. revert closest_neighbour.
  induction Hall as [|neighbour neighbours Hneighbour _ IH];
    intros closest_neighbour Hvalid.
  { by exists closest_neighbour. }
  rewrite for_fold_cons. cbv beta.
  destruct (closest_neighbour_step city_positions current closest_neighbour
              neighbour Hneighbour Hvalid) as (cn1 & Hstep & Hvalid1 & _).
  assert (Hkeep : forall v, Some v ∈ closest_neighbour -> Some v ∈ cn1).
  { intros v Hv. revert Hstep.
    destruct (bool_decide (None ∈ closest_neighbour)); [|by intros [= <-]].
    destruct (py_index city_positions _) as [position| |]; osimpl; [|done..].
    destruct (py_index closest_neighbour _) as [[w|]| |] eqn:Hslot; osimpl;
      [by intros [= <-]| |done..].
    unfold py_set. rewrite Hslot. osimpl. intros [= <-].
    apply list_elem_of_lookup in Hv as [k Hk].
    apply list_elem_of_lookup. exists k.
    rewrite list_lookup_insert_ne; [done|]. intros <-.
    pose proof (direction_value_range (direction_to_point current position))
      as Hd.
    destruct (Z.ltb_spec (direction_value (direction_to_point current position)) 0);
      [lia|].
    rewrite py_index_nonneg, Hk in Hslot by lia. done. }
  rewrite Hstep. osimpl.
  destruct (IH cn1 Hvalid1) as (cn2 & Hrest & Hvalid2 & Hkeep2).
  exists cn2. split; [done|]. split; [done|]. auto.
Qed.

(** X10. For a city index in range, [_closest_neighbour_in_grid4_directions]
    returns a list of four entries, one per direction, each [None] or the
    index of a city of the list; with two cities or more at least one entry
    is an index, so that [get_closest_neighbour_for_direction] then finds a
    neighbour for every direction. *)
Theorem closest_neighbour_in_grid4_directions_spec
    (current_city_idx : Z) (city_positions : list (Z * Z)) :
  0 <= current_city_idx < len city_positions ->
  exists closest_neighbour,
    _closest_neighbour_in_grid4_directions current_city_idx city_positions
      = Ok closest_neighbour
    /\ length closest_neighbour = 4%nat
    /\ (forall v, Some v ∈ closest_neighbour -> 0 <= v < len city_positions)
    /\ (2 <= len city_positions ->
        forall out_direction, 0 <= out_direction < 4 ->
          exists v,
            get_closest_neighbour_for_direction closest_neighbour out_direction
              = Ok (Some v)
            /\ 0 <= v < len city_positions).
Proof.
  intros Hidx. unfold _closest_neighbour_in_grid4_directions.
  rewrite py_index_nonneg by lia.
  destruct (lookup_lt_is_Some_2 city_positions (Z.to_nat current_city_idx))
    as [current Hcurrent]; [unfold len in Hidx; lia|].
  rewrite Hcurrent. osimpl. cbv zeta.
  set (sorted_neighbours :=
         np_argsort (get_manhattan_distance current <$> city_positions)).
  assert (Hperm : sorted_neighbours ≡ₚ seq 0 (length city_positions)).
  { unfold sorted_neighbours. rewrite np_argsort_perm. by rewrite length_fmap. }
  assert (Hrange : Forall (fun neighbour => (neighbour < length city_positions)%nat)
                     sorted_neighbours).
  { apply Forall_forall. intros k Hk. rewrite Hperm in Hk.
    apply elem_of_seq in Hk. lia. }
  assert (Hvalid0 : neighbours_valid (length city_positions) (replicate 4 None)).
  { split; [done|]. intros v Hv. by apply elem_of_replicate in Hv as [? _]. }
  destruct (closest_neighbour_loop city_positions current
              (drop 1 sorted_neighbours) (replicate 4 None))
    as (cn & Hrun & [Hlen Hvalid] & _); [by apply Forall_drop|done|].
  exists cn. split; [exact Hrun|]. split; [done|].
  split; [intros v Hv; apply Hvalid in Hv; unfold len; lia|].
  intros Hmany out_direction Hdir.
  assert (Hsome : exists v, Some v ∈ cn).
  { apply Permutation_length in Hperm as Hlen_sorted.
    rewrite length_seq in Hlen_sorted. unfold len in Hmany.
    destruct sorted_neighbours as [|first [|second rest]];
      cbn in Hlen_sorted; [lia..|].
    cbn [drop] in Hrun. rewrite for_fold_cons in Hrun. cbv beta in Hrun.
    apply Forall_cons in Hrange as [_ Hrange].
    apply Forall_cons in Hrange as [Hsecond Hrest].
    destruct (closest_neighbour_step city_positions current (replicate 4 None)
                second Hsecond Hvalid0) as (cn1 & Hstep & Hvalid1 & Hfilled).
    rewrite Hstep in Hrun. osimpl in Hrun.
    destruct (closest_neighbour_loop city_positions current rest cn1 Hrest
                Hvalid1) as (cn2 & Hrest_run & _ & Hkeep).
    rewrite Hrest_run in Hrun. injection Hrun as <-.
    exists (Z.of_nat second). apply Hkeep, Hfilled. done. }
  destruct Hsome as [v0 Hv0].
  pose proof (get_closest_neighbour_for_direction_cases cn out_direction Hlen
                ltac:(lia)) as Hcases.
  destruct (Z.ltb_spec out_direction 4); [|lia].
  destruct Hcases as (neighbour & Hget & _ & Hin & Hnone).
  destruct neighbour as [v|].
  - exists v. split; [done|]. specialize (Hin v eq_refl).
    apply Hvalid in Hin. unfold len. lia.
  - by discriminate (proj1 Hnone eq_refl (Some v0) Hv0).
Qed.

End ClosestNeighbours.

Lemma closest_neighbour_in_grid4_directions_spec_witness :
  exists closest_neighbour,
    _closest_neighbour_in_grid4_directions (N:=ExactNumpy) (F:=SketchFlatland)
      1 sample_cities = Ok closest_neighbour
    /\ length closest_neighbour = 4%nat
    /\ (forall v, Some v ∈ closest_neighbour -> 0 <= v < len sample_cities)
    /\ (2 <= len sample_cities ->
        forall out_direction, 0 <= out_direction < 4 ->
          exists v,
            get_closest_neighbour_for_direction closest_neighbour out_direction
              = Ok (Some v)
            /\ 0 <= v < len sample_cities).
Proof.
  apply (closest_neighbour_in_grid4_directions_spec (N:=ExactNumpy)
           (F:=SketchFlatland) 1 sample_cities).
  unfold len, sample_cities. cbn [length]. lia.
Defined.

(** ** The outer connection points of a city *)

(** The outer point at [slot] cells along side [direction]: on the border
    row or column of the city square. *)
Definition outer_point (city_position : Z * Z) (city_radius direction slot : Z)
  : Z * Z :=
  if direction =? 0 then (city_position.1 - city_radius, city_position.2 + slot)
  else if direction =? 1 then
    (city_position.1 + slot, city_position.2 + city_radius)
  else if direction =? 2 then
    (city_position.1 + city_radius, city_position.2 + slot)
  else (city_position.1 + slot, city_position.2 - city_radius).

(** The outer sides of a city with orientation [d]: two points on each of
    the two active sides. *)
Definition outer_planned (city_position : Z * Z) (city_radius : Z)
    (sides : list (list (Z * Z))) (d : Z) : Prop :=
  0 <= d < 4
  /\ length sides = 4%nat
  /\ forall direction, 0 <= direction < 4 ->
       sides !! Z.to_nat direction
       = Some (if (direction =? d) || (direction =? (d + 2) mod 4)
               then [outer_point city_position city_radius direction 0;
                     outer_point city_position city_radius direction 1]
               else []).

Lemma for_append_ok_snd {A B C} (f : A -> outcome (B * C)) (g : A -> C)
    (l : list A) :
  (forall x, x ∈ l -> exists b, f x = Ok (b, g x)) ->
  exists ys, for_append f l = Ok ys /\ snd <$> ys = g <$> l.
Proof.
  induction l as [|x l IH]; intros Hf; [by exists []|].
  destruct (Hf x) as [b Hx]; [left|].
  destruct IH as (ys & Hys & Hsnd); [intros y Hy; apply Hf; by right|].
  exists ((b, g x) :: ys). cbn [for_append]. rewrite Hx. osimpl.
  rewrite Hys. osimpl. split; [done|].
  rewrite !fmap_cons. cbn [snd]. by rewrite Hsnd.
Qed.

(** Two consecutive indexes picked out of [range(n)]. *)
Lemma omap_range_window {B} (h : Z -> B) (a n : Z) :
  0 <= a -> a + 2 <= n ->
  omap (fun i => if (a <=? i) && (i <? a + 2) then Some (h i) else None)
       (range n)
  = [h a; h (a + 1)].
Proof.
  intros Ha Hn. unfold range.
  replace (Z.to_nat n)
    with (Z.to_nat a + (2 + (Z.to_nat n - Z.to_nat a - 2)))%nat by lia.
  rewrite !seq_app, !fmap_app, !omap_app. cbn [seq fmap list_fmap].
  assert (Hout : forall l : list nat,
            (forall k, k ∈ l -> (k < Z.to_nat a)%nat \/ (Z.to_nat a + 2 <= k)%nat) ->
            omap (fun i => if (a <=? i) && (i <? a + 2) then Some (h i) else None)
                 (Z.of_nat <$> l) = []).
  { induction l as [|k l IH]; intros Hl; [done|]. cbn.
    destruct (Hl k) as [Hk|Hk]; [left| |].
    - destruct (Z.leb_spec a (Z.of_nat k)); [lia|]. cbn.
      apply IH. intros k' Hk'. apply Hl. by right.
    - destruct (Z.ltb_spec (Z.of_nat k) (a + 2)); [lia|].
      rewrite andb_false_r.
      apply IH. intros k' Hk'. apply Hl. by right. }
  rewrite !Hout.
  - cbn [app omap list_omap].
    rewrite Nat.add_0_l, Nat2Z.inj_succ, Z2Nat.id by done.
    replace (Z.succ a) with (a + 1) by lia.
    destruct (Z.leb_spec a a); [|lia].
    destruct (Z.ltb_spec a (a + 2)); [|lia].
    destruct (Z.leb_spec a (a + 1)); [|lia].
    destruct (Z.ltb_spec (a + 1) (a + 2)); [|lia].
    done.
  - intros k Hk%elem_of_seq. lia.
  - intros k Hk%elem_of_seq. lia.
Qed.

Section OuterPoints.
Context {R : RNG} {F : Flatland}.

Lemma connection_point_outer (city_position : Z * Z)
    (city_radius direction n start_idx i : Z) :
  0 <= direction < 4 -> 0 <= i < n ->
  exists inner,
    connection_point city_position city_radius direction
      ((fun k => k - start_idx) <$> np_arange 0 n)
      ((fun d => Z.abs d + np_clip d 0 1 + 1)
         <$> ((fun k => k - int_half n) <$> np_arange 0 n))
      i
    = Ok (inner, outer_point city_position city_radius direction (i - start_idx)).
Proof.
  intros Hdir Hi. unfold connection_point.
  rewrite !py_index_nonneg by lia.
  rewrite !list_lookup_fmap, lookup_np_arange_0 by done.
  cbn [fmap option_fmap option_map]. osimpl. unfold outer_point.
  destruct (Z.eqb_spec direction 0); [by eexists|].
  destruct (Z.eqb_spec direction 1); [by eexists|].
  destruct (Z.eqb_spec direction 2); [by eexists|].
  destruct (Z.eqb_spec direction 3); [by eexists|lia].
Qed.

Lemma side_connection_points_outer (city_position : Z * Z)
    (city_radius : Z) (cpd : list Z) (n direction : Z) :
  0 <= direction < 4 -> Z.even n = true -> 2 <= n ->
  py_index cpd direction = Ok n ->
  exists inner,
    side_connection_points city_position city_radius cpd n 2
      (int_half (n - 2)) direction
    = Ok (inner, [outer_point city_position city_radius direction 0;
                  outer_point city_position city_radius direction 1]).
Proof.
  intros Hdir Heven Hn Hcount. unfold side_connection_points.
  rewrite Hcount. osimpl.
  set (start := int_half (n - 2)).
  assert (Hstart : 0 <= start /\ start + 2 <= n).
  { unfold start, int_half. rewrite Z.quot_div_nonneg by lia.
    apply Z.even_spec in Heven as [m ->].
    replace (2 * m - 2) with ((m - 1) * 2) by lia.
    rewrite Z.div_mul by lia. lia. }
  edestruct (for_append_ok_snd
               (fun connection_idx =>
                  '(tmp_coordinates, out_tmp_coordinates) ←
                    connection_point city_position city_radius direction
                      ((fun k => k - start) <$> np_arange 0 n)
                      ((fun d => Z.abs d + np_clip d 0 1 + 1)
                         <$> ((fun k => k - int_half n) <$> np_arange 0 n))
                      connection_idx;
                  Ok (tmp_coordinates,
                      if (start <=? connection_idx)
                         && (connection_idx <? start + 2)
                      then Some out_tmp_coordinates else None))
               (fun i => if (start <=? i) && (i <? start + 2)
                         then Some (outer_point city_position city_radius
                                      direction (i - start))
                         else None)
               (range n)) as (pts & Hpts & Hsnd).
  { intros i Hi%range_bounds.
    destruct (connection_point_outer city_position city_radius direction n
                start i) as [inner Hinner]; try done.
    rewrite Hinner. osimpl. by eexists. }
  rewrite Hpts. osimpl. eexists. f_equal. f_equal.
  transitivity (omap id (snd <$> pts)).
  { clear. induction pts as [|[a [b|]] pts IH]; cbn; [done|by rewrite IH|done]. }
  rewrite Hsnd.
  transitivity
    (omap (fun i => if (start <=? i) && (i <? start + 2)
                    then Some (outer_point city_position city_radius direction
                                 (i - start))
                    else None) (range n)).
  { generalize (range n). intros l.
    induction l as [|i l IH]; cbn; [done|]. by rewrite IH. }
  rewrite (omap_range_window
             (fun i => outer_point city_position city_radius direction (i - start)))
    by lia.
  do 2 f_equal; f_equal; lia.
Qed.

(** One city: the outer sides that [plan_city] appends. *)
Lemma plan_city_outer (grid_mode : bool) (city_positions : list (Z * Z))
    (city_radius rails_between_cities rail_pairs_in_city : Z)
    (plan plan' : connection_plan (R:=R)) (city_position : Z * Z) :
  plan_city grid_mode city_positions city_radius rails_between_cities
    rail_pairs_in_city plan city_position = Ok plan' ->
  exists sides d,
    outer_connection_points plan' = outer_connection_points plan ++ [sides]
    /\ city_orientations plan' = city_orientations plan ++ [d]
    /\ outer_planned city_position city_radius sides d
    /\ (grid_mode = false ->
        exists closest neighbour,
          argsort (get_manhattan_distance city_position <$> city_positions)
            !! 1%nat = Some closest
          /\ city_positions !! closest = Some neighbour
          /\ d = direction_value (direction_to_point city_position neighbour)).
Proof.
  unfold plan_city.
  set (direction_draw := if grid_mode then _ else _).
  assert (Hdir : forall d rs, direction_draw = Ok (d, rs) ->
            0 <= d < 4
            /\ (grid_mode = false ->
                exists closest neighbour,
                  argsort (get_manhattan_distance city_position <$> city_positions)
                    !! 1%nat = Some closest
                  /\ city_positions !! closest = Some neighbour
                  /\ d = direction_value
                           (direction_to_point city_position neighbour))).
  { subst direction_draw. intros d rs. destruct grid_mode.
    - unfold randint. cbn [Z.ltb Z.compare]. intros [= Hdraw].
      pose proof (rng_randint_range R (plan_np_random plan) 0 4 eq_refl) as Hr.
      rewrite Hdraw in Hr. cbn in Hr. split; [lia|done].
    - rewrite (py_index_nat _ 1).
      destruct (argsort _ !! 1%nat) as [closest|] eqn:Hclosest; osimpl;
        [|done].
      rewrite py_index_nat.
      destruct (city_positions !! closest) as [neighbour|] eqn:Hneighbour;
        osimpl; [|done].
      intros [= <- _]. split; [apply direction_value_range|].
      intros _. by exists closest, neighbour. }
  destruct direction_draw as [[d rs]| |]; osimpl; [|done..].
  destruct (Hdir d rs eq_refl) as [Hd Hfacing].
  destruct (_get_cells_in_city _ _ _ _) as [[cells vector_field]| |];
    osimpl; [|done..].
  unfold randint at 1.
  destruct (Z.ltb_spec 1 (rail_pairs_in_city + 1)) as [Hrp|]; [|done].
  pose proof (rng_randint_range R rs 1 (rail_pairs_in_city + 1) Hrp) as Hdraw.
  destruct (rng_randint R rs 1 (rail_pairs_in_city + 1)) as [draw rs'].
  cbn [fst] in Hdraw. osimpl.
  destruct (set_connection_sides d (draw * 2) Hd) as (cpd & -> & Hcpd).
  osimpl.
  assert (Heven : Z.even (draw * 2) = true).
  { rewrite Z.even_mul. by rewrite orb_true_r. }
  edestruct (for_append_ok_snd
               (side_connection_points city_position city_radius cpd
                  (draw * 2) 2 (int_half (draw * 2 - 2)))
               (fun direction =>
                  if (direction =? d) || (direction =? (d + 2) mod 4)
                  then [outer_point city_position city_radius direction 0;
                        outer_point city_position city_radius direction 1]
                  else [])
               (range 4)) as (sides & Hsides & Hsnd).
  { intros direction Hdirection%range_bounds.
    specialize (Hcpd direction Hdirection).
    destruct ((direction =? d) || (direction =? (d + 2) mod 4)).
    - apply side_connection_points_outer; try done; lia.
    - exists []. by apply side_connection_points_inactive. }
  rewrite Hsides. osimpl. intros [= <-]. cbn.
  exists (snd <$> sides), d. split; [done|]. split; [done|]. split; [|done].
  rewrite Hsnd. split; [done|]. split; [done|].
  intros direction Hdirection.
  by rewrite list_lookup_fmap, lookup_range_lt.
Qed.

(** All cities: entry [k] of the plan belongs to city [k]. *)
Lemma plan_cities_outer (grid_mode : bool) (city_positions : list (Z * Z))
    (city_radius rails_between_cities rail_pairs_in_city : Z)
    (cities : list (Z * Z)) (plan plan' : connection_plan (R:=R)) :
  for_fold (plan_city grid_mode city_positions city_radius rails_between_cities
              rail_pairs_in_city) cities plan = Ok plan' ->
  exists new_outer new_orientations,
    outer_connection_points plan' = outer_connection_points plan ++ new_outer
    /\ city_orientations plan' = city_orientations plan ++ new_orientations
    /\ length new_outer = length cities
    /\ forall (k : nat) city_position,
         cities !! k = Some city_position ->
         exists sides d,
           new_outer !! k = Some sides /\ new_orientations !! k = Some d
           /\ outer_planned city_position city_radius sides d
           /\ (grid_mode = false ->
               exists closest neighbour,
                 argsort (get_manhattan_distance city_position <$> city_positions)
                   !! 1%nat = Some closest
                 /\ city_positions !! closest = Some neighbour
                 /\ d = direction_value
                          (direction_to_point city_position neighbour)).
Proof.
  revert plan. induction cities as [|city cities IH]; intros plan; cbn [for_fold].
  { intros [= <-]. exists [], []. rewrite !app_nil_r. by repeat split. }
  destruct (plan_city _ _ _ _ _ plan city) as [plan1| |] eqn:Hcity;
    osimpl; [|done..].
  intros Hrest.
  apply plan_city_outer in Hcity as (sides & d & Hout1 & Hor1 & Hplanned).
  apply IH in Hrest as (no & nd & Hout & Hor & Hlen & Hall).
  exists (sides :: no), (d :: nd).
  rewrite Hout, Hout1, Hor, Hor1, <- !app_assoc. cbn [app length].
  repeat split; [lia|].
  intros [|k] city_position; cbn.
  - intros [= <-]. by exists sides, d.
  - apply Hall.
Qed.

Lemma generate_city_connection_points_outer (grid_mode : bool)
    (city_positions : list (Z * Z)) (city_radius : Z)
    (vector_field : list (list Z))
    (rails_between_cities rail_pairs_in_city : Z) (np_random : rng_state R)
    (plan : connection_plan (R:=R)) :
  _generate_city_connection_points grid_mode city_positions city_radius
    vector_field rails_between_cities rail_pairs_in_city np_random = Ok plan ->
  length (outer_connection_points plan) = length city_positions
  /\ forall (k : nat) city_position,
       city_positions !! k = Some city_position ->
       exists sides d,
         outer_connection_points plan !! k = Some sides
         /\ city_orientations plan !! k = Some d
         /\ outer_planned city_position city_radius sides d
         /\ (grid_mode = false ->
             exists closest neighbour,
               argsort (get_manhattan_distance city_position <$> city_positions)
                 !! 1%nat = Some closest
               /\ city_positions !! closest = Some neighbour
               /\ d = direction_value
                        (direction_to_point city_position neighbour)).
Proof.
  unfold _generate_city_connection_points. intros Hrun.
  apply plan_cities_outer in Hrun as (no & nd & Hout & Hor & Hlen & Hall).
  cbn in Hout, Hor. subst. by split.
Qed.

(** X11. Every city planned by [_generate_city_connection_points] has
    exactly two outer connection points on its orientation side and two on
    the opposite side, whatever [rails_between_cities] and the number of
    inner points are, and none on the two other sides. The two points lie
    on the border of the city square, at the city center's coordinate along
    the side and one cell after it. In random mode the orientation side is
    the side that faces the closest other city. *)
Theorem outer_connection_points_two_per_side (grid_mode : bool)
    (city_positions : list (Z * Z)) (city_radius : Z)
    (vector_field : list (list Z))
    (rails_between_cities rail_pairs_in_city : Z) (np_random : rng_state R)
    (plan : connection_plan (R:=R)) :
  _generate_city_connection_points grid_mode city_positions city_radius
    vector_field rails_between_cities rail_pairs_in_city np_random = Ok plan ->
  forall (k : nat) city_position,
    city_positions !! k = Some city_position ->
    exists sides d,
      outer_connection_points plan !! k = Some sides
      /\ city_orientations plan !! k = Some d
      /\ 0 <= d < 4
      /\ length sides = 4%nat
      /\ (forall direction, 0 <= direction < 4 ->
          sides !! Z.to_nat direction
          = Some (if (direction =? d) || (direction =? (d + 2) mod 4)
                  then [outer_point city_position city_radius direction 0;
                        outer_point city_position city_radius direction 1]
                  else []))
      /\ (grid_mode = false ->
          exists closest neighbour,
            argsort (get_manhattan_distance city_position <$> city_positions)
              !! 1%nat = Some closest
            /\ city_positions !! closest = Some neighbour
            /\ d = direction_value (direction_to_point city_position neighbour)).
Proof.
  intros Hrun k city_position Hcity.
  apply generate_city_connection_points_outer in Hrun as [_ Hall].
  destruct (Hall k city_position Hcity)
    as (sides & d & Hsides & Hd & (Hrange & Hlen & Hpoints) & Hfacing).
  by exists sides, d.
Qed.

End OuterPoints.

Lemma outer_connection_points_two_per_side_witness :
  exists plan sides d,
    _generate_city_connection_points (R:=ScriptedRNG) (F:=SketchFlatland)
      false sample_cities 4 sample_vector_field 2 2 ([0; 1; 0], []) = Ok plan
    /\ outer_connection_points plan !! 1%nat = Some sides
    /\ city_orientations plan !! 1%nat = Some d
    /\ 0 <= d < 4
    /\ length sides = 4%nat
    /\ (forall direction, 0 <= direction < 4 ->
        sides !! Z.to_nat direction
        = Some (if (direction =? d) || (direction =? (d + 2) mod 4)
                then [outer_point (18, 12) 4 direction 0;
                      outer_point (18, 12) 4 direction 1]
                else []))
    /\ (false = false ->
        exists closest neighbour,
          argsort (get_manhattan_distance (18, 12) <$> sample_cities)
            !! 1%nat = Some closest
          /\ sample_cities !! closest = Some neighbour
          /\ d = direction_value
                   (direction_to_point (Flatland:=SketchFlatland) (18, 12)
                      neighbour)).
Proof.
  destruct sample_plan_run as (plan & Hrun & _).
  destruct (outer_connection_points_two_per_side (R:=ScriptedRNG)
              (F:=SketchFlatland) false sample_cities 4 sample_vector_field
              2 2 ([0; 1; 0], []) plan Hrun 1%nat (18, 12) eq_refl)
    as (sides & d & Hspec).
  exists plan, sides, d. split; [exact Hrun|exact Hspec].
Defined.

(** ** One or two cities: the connector has no second neighbour *)

(** A run without a result. *)
Definition no_result {A} (o : outcome A) : Prop :=
  match o with Ok _ => False | _ => True end.

Lemma no_result_bind {A B} (o : outcome A) (f : A -> outcome B) :
  no_result o \/ (forall a, o = Ok a -> no_result (f a)) ->
  no_result (o ≫= f).
Proof.
  intros [Ho|Hf]; destruct o as [a| |]; osimpl; try done. by apply Hf.
Qed.

Lemma py_index_beyond {A} (l : list A) (i : Z) :
  len l <= i -> py_index l i = Raise IndexError.
Proof.
  intros Hi. pose proof (len_nonneg l).
  rewrite py_index_nonneg by lia.
  rewrite lookup_ge_None_2; [done|]. unfold len in Hi. lia.
Qed.

Section FewCitiesConnector.
Context {N : Numpy} {F : Flatland}.

Lemma odd_step_keeps_i (city_cells : list (Z * Z)) (point : Z * Z)
    (st st' : connect_locals) (d d' : drawing) :
  odd_step city_cells point st d = Ok (st', d') -> cs_i st' = cs_i st.
Proof.
  unfold odd_step, append_connection. intros Hrun.
  destruct (read_local (city_direction st)) as [city_dir| |];
    osimpl in Hrun; [|done..].
  destruct (read_local (neighbour_connection_point st)) as [p| |];
    osimpl in Hrun; [|done..].
  destruct (read_local (last_city_out_connection_point st)) as [last_out| |];
    osimpl in Hrun; [|done..].
  destruct (tracks_cross city_dir p last_out).
  - destruct (read_local (next_neighbour_connection_point st)) as [q| |];
      osimpl in Hrun; [|done..].
    destruct (read_local (possible_connection st)) as [c| |];
      osimpl in Hrun; [|done..].
    by injection Hrun as <- _.
  - destruct (read_local (possible_connection st)) as [c| |];
      osimpl in Hrun; [|done..].
    cbn [next_neighbour_connection_point] in Hrun.
    destruct (read_local (next_neighbour_connection_point st)) as [q| |];
      osimpl in Hrun; [|done..].
    by injection Hrun as <- _.
Qed.

(** A search for the neighbour of rank 2 among two cities. *)
Lemma search_closest_no_second (closest_neighb_idx : list Z) (point : Z * Z)
    (st : connect_locals) :
  len closest_neighb_idx <= 2 ->
  search_closest 2 closest_neighb_idx point st = Raise IndexError.
Proof.
  intros Hlen. unfold search_closest. cbn [for_fold].
  by rewrite py_index_beyond.
Qed.

Lemma connect_point_no_second (city_positions city_cells : list (Z * Z))
    (idx : Z) (city_position : Z * Z) (closest_neighb_idx : list Z)
    (s : connect_locals * drawing) (point : Z * Z) :
  len closest_neighb_idx <= 2 ->
  match connect_point 2 city_positions city_cells idx city_position
          closest_neighb_idx s point with
  | Ok s' => cs_i s.1 mod 2 <> 0 /\ cs_i s'.1 = cs_i s.1 + 1
  | _ => True
  end.
Proof.
  intros Hlen. unfold connect_point.
  destruct (Z.eqb_spec (cs_i s.1 mod 2) 0) as [Heven|Hodd].
  - unfold even_step. by rewrite search_closest_no_second.
  - destruct (odd_step city_cells point s.1 s.2) as [[st d]| |] eqn:Hstep;
      osimpl; [|done..].
    apply odd_step_keeps_i in Hstep. cbn. split; [done|lia].
Qed.

(** A pass of rank 2 over two points or more gives no result. *)
Lemma side_pass_no_second (city_positions : list (Z * Z))
    (connection_points : list (list (list (Z * Z))))
    (city_cells : list (Z * Z)) (idx : Z) (city_position : Z * Z)
    (closest_neighb_idx : list Z) (out_direction : Z)
    (s : connect_locals * drawing) (sides : list (list (Z * Z)))
    (p q : Z * Z) (rest : list (Z * Z)) :
  len closest_neighb_idx <= 2 ->
  py_index connection_points idx = Ok sides ->
  py_index sides out_direction = Ok (p :: q :: rest) ->
  no_result
    (side_pass 2 city_positions connection_points city_cells idx city_position
       closest_neighb_idx out_direction s).
Proof.
  intros Hlen Hsides Hpoints. unfold side_pass.
  rewrite Hsides. osimpl. rewrite Hpoints. osimpl.
  rewrite for_fold_cons.
  set (s0 := (set_copy connection_points s.1, s.2)).
  pose proof (connect_point_no_second city_positions city_cells idx
                city_position closest_neighb_idx s0 p Hlen) as Hfirst.
  destruct (connect_point 2 _ _ _ _ _ s0 p) as [s1| |]; osimpl; [|exact I..].
  destruct Hfirst as [Hodd Hnext]. rewrite for_fold_cons.
  pose proof (connect_point_no_second city_positions city_cells idx
                city_position closest_neighb_idx s1 q Hlen) as Hsecond.
  destruct (connect_point 2 _ _ _ _ _ s1 q) as [s2| |]; osimpl; [|exact I..].
  destruct Hsecond as [Hodd' _]. rewrite Hnext in Hodd'.
  pose proof (Z.mod_pos_bound (cs_i s0.1) 2 ltac:(lia)).
  pose proof (Z.mod_pos_bound (cs_i s0.1 + 1) 2 ltac:(lia)).
  pose proof (Z.div_mod (cs_i s0.1) 2 ltac:(lia)).
  pose proof (Z.div_mod (cs_i s0.1 + 1) 2 ltac:(lia)).
  lia.
Qed.

(** The first city of a list of one or two cities cannot be connected. *)
Lemma connect_city_few (city_positions : list (Z * Z))
    (connection_points : list (list (list (Z * Z))))
    (city_cells : list (Z * Z)) (s : connect_locals * drawing)
    (city_position : Z * Z) (city_radius d : Z) (sides : list (list (Z * Z))) :
  (1 <= length city_positions <= 2)%nat ->
  city_positions !! 0%nat = Some city_position ->
  connection_points !! 0%nat = Some sides ->
  outer_planned city_position city_radius sides d ->
  no_result (connect_city city_positions connection_points city_cells s 0).
Proof.
  intros Hlen Hcity Hsides (Hd & Hlen_sides & Hpoints). unfold connect_city.
  apply no_result_bind. right. intros unused _.
  rewrite (py_index_nat _ 0), Hcity. osimpl. cbv zeta.
  set (closest_neighb_idx :=
         Z.of_nat <$> argsort (get_manhattan_distance city_position
                                 <$> city_positions)).
  assert (Hidx : len closest_neighb_idx = len city_positions).
  { unfold closest_neighb_idx, len.
    rewrite length_fmap, (Permutation_length (argsort_perm _)).
    by rewrite length_seq, length_fmap. }
  assert (Hshort : len closest_neighb_idx <= 2) by (unfold len in *; lia).
  unfold out_directions.
  destruct (py_index closest_neighb_idx 1) as [closest| |]; osimpl; [|done..].
  destruct (py_index city_positions closest) as [closest_position| |];
    osimpl; [|done..].
  pose proof (direction_value_range
                (direction_to_point city_position closest_position)) as Hcd.
  set (cd := direction_value (direction_to_point city_position closest_position))
    in *.
  rewrite (py_index_nat _ 0), Hsides. osimpl.
  rewrite (py_index_nonneg _ cd), (Hpoints cd Hcd) by lia. osimpl.
  destruct ((cd =? d) || (cd =? (d + 2) mod 4)) eqn:Hactive.
  { rewrite bool_decide_eq_false_2 by done.
    by rewrite (py_index_beyond closest_neighb_idx 2). }
  rewrite bool_decide_eq_true_2 by done. osimpl.
  apply no_result_bind. right. intros s1 _.
  set (d1 := (cd + 1) mod 4). set (d2 := (d1 + 2) mod 4).
  assert (Hd1 : 0 <= d1 < 4) by (apply Z.mod_pos_bound; lia).
  assert (Hd2 : 0 <= d2 < 4) by (apply Z.mod_pos_bound; lia).
  apply orb_false_iff in Hactive as [Hne1 Hne2].
  apply Z.eqb_neq in Hne1, Hne2.
  assert (Hd_cases : d = 0 \/ d = 1 \/ d = 2 \/ d = 3) by lia.
  assert (Hcd_cases : cd = 0 \/ cd = 1 \/ cd = 2 \/ cd = 3) by lia.
  assert (Hd2_active : (d2 =? d) || (d2 =? (d + 2) mod 4) = true).
  { apply orb_true_iff. rewrite !Z.eqb_eq. unfold d2, d1 in *.
    clear -Hd_cases Hcd_cases Hne1 Hne2. clearbody cd.
    destruct Hd_cases as [-> | [-> | [-> | ->]]];
      destruct Hcd_cases as [-> | [-> | [-> | ->]]];
      vm_compute in Hne1, Hne2 |- *; first [done|by left|by right]. }
  assert (Hdiffer : d1 <> d2).
  { unfold d2, d1. clear -Hcd_cases. clearbody cd.
    destruct Hcd_cases as [-> | [-> | [-> | ->]]]; vm_compute; done. }
  destruct (Z.eqb_spec d1 d2) as [|_]; [done|]. cbn [negb].
  eapply side_pass_no_second; [exact Hshort| |].
  - by rewrite (py_index_nat _ 0), Hsides.
  - rewrite (py_index_nonneg _ d2), (Hpoints d2 Hd2), Hd2_active by lia. done.
Qed.

Lemma connect_cities_few (city_positions : list (Z * Z))
    (connection_points : list (list (list (Z * Z))))
    (city_cells : list (Z * Z)) (grid : GridTransitionMap) (log : list warning)
    (city_position : Z * Z) (city_radius d : Z) (sides : list (list (Z * Z))) :
  (1 <= length city_positions <= 2)%nat ->
  city_positions !! 0%nat = Some city_position ->
  connection_points !! 0%nat = Some sides ->
  outer_planned city_position city_radius sides d ->
  no_result
    (_connect_cities city_positions connection_points city_cells grid log).
Proof.
  intros Hlen Hcity Hsides Hplanned. unfold _connect_cities.
  assert (Hfirst : exists idxs, np_arange 0 (len city_positions) = 0 :: idxs).
  { unfold np_arange, range, len. rewrite Z.sub_0_r, Nat2Z.id.
    destruct (length city_positions) as [|n]; [lia|]. by eexists. }
  destruct Hfirst as [idxs ->]. rewrite for_fold_cons.
  pose proof (connect_city_few city_positions connection_points city_cells
                (initial_locals,
                 {| all_paths := []; dr_grid_map := grid; dr_log := log |})
                city_position city_radius d sides Hlen Hcity Hsides Hplanned)
    as Hno.
  by destruct (connect_city _ _ _ _ 0) as [s| |].
Qed.

End FewCitiesConnector.

Section FewCitiesGenerate.
Context {R : RNG} {N : Numpy} {F : Flatland}.

(** X12. [generate] never returns a map with exactly one or exactly two
    cities: [_connect_cities] reads the second closest neighbour of a city
    ([closest_neighb_idx[2]]), which does not exist then, so the call ends
    in an exception. A map that is returned has no city or at least
    three. *)
Theorem generate_never_one_or_two_cities (self : SparseRailGen) (fuel : nat)
    (width height num_agents num_resets : Z)
    (np_random : option (rng_state R)) (global_draw : Z)
    (product : RailGeneratorProduct) :
  generate self fuel width height num_agents num_resets np_random global_draw
    = Ok product ->
  hint_city_positions product = [] \/ 3 <= len (hint_city_positions product).
Proof.
  intros Hrun. unfold generate in Hrun.
  destruct (choose_np_random self np_random global_draw) as [rs| |];
    osimpl in Hrun; [|done..].
  destruct (np_full height width (-1)) as [field| |]; osimpl in Hrun; [|done..].
  destruct (_ <? 2); [done|].
  unfold build_network in Hrun. cbv zeta in Hrun.
  destruct (place_cities _ _ _ _ _ _ _ _) as [[[ps rs1] log1]| |];
    osimpl in Hrun; [|done..].
  destruct (_generate_city_connection_points _ _ _ _ _ _ _) as [plan| |]
    eqn:Hplan; osimpl in Hrun; [|done..].
  destruct (_connect_cities _ _ _ _ _) as [lines| |] eqn:Hlines;
    osimpl in Hrun; [|done..].
  destruct (_build_inner_cities _ _ _ _) as [[free_rails grid]| |];
    osimpl in Hrun; [|done..].
  destruct (_set_trainstation_positions _ _ _) as [stations| |];
    osimpl in Hrun; [|done..].
  destruct (_fix_transitions _ _ _ _ _ _) as [grid'| |];
    osimpl in Hrun; [|done..].
  injection Hrun as <-. cbn [hint_city_positions].
  destruct ps as [|c0 rest]; [by left|]. right.
  destruct (decide (length (c0 :: rest) <= 2)%nat) as [Hfew|Hmany];
    [|unfold len; lia].
  apply generate_city_connection_points_outer in Hplan as [_ Hall].
  destruct (Hall 0%nat c0 eq_refl) as (sides & d & Hsides & _ & Hplanned & _).
  pose proof (connect_cities_few (c0 :: rest) (outer_connection_points plan)
                (city_cells plan) (new_grid_map width height) log1 c0
                (city_radius_of self) d sides
                ltac:(cbn in *; lia) eq_refl Hsides Hplanned) as Hno.
  by rewrite Hlines in Hno.
Qed.

End FewCitiesGenerate.

(** The four grid cities of the 25 x 25 example. *)
Lemma generate_never_one_or_two_cities_witness :
  exists product,
    generate (R:=ScriptedRNG) (N:=ExactNumpy) (F:=SketchFlatland) sparse4 0
      25 25 1 0 (Some middle_first) 0 = Ok product
    /\ (hint_city_positions product = []
        \/ 3 <= len (hint_city_positions product)).
Proof.
  destruct sparse4_run as (product & Hrun & _).
  exists product. split; [exact Hrun|].
  exact (generate_never_one_or_two_cities (R:=ScriptedRNG) (N:=ExactNumpy)
           (F:=SketchFlatland) sparse4 0 25 25 1 0 (Some middle_first) 0
           product Hrun).
Defined.

(** ** The hints of [generate], city by city *)

Section InnerCityTracks.
Context {F : Flatland}.

(** The first side with inner points of a planned city is one of its two
    active sides. *)
Lemma find_boarder_planned (city_position : Z * Z)
    (city_radius rail_pairs_in_city : Z) (sides : list (list (Z * Z))) (d : Z)
    (previous : option Z) :
  city_planned city_position city_radius rail_pairs_in_city sides d ->
  exists boarder draw,
    find_boarder sides (range 4) previous = Ok (Some boarder)
    /\ 0 <= boarder < 4
    /\ 1 <= draw <= rail_pairs_in_city
    /\ py_index sides boarder
       = Ok (inner_point city_position city_radius boarder (2 * draw)
               <$> range (2 * draw)).
Proof.
  intros (Hd & Hlen & draw & Hdraw & Hpoints).
  assert (Hside : forall direction, 0 <= direction < 4 ->
            py_index sides direction
            = Ok (if (direction =? d) || (direction =? (d + 2) mod 4)
                  then inner_point city_position city_radius direction (2 * draw)
                         <$> range (2 * draw)
                  else [])).
  { intros direction Hdirection.
    by rewrite py_index_nonneg, Hpoints by lia. }
  assert (Hpositive : forall direction,
            (0 <? len (inner_point city_position city_radius direction
                         (2 * draw) <$> range (2 * draw))) = true).
  { intros direction. apply Z.ltb_lt. unfold len.
    rewrite length_fmap, length_range. lia. }
  change (range 4) with [0; 1; 2; 3].
  assert (Hd_cases : d = 0 \/ d = 1 \/ d = 2 \/ d = 3) by lia.
  destruct Hd_cases as [-> | [-> | [-> | ->]]].
  - exists 0, draw. cbn [find_boarder]. rewrite (Hside 0) by lia.
    osimpl. cbn [Z.eqb orb]. rewrite Hpositive.
    split; [done|]. split; [lia|]. split; [done|]. done.
  - exists 1, draw. cbn [find_boarder]. rewrite (Hside 0), (Hside 1) by lia.
    osimpl. change ((1 + 2) mod 4) with 3. cbn [Z.eqb Pos.eqb orb len length].
    cbn [Z.ltb Z.compare Z.of_nat]. osimpl. rewrite Hpositive.
    split; [done|]. split; [lia|]. split; [done|]. done.
  - exists 0, draw. cbn [find_boarder]. rewrite (Hside 0) by lia.
    osimpl. change ((2 + 2) mod 4) with 0. cbn [Z.eqb orb]. rewrite Hpositive.
    split; [done|]. split; [lia|]. split; [done|]. done.
  - exists 1, draw. cbn [find_boarder]. rewrite (Hside 0), (Hside 1) by lia.
    osimpl. change ((3 + 2) mod 4) with 1. cbn [Z.eqb Pos.eqb orb len length].
    cbn [Z.ltb Z.compare Z.of_nat]. osimpl. rewrite Hpositive.
    split; [done|]. split; [lia|]. split; [done|]. done.
Qed.

(** The loop that draws the parallel tracks appends one track per index. *)
Lemma tracks_loop_length {A} (step : GridTransitionMap -> A -> outcome (list (Z * Z) * GridTransitionMap))
    (idxs : list A) (acc acc' : list (list (Z * Z)) * GridTransitionMap) :
  for_fold (fun acc x => '(track, grid) ← step acc.2 x;
                         Ok (acc.1 ++ [track], grid)) idxs acc = Ok acc' ->
  length acc'.1 = (length acc.1 + length idxs)%nat.
Proof.
  revert acc. induction idxs as [|x idxs IH]; intros acc; cbn [for_fold].
  { intros [= <-]. cbn. lia. }
  destruct (step acc.2 x) as [[track grid]| |]; osimpl; [|done..].
  intros Hrest. apply IH in Hrest. cbn in Hrest.
  rewrite length_app in Hrest. cbn in *. lia.
Qed.

Lemma build_inner_city_tracks
    (inner_connection_points outer_connection_points : list (list (list (Z * Z))))
    (st st' : inner_state) (current_city : nat) (city_position : Z * Z)
    (city_radius rail_pairs_in_city : Z) (sides : list (list (Z * Z))) (d : Z) :
  inner_connection_points !! current_city = Some sides ->
  city_planned city_position city_radius rail_pairs_in_city sides d ->
  build_inner_city inner_connection_points outer_connection_points st
    (Z.of_nat current_city) = Ok st' ->
  exists tracks draw,
    free_rails st' = free_rails st ++ [tracks]
    /\ 1 <= draw <= rail_pairs_in_city
    /\ len tracks = 2 * draw.
Proof.
  intros Hsides Hplanned. unfold build_inner_city.
  rewrite (py_index_nat inner_connection_points), Hsides. osimpl.
  destruct (find_boarder_planned city_position city_radius rail_pairs_in_city
              sides d (in_boarder st) Hplanned)
    as (boarder & draw & -> & Hboarder & Hdraw & Hpoints).
  osimpl. cbn [read_local]. osimpl. rewrite Hpoints. osimpl. cbv zeta.
  destruct (py_index outer_connection_points _) as [outer_sides| |];
    osimpl; [|done..].
  destruct (py_index outer_sides boarder) as [outer_points| |];
    osimpl; [|done..].
  set (boarder_points := inner_point _ _ _ _ <$> _).
  destruct (for_fold _ (range (len boarder_points)) ([], in_grid_map st))
    as [[tracks grid]| |] eqn:Htracks; osimpl; [|done..].
  destruct (for_fold _ _ grid) as [grid'| |]; osimpl; [|done..].
  intros [= <-]. cbn [free_rails]. exists tracks, draw.
  split; [done|]. split; [done|].
  pose proof (tracks_loop_length
                (fun grid track_id =>
                   source ← py_index boarder_points track_id;
                   opposite_points ← py_index sides ((boarder + 2) mod 4);
                   target ← py_index opposite_points track_id;
                   Ok (connect_straight_line_in_grid_map grid source target))
                (range (len boarder_points)) ([], in_grid_map st)
                (tracks, grid)) as Hlen.
  cbn [fst snd length] in Hlen. unfold len. rewrite Hlen.
  - rewrite length_range. unfold boarder_points, len.
    rewrite length_fmap, length_range. lia.
  - rewrite <- Htracks. clear.
    generalize (range (len boarder_points)) as idxs.
    generalize (([], in_grid_map st) : list (list (Z * Z)) * GridTransitionMap).
    intros acc idxs. revert acc.
    induction idxs as [|x idxs IH]; intros acc; [done|].
    rewrite !for_fold_cons. cbv beta.
    destruct (py_index boarder_points x) as [source| |]; osimpl; [|done..].
    destruct (py_index sides _) as [opposite_points| |]; osimpl; [|done..].
    destruct (py_index opposite_points x) as [target| |]; osimpl; [|done..].
    destruct (connect_straight_line_in_grid_map acc.2 source target)
      as [track grid0]. apply IH.
Qed.

(** All cities: one list of tracks per city, with an even number of
    tracks. *)
Lemma build_inner_cities_loop
    (inner_connection_points outer_connection_points : list (list (list (Z * Z))))
    (city_radius rail_pairs_in_city : Z) (first count : nat)
    (st st' : inner_state) :
  (forall k, (first <= k < first + count)%nat ->
     exists sides city_position d,
       inner_connection_points !! k = Some sides
       /\ city_planned city_position city_radius rail_pairs_in_city sides d) ->
  for_fold (build_inner_city inner_connection_points outer_connection_points)
    (Z.of_nat <$> seq first count) st = Ok st' ->
  exists new,
    free_rails st' = free_rails st ++ new
    /\ length new = count
    /\ Forall (fun tracks => exists draw,
                 1 <= draw <= rail_pairs_in_city /\ len tracks = 2 * draw) new.
Proof.
  revert first st. induction count as [|count IH]; intros first st Hplanned.
  { cbn. intros [= <-]. exists []. by rewrite app_nil_r. }
  cbn [seq fmap list_fmap]. rewrite for_fold_cons.
  destruct (build_inner_city _ _ st (Z.of_nat first)) as [st1| |] eqn:Hcity;
    osimpl; [|done..].
  intros Hrest.
  destruct (Hplanned first) as (sides & city_position & d & Hsides & Hcp); [lia|].
  destruct (build_inner_city_tracks _ _ _ _ _ _ _ _ _ _ Hsides Hcp Hcity)
    as (tracks & draw & Hfree & Hdraw & Hlen).
  apply IH in Hrest as (new & Hnew & Hcount & Hall).
  2: { intros k Hk. apply Hplanned. lia. }
  exists (tracks :: new). rewrite Hnew, Hfree, <- app_assoc.
  split; [done|]. split; [cbn; lia|]. constructor; [by exists draw|done].
Qed.

End InnerCityTracks.

Section HintsPerCity.
Context {R : RNG} {N : Numpy} {F : Flatland}.

(** X13. The three hint lists that [generate] returns are aligned: one
    orientation and one list of train stations per city. Every orientation
    is a direction from 0 to 3. The stations of a city are numbered 0, 1,
    2, ... in order, and their number is even: twice a draw between 1 and
    the number of rail pairs of a city. *)
Theorem generate_hints_per_city (self : SparseRailGen) (fuel : nat)
    (width height num_agents num_resets : Z)
    (np_random : option (rng_state R)) (global_draw : Z)
    (product : RailGeneratorProduct) :
  generate self fuel width height num_agents num_resets np_random global_draw
    = Ok product ->
  length (hint_city_orientations product)
    = length (hint_city_positions product)
  /\ length (hint_train_stations product)
     = length (hint_city_positions product)
  /\ (forall orientation, orientation ∈ hint_city_orientations product ->
      0 <= orientation < 4)
  /\ (forall stations, stations ∈ hint_train_stations product ->
      (exists draw, 1 <= draw <= rail_pairs_in_city_of self
                    /\ len stations = 2 * draw)
      /\ forall (k : nat) station, stations !! k = Some station ->
           station.2 = Z.of_nat k).
Proof.
  intros Hrun. unfold generate in Hrun.
  destruct (choose_np_random self np_random global_draw) as [rs| |];
    osimpl in Hrun; [|done..].
  destruct (np_full height width (-1)) as [field| |]; osimpl in Hrun; [|done..].
  destruct (_ <? 2); [done|].
  unfold build_network in Hrun. cbv zeta in Hrun.
  destruct (place_cities _ _ _ _ _ _ _ _) as [[[ps rs1] log1]| |];
    osimpl in Hrun; [|done..].
  destruct (_generate_city_connection_points _ _ _ _ _ _ _) as [plan| |]
    eqn:Hplan; osimpl in Hrun; [|done..].
  destruct (_connect_cities _ _ _ _ _) as [lines| |];
    osimpl in Hrun; [|done..].
  destruct (_build_inner_cities _ _ _ _) as [[rails grid]| |] eqn:Hinner;
    osimpl in Hrun; [|done..].
  destruct (_set_trainstation_positions _ _ _) as [stations| |] eqn:Hstations;
    osimpl in Hrun; [|done..].
  destruct (_fix_transitions _ _ _ _ _ _) as [grid'| |];
    osimpl in Hrun; [|done..].
  injection Hrun as <-.
  cbn [hint_city_positions hint_city_orientations hint_train_stations].
  apply generate_city_connection_points_planned in Hplan
    as (Hlen_inner & Hlen_orient & Hplanned).
  (* the free rails *)
  unfold _build_inner_cities in Hinner.
  destruct (for_fold _ _ _) as [st| |] eqn:Hloop; osimpl in Hinner; [|done..].
  injection Hinner as <- _.
  unfold range, len in Hloop. rewrite Nat2Z.id in Hloop.
  apply (build_inner_cities_loop _ _ (city_radius_of self)
           (rail_pairs_in_city_of self)) in Hloop
    as (new & Hnew & Hcount & Hall).
  2: { intros k Hk.
       destruct (lookup_lt_is_Some_2 ps k) as [city Hcity]; [lia|].
       destruct (Hplanned k city Hcity) as (sides & d & Hsides & _ & Hcp).
       by exists sides, city, d. }
  cbn [free_rails app] in Hnew. subst new.
  (* the stations *)
  unfold _set_trainstation_positions in Hstations.
  pose proof (for_append_length _ _ _ Hstations) as Hlen_stations.
  rewrite length_range in Hlen_stations. unfold len in Hlen_stations.
  rewrite Nat2Z.id in Hlen_stations.
  split; [done|]. split; [done|]. split.
  - intros orientation [k Hk]%list_elem_of_lookup.
    destruct (lookup_lt_is_Some_2 ps k) as [city Hcity].
    { apply lookup_lt_Some in Hk. lia. }
    destruct (Hplanned k city Hcity) as (sides & d & _ & Hd & Hrange & _).
    rewrite Hk in Hd. injection Hd as ->. done.
  - intros city_stations [k Hk]%list_elem_of_lookup.
    destruct (for_append_lookup _ _ _ _ _ Hstations Hk) as (i & Hi & Hcity).
    apply lookup_range in Hi as [-> _].
    rewrite py_index_nat in Hcity.
    destruct (free_rails st !! k) as [tracks|] eqn:Htracks;
      osimpl in Hcity; [|done].
    pose proof (for_append_length _ _ _ Hcity) as Hlen_city.
    rewrite length_range in Hlen_city. unfold len in Hlen_city.
    rewrite Nat2Z.id in Hlen_city. split.
    + rewrite Forall_forall in Hall.
      destruct (Hall tracks) as (draw & Hdraw & Hlen_tracks);
        [by eapply list_elem_of_lookup_2|].
      exists draw. split; [done|]. unfold len in *. lia.
    + intros j station Hj.
      destruct (for_append_lookup _ _ _ _ _ Hcity Hj) as (i & Hi & Hstation).
      apply lookup_range in Hi as [-> _].
      unfold station_on_track in Hstation.
      destruct (py_index tracks _) as [track| |]; osimpl in Hstation; [|done..].
      destruct (py_index track _) as [location| |]; osimpl in Hstation; [|done..].
      by injection Hstation as <-.
Qed.

End HintsPerCity.

Lemma generate_hints_per_city_witness :
  exists product,
    generate (R:=ScriptedRNG) (N:=ExactNumpy) (F:=SketchFlatland) sparse4 0
      25 25 1 0 (Some middle_first) 0 = Ok product
    /\ length (hint_city_orientations product)
       = length (hint_city_positions product)
    /\ length (hint_train_stations product)
       = length (hint_city_positions product)
    /\ (forall orientation, orientation ∈ hint_city_orientations product ->
        0 <= orientation < 4)
    /\ (forall stations, stations ∈ hint_train_stations product ->
        (exists draw, 1 <= draw <= rail_pairs_in_city_of sparse4
                      /\ len stations = 2 * draw)
        /\ forall (k : nat) station, stations !! k = Some station ->
             station.2 = Z.of_nat k).
Proof.
  destruct sparse4_run as (product & Hrun & _).
  exists product. split; [exact Hrun|].
  exact (generate_hints_per_city (R:=ScriptedRNG) (N:=ExactNumpy)
           (F:=SketchFlatland) sparse4 0 25 25 1 0 (Some middle_first) 0
           product Hrun).
Defined.

(** ** When [_set_trainstation_positions] fails *)

Lemma for_append_Ok_all {A B} (f : A -> outcome B) (l : list A) (ys : list B) :
  for_append f l = Ok ys -> forall x, x ∈ l -> exists y, f x = Ok y.
Proof.
  revert ys. induction l as [|x0 l IH]; intros ys Hrun x Hx.
  { by apply elem_of_nil in Hx. }
  cbn [for_append] in Hrun.
  destruct (f x0) as [y0| |] eqn:Hx0; osimpl in Hrun; [|done..].
  destruct (for_append f l) as [ys'| |]; osimpl in Hrun; [|done..].
  apply elem_of_cons in Hx as [->|Hx]; [by exists y0|]. by eapply IH.
Qed.

Lemma for_append_index_error {A B} (f : A -> outcome B) (l : list A) :
  (forall x, x ∈ l -> (exists y, f x = Ok y) \/ f x = Raise IndexError) ->
  (exists ys, for_append f l = Ok ys) \/ for_append f l = Raise IndexError.
Proof.
  induction l as [|x l IH]; intros Hf; [left; by exists []|].
  cbn [for_append].
  destruct (Hf x) as [[y ->]| ->]; [left| |by right]. osimpl.
  destruct IH as [[ys ->]| ->]; [intros x' Hx'; apply Hf; by right| |by right].
  left. by eexists.
Qed.

Lemma py_index_index_error {A} (l : list A) (i : Z) :
  (exists x, py_index l i = Ok x) \/ py_index l i = Raise IndexError.
Proof.
  unfold py_index. destruct (_ <? 0); [by right|].
  destruct (l !! _); [left; by eexists|by right].
Qed.

(** X14. [_set_trainstation_positions] returns exactly when [free_rails]
    has an entry for every city and none of the tracks of these entries is
    empty; in every other case it raises [IndexError], and it raises nothing
    else. *)
Theorem set_trainstation_positions_fails_iff
    (city_positions : IntVector2DArray) (city_radius : Z)
    (free_rails : list (list IntVector2DArray)) :
  ((exists train_stations,
      _set_trainstation_positions city_positions city_radius free_rails
      = Ok train_stations)
   <-> (length city_positions <= length free_rails)%nat
       /\ forall (city : nat) tracks,
            (city < length city_positions)%nat ->
            free_rails !! city = Some tracks -> [] ∉ tracks)
  /\ ((exists train_stations,
         _set_trainstation_positions city_positions city_radius free_rails
         = Ok train_stations)
      \/ _set_trainstation_positions city_positions city_radius free_rails
         = Raise IndexError).
Proof.
  unfold _set_trainstation_positions. split; [split|].
  - intros [ts Hrun].
    assert (Hcity : forall city, (city < length city_positions)%nat ->
              exists tracks, free_rails !! city = Some tracks /\ [] ∉ tracks).
    { intros city Hcity.
      destruct (for_append_Ok_all _ _ _ Hrun (Z.of_nat city)) as [stations Hst].
      { unfold range, len. rewrite Nat2Z.id. apply list_elem_of_fmap.
        exists city. split; [done|]. apply elem_of_seq. lia. }
      rewrite py_index_nat in Hst.
      destruct (free_rails !! city) as [tracks|]; osimpl in Hst; [|done].
      exists tracks. split; [done|].
      intros [k Hk]%list_elem_of_lookup.
      destruct (for_append_Ok_all _ _ _ Hst (Z.of_nat k)) as [station Hstation].
      { unfold range, len. rewrite Nat2Z.id. apply list_elem_of_fmap.
        exists k. split; [done|]. apply elem_of_seq.
        apply lookup_lt_Some in Hk. lia. }
      unfold station_on_track in Hstation.
      rewrite py_index_nat, Hk in Hstation. osimpl in Hstation. done. }
    split.
    + destruct (Nat.le_gt_cases (length city_positions) (length free_rails))
        as [|Hshort]; [done|].
      destruct (Hcity (length free_rails) Hshort) as (tracks & Htracks & _).
      apply lookup_lt_Some in Htracks. lia.
    + intros city tracks Hlt Htracks.
      destruct (Hcity city Hlt) as (tracks' & Htracks' & Hne). congruence.
  - intros [Hlen Hne]. eexists.
    apply (for_append_ok _
             (fun z => stations_of_tracks (default [] (free_rails !! Z.to_nat z)))).
    intros z Hz. unfold len in Hz. rewrite range_len_seq in Hz.
    apply list_elem_of_fmap in Hz as (city & -> & Hcity).
    apply elem_of_seq in Hcity.
    destruct (lookup_lt_is_Some_2 free_rails city) as [tracks Htracks]; [lia|].
    rewrite py_index_nat, Htracks. osimpl.
    rewrite stations_of_city_ok.
    + by rewrite Nat2Z.id, Htracks.
    + intros track Htrack ->. by eapply (Hne city tracks); [lia|..].
  - apply for_append_index_error. intros z _.
    destruct (py_index_index_error free_rails z) as [[tracks ->]| ->];
      [|by right]. osimpl.
    apply for_append_index_error. intros k _. unfold station_on_track.
    destruct (py_index_index_error tracks k) as [[track ->]| ->];
      [|by right]. osimpl.
    destruct (py_index_index_error track (int_half (len track)))
      as [[location ->]| ->]; [|by right]. osimpl.
    left. by eexists.
Qed.

(** ** The cells of a city: [_get_cells_in_city] *)

Lemma elem_of_np_arange (a b x : Z) : x ∈ np_arange a b <-> a <= x < b.
Proof.
  unfold np_arange, range. rewrite list_elem_of_fmap. split.
  - intros (k & -> & (i & -> & Hi)%list_elem_of_fmap).
    apply elem_of_seq in Hi. lia.
  - intros Hx. exists (x - a). split; [lia|].
    apply list_elem_of_fmap. exists (Z.to_nat (x - a)). split; [lia|].
    apply elem_of_seq. lia.
Qed.

Lemma length_np_arange (a b : Z) : length (np_arange a b) = Z.to_nat (b - a).
Proof. unfold np_arange. by rewrite length_fmap, length_range. Qed.

Lemma NoDup_np_arange (a b : Z) : NoDup (np_arange a b).
Proof.
  unfold np_arange, range. rewrite <- list_fmap_compose.
  apply NoDup_fmap_2; [|apply NoDup_seq].
  intros i j Hij. cbn in Hij. lia.
Qed.

(** The square of a city as a list of cells, row by row. *)
Definition city_square (center : Z * Z) (radius : Z) : list (Z * Z) :=
  np_arange (center.1 - radius) (center.1 + radius + 1)
  ≫= (fun x => pair x <$> np_arange (center.2 - radius) (center.2 + radius + 1)).

Lemma elem_of_city_square (center : Z * Z) (radius : Z) (cell : Z * Z) :
  cell ∈ city_square center radius <-> chebyshev cell center <= radius.
Proof.
  unfold city_square, chebyshev. rewrite list_elem_of_bind.
  destruct cell as [x y]. cbn [fst snd]. split.
  - intros (x' & Hy & Hx). apply list_elem_of_fmap in Hy as (y' & [= -> ->] & Hy).
    apply elem_of_np_arange in Hx, Hy. lia.
  - intros Hd. exists x. split; [|apply elem_of_np_arange; lia].
    apply list_elem_of_fmap. exists y. split; [done|].
    apply elem_of_np_arange. lia.
Qed.

Lemma length_city_square (center : Z * Z) (radius : Z) :
  0 <= radius ->
  len (city_square center radius) = (2 * radius + 1) * (2 * radius + 1).
Proof.
  intros Hr. unfold city_square, len.
  generalize (np_arange (center.2 - radius) (center.2 + radius + 1)) as ys,
             (length_np_arange (center.2 - radius) (center.2 + radius + 1)).
  generalize (np_arange (center.1 - radius) (center.1 + radius + 1)) as xs,
             (length_np_arange (center.1 - radius) (center.1 + radius + 1)).
  intros xs Hxs ys Hys.
  assert (Hlen : length (xs ≫= (fun x => pair x <$> ys))
                 = (length xs * length ys)%nat).
  { clear. induction xs as [|x xs IH]; [done|].
    cbn. rewrite length_app, length_fmap. cbn in IH. rewrite IH. lia. }
  rewrite Hlen, Hxs, Hys. nia.
Qed.

Lemma NoDup_city_square (center : Z * Z) (radius : Z) :
  NoDup (city_square center radius).
Proof.
  unfold city_square.
  generalize (NoDup_np_arange (center.2 - radius) (center.2 + radius + 1)).
  generalize (np_arange (center.2 - radius) (center.2 + radius + 1)) as ys.
  generalize (NoDup_np_arange (center.1 - radius) (center.1 + radius + 1)).
  generalize (np_arange (center.1 - radius) (center.1 + radius + 1)) as xs.
  intros xs Hxs ys Hys.
  induction Hxs as [|x xs Hx _ IH]; [constructor|].
  cbn. apply NoDup_app. split; [|split; [|exact IH]].
  - apply NoDup_fmap_2; [|done]. by intros ?? [= ->].
  - intros cell (y & -> & _)%list_elem_of_fmap
                (x' & (y' & [= <- _] & _)%list_elem_of_fmap & Hx')%list_elem_of_bind.
    done.
Qed.

Lemma np_axis_index_nonneg (n i : Z) :
  0 <= i ->
  np_axis_index n i = if n <=? i then Raise IndexError else Ok (Z.to_nat i).
Proof.
  intros Hi. unfold np_axis_index.
  destruct (Z.ltb_spec i 0); [lia|]. by destruct (Z.ltb_spec i 0); [lia|].
Qed.

(** Reading a cell with non-negative coordinates after a write to such a
    cell. *)
Lemma np_get2d_set2d (field field' : list (list Z)) (cell cell' : Z * Z) (v : Z) :
  0 <= cell.1 -> 0 <= cell.2 -> 0 <= cell'.1 -> 0 <= cell'.2 ->
  np_set2d field cell v = Ok field' ->
  np_get2d field' cell'
  = if bool_decide (cell' = cell) then Ok v else np_get2d field cell'.
Proof.
  destruct cell as [r c], cell' as [r' c']. cbn [fst snd].
  intros Hr Hc Hr' Hc'. unfold np_set2d, np_get2d. cbn [fst snd].
  rewrite (np_axis_index_nonneg _ r), !(np_axis_index_nonneg _ r') by done.
  destruct (Z.leb_spec (len field) r) as [|Hrow]; osimpl; [done|].
  destruct (field !! Z.to_nat r) as [row|] eqn:Hrow_r; [|done].
  rewrite (np_axis_index_nonneg _ c) by done.
  destruct (Z.leb_spec (len row) c) as [|Hcol]; osimpl; [done|].
  intros [= <-]. unfold len in *. rewrite length_insert.
  destruct (Z.leb_spec (Z.of_nat (length field)) r') as [|Hrow']; osimpl.
  { rewrite bool_decide_eq_false_2; [done|]. intros [= -> ->]. lia. }
  destruct (decide (r' = r)) as [->|Hne_r].
  - rewrite list_lookup_insert_eq by lia. rewrite Hrow_r.
    rewrite !(np_axis_index_nonneg _ c') by done. rewrite length_insert.
    destruct (Z.leb_spec (Z.of_nat (length row)) c') as [|Hcol']; osimpl.
    { rewrite bool_decide_eq_false_2; [done|]. intros [= ->]. lia. }
    destruct (decide (c' = c)) as [->|Hne_c].
    + rewrite list_lookup_insert_eq by lia. by rewrite bool_decide_eq_true_2.
    + rewrite list_lookup_insert_ne by lia.
      rewrite bool_decide_eq_false_2; [done|]. by intros [= ->].
  - rewrite list_lookup_insert_ne by lia.
    rewrite bool_decide_eq_false_2; [done|]. by intros [= -> ->].
Qed.

Lemma write_cells_get (g : Z * Z -> Z) (cells : list (Z * Z))
    (field field' : list (list Z)) (cell : Z * Z) :
  NoDup cells ->
  (forall c, c ∈ cells -> 0 <= c.1 /\ 0 <= c.2) ->
  0 <= cell.1 -> 0 <= cell.2 ->
  for_fold (fun field c => np_set2d field c (g c)) cells field = Ok field' ->
  np_get2d field' cell
  = if bool_decide (cell ∈ cells) then Ok (g cell) else np_get2d field cell.
Proof.
  intros Hnodup. revert field.
  induction Hnodup as [|c cells Hc _ IH]; intros field Hpos Hr Hcol.
  { cbn. by intros [= <-]. }
  rewrite for_fold_cons.
  destruct (np_set2d field c (g c)) as [field1| |] eqn:Hset; osimpl; [|done..].
  intros Hrest. rewrite (IH field1); [|intros; apply Hpos; by right|done..].
  destruct (Hpos c) as [Hc1 Hc2]; [left|].
  rewrite (np_get2d_set2d field field1 c cell (g c)) by done.
  destruct (decide (cell ∈ cells)) as [Hin|Hout].
  - rewrite !bool_decide_eq_true_2; [done|by right|done].
  - rewrite (bool_decide_eq_false_2 (cell ∈ cells)) by done.
    destruct (decide (cell = c)) as [->|Hne].
    + rewrite !bool_decide_eq_true_2; [done|left|done].
    + rewrite !bool_decide_eq_false_2; [done| |done].
      by intros [->|?]%elem_of_cons.
Qed.

Lemma lookup_np_arange (a b i : Z) :
  0 <= i < b - a -> np_arange a b !! Z.to_nat i = Some (a + i).
Proof.
  intros Hi. unfold np_arange. rewrite list_lookup_fmap.
  by rewrite lookup_range_lt by done.
Qed.

(** The entries of [list(zip(np.repeat(xs, len(ys)), np.tile(ys, len(xs))))]
    by index. *)
Lemma lookup_repeat_tile {A B} (xs : list A) (ys : list B) (i j : nat)
    (x : A) (y : B) :
  xs !! i = Some x -> ys !! j = Some y ->
  (xs ≫= (fun x => pair x <$> ys)) !! (i * length ys + j)%nat = Some (x, y).
Proof.
  revert i. induction xs as [|x0 xs IH]; intros i Hx Hy; [done|].
  change ((x0 :: xs) ≫= (fun x => pair x <$> ys))
    with ((pair x0 <$> ys) ++ (xs ≫= (fun x => pair x <$> ys))).
  destruct i as [|i].
  - cbn in Hx. injection Hx as ->. cbn [Nat.mul Nat.add].
    rewrite lookup_app_l by (rewrite length_fmap; by eapply lookup_lt_Some).
    by rewrite list_lookup_fmap, Hy.
  - cbn in Hx. rewrite lookup_app_r by (rewrite length_fmap; lia).
    rewrite length_fmap.
    replace (S i * length ys + j - length ys)%nat
      with (i * length ys + j)%nat by lia.
    by apply IH.
Qed.

Section CityCells.
Context {F : Flatland}.

(** X15. When [_get_cells_in_city] returns, wherever the center lies, the
    list it returns holds the cells of the square of side [2 * radius + 1]
    around the center row by row: entry [i * (2 * radius + 1) + j] is the
    cell in row [i] and column [j] of the square, there are
    [(2 * radius + 1)^2] entries, and a cell is in the list exactly when it
    is at Chebyshev distance at most [radius] from the center. For a city
    that does not reach over the top or left edge, the vector field it
    returns holds [align_cell_to_city] of the cell at every cell of the
    city, and what it held before at every other cell. *)
Theorem get_cells_in_city_spec (center : Z * Z) (radius city_orientation : Z)
    (vector_field vector_field' : list (list Z)) (city_cells : list (Z * Z)) :
  0 <= radius ->
  _get_cells_in_city center radius city_orientation vector_field
    = Ok (city_cells, vector_field') ->
  (forall i j, 0 <= i <= 2 * radius -> 0 <= j <= 2 * radius ->
     city_cells !! Z.to_nat (i * (2 * radius + 1) + j)
     = Some (center.1 - radius + i, center.2 - radius + j))
  /\ len city_cells = (2 * radius + 1) * (2 * radius + 1)
  /\ (forall cell, cell ∈ city_cells <-> chebyshev cell center <= radius)
  /\ (radius <= center.1 -> radius <= center.2 ->
      forall cell, 0 <= cell.1 -> 0 <= cell.2 ->
        np_get2d vector_field' cell
        = if chebyshev cell center <=? radius
          then Ok (align_cell_to_city center city_orientation cell)
          else np_get2d vector_field cell).
Proof.
  intros Hradius. unfold _get_cells_in_city. cbv zeta.
  fold (city_square center radius).
  destruct (for_fold _ _ _) as [field| |] eqn:Hwrite; osimpl; [|done..].
  intros [= <- <-]. split; [|split; [|split]].
  - intros i j Hi Hj. unfold city_square.
    replace (Z.to_nat (i * (2 * radius + 1) + j))
      with (Z.to_nat i
            * length (np_arange (center.2 - radius) (center.2 + radius + 1))
            + Z.to_nat j)%nat
      by (rewrite length_np_arange; nia).
    apply lookup_repeat_tile; apply lookup_np_arange; lia.
  - by apply length_city_square.
  - apply elem_of_city_square.
  - intros Hrow Hcol cell Hcell1 Hcell2.
    rewrite (write_cells_get (align_cell_to_city center city_orientation)
               (city_square center radius) vector_field field cell);
      [|apply NoDup_city_square| |done..].
    + destruct (Z.leb_spec (chebyshev cell center) radius) as [Hin|Hout].
      * by rewrite bool_decide_eq_true_2 by (by apply elem_of_city_square).
      * rewrite bool_decide_eq_false_2; [done|].
        rewrite elem_of_city_square. lia.
    + intros c Hc%elem_of_city_square. unfold chebyshev in Hc. lia.
Qed.

End CityCells.

Lemma get_cells_in_city_spec_witness :
  exists city_cells vector_field',
    _get_cells_in_city (F:=SketchFlatland) (2, 3) 1 2
      (replicate 6 (replicate 6 (-1))) = Ok (city_cells, vector_field')
    /\ city_cells
       = [(1, 2); (1, 3); (1, 4); (2, 2); (2, 3); (2, 4); (3, 2); (3, 3); (3, 4)]
    /\ (forall i j, 0 <= i <= 2 * 1 -> 0 <= j <= 2 * 1 ->
          city_cells !! Z.to_nat (i * (2 * 1 + 1) + j)
          = Some ((2, 3).1 - 1 + i, (2, 3).2 - 1 + j))
    /\ len city_cells = (2 * 1 + 1) * (2 * 1 + 1)
    /\ (forall cell, cell ∈ city_cells <-> chebyshev cell (2, 3) <= 1)
    /\ (1 <= (2, 3).1 -> 1 <= (2, 3).2 ->
        forall cell, 0 <= cell.1 -> 0 <= cell.2 ->
          np_get2d vector_field' cell
          = if chebyshev cell (2, 3) <=? 1
            then Ok (align_cell_to_city (Flatland:=SketchFlatland) (2, 3) 2 cell)
            else np_get2d (replicate 6 (replicate 6 (-1))) cell).
Proof.
  eexists _, _. split; [vm_compute; reflexivity|]. split; [reflexivity|].
  apply (get_cells_in_city_spec (F:=SketchFlatland) (2, 3) 1 2
           (replicate 6 (replicate 6 (-1)))); [lia|].
  vm_compute. reflexivity.
Defined.

(** ** The cities of a returned map *)

Section ReturnedCities.
Context {R : RNG} {N : Numpy} {F : Flatland}.

(** What [place_cities] returns is separated, whichever way it took. *)
Lemma place_cities_separated (self : SparseRailGen) (fuel : nat)
    (max_feasible_cities city_radius width height : Z)
    (np_random np_random' : rng_state R) (log log' : list warning)
    (city_positions : list (Z * Z)) :
  0 <= max_feasible_cities ->
  place_cities self fuel max_feasible_cities city_radius width height
    np_random log = Ok (city_positions, np_random', log') ->
  pairwise_separated (2 * city_radius + 1) city_positions.
Proof.
  intros Hfeasible. unfold place_cities.
  set (chosen := if grid_mode self then _ else _).
  assert (Hchosen : forall ps rs lg, chosen = Ok (ps, rs, lg) ->
            pairwise_separated (2 * city_radius + 1) ps).
  { subst chosen. intros ps rs lg. destruct (grid_mode self).
    - destruct (_generate_evenly_distr_city_positions _ _ _ _) as [ps'| |]
        eqn:Hgrid; osimpl; [|done..].
      intros [= <- _ _]. by eapply evenly_distr_separated.
    - destruct (_generate_random_city_positions _ _ _ _ _ _)
        as [[[ps0 rs0] log0]| |] eqn:Hfirst; osimpl; [|done..].
      apply random_positions_placement in Hfirst as [Hfirst _]; [|done].
      assert (Hfrom : forall ps' lg',
                random_placement_of (R:=R) max_feasible_cities city_radius
                  width height ps' lg' ->
                pairwise_separated (2 * city_radius + 1) ps').
      { intros ps' lg' (rs' & st & Hst & <- & _).
        by eapply place_random_separated. }
      destruct (4 <? max_num_cities self).
      + intros Hloop.
        eapply replace_while_cliques_placement in Hloop; [|done|exact Hfirst].
        by eapply Hfrom.
      + intros [= <- _ _]. by eapply Hfrom. }
  destruct chosen as [[[ps rs] lg]| |]; osimpl; [|done..].
  specialize (Hchosen ps rs lg eq_refl).
  destruct (len ps <? 2).
  - destruct (_generate_evenly_distr_city_positions _ _ _ _) as [ps'| |]
      eqn:Hgrid; osimpl; [|done..].
    intros [= <- _ _]. by eapply evenly_distr_separated.
  - by intros [= <- _ _].
Qed.

(** The cells that the planner collects: the squares of the cities, one
    after the other. *)
Lemma plan_cities_cells (grid_mode : bool) (city_positions : list (Z * Z))
    (city_radius rails_between_cities rail_pairs_in_city : Z)
    (cities : list (Z * Z)) (plan plan' : connection_plan (R:=R)) :
  for_fold (plan_city grid_mode city_positions city_radius rails_between_cities
              rail_pairs_in_city) cities plan = Ok plan' ->
  city_cells plan'
  = city_cells plan ++ (cities ≫= (fun city => city_square city city_radius)).
Proof.
  revert plan. induction cities as [|city cities IH]; intros plan.
  { cbn. intros [= <-]. by rewrite app_nil_r. }
  rewrite for_fold_cons.
  destruct (plan_city _ _ _ _ _ plan city) as [plan1| |] eqn:Hcity;
    osimpl; [|done..].
  intros Hrest. apply IH in Hrest. rewrite Hrest. cbn [mbind list_bind].
  rewrite app_assoc. f_equal. clear Hrest IH.
  unfold plan_city in Hcity.
  destruct (if grid_mode then _ else _) as [[d rs]| |]; osimpl in Hcity;
    [|done..].
  unfold _get_cells_in_city in Hcity. cbv zeta in Hcity.
  fold (city_square city city_radius) in Hcity.
  destruct (for_fold _ (city_square city city_radius) _) as [field| |];
    osimpl in Hcity; [|done..].
  destruct (randint rs _ _) as [[draw rs']| |]; osimpl in Hcity; [|done..].
  destruct (for_fold _ _ (replicate 4 0)) as [cpd| |]; osimpl in Hcity;
    [|done..].
  destruct (for_append _ _) as [sides| |]; osimpl in Hcity; [|done..].
  by injection Hcity as <-.
Qed.

(** The squares of separated cities share no cell. *)
Lemma NoDup_city_squares (cities : list (Z * Z)) (city_radius : Z) :
  pairwise_separated (2 * city_radius + 1) cities ->
  NoDup (cities ≫= (fun city => city_square city city_radius)).
Proof.
  induction cities as [|city cities IH]; intros Hsep; [constructor|].
  cbn [mbind list_bind]. apply NoDup_app. split; [apply NoDup_city_square|].
  split.
  - intros cell Hfirst%elem_of_city_square
                (other & Hother%elem_of_city_square & [k Hk]%list_elem_of_lookup)
                  %list_elem_of_bind.
    specialize (Hsep 0%nat (S k) city other ltac:(lia) eq_refl Hk).
    unfold chebyshev in *. lia.
  - apply IH. intros i j p q Hij Hp Hq.
    apply (Hsep (S i) (S j)); [lia|done..].
Qed.

(** X16. In a map that [generate] returns, any two cities of the hints are
    at Chebyshev distance [2 * city_radius + 1] or more, where
    [city_radius] is [max(1, max_rail_pairs_in_city) + 2], whichever
    placement produced them (grid, random, random after the clique loop, or
    the grid fall-back): the city squares share no cell. *)
Theorem generate_cities_separated (self : SparseRailGen) (fuel : nat)
    (width height num_agents num_resets : Z)
    (np_random : option (rng_state R)) (global_draw : Z)
    (product : RailGeneratorProduct) :
  generate self fuel width height num_agents num_resets np_random global_draw
    = Ok product ->
  pairwise_separated (2 * city_radius_of self + 1) (hint_city_positions product)
  /\ NoDup (hint_city_positions product
            ≫= (fun city => city_square city (city_radius_of self))).
Proof.
  intros Hrun. unfold generate in Hrun.
  destruct (choose_np_random self np_random global_draw) as [rs| |];
    osimpl in Hrun; [|done..].
  destruct (np_full height width (-1)) as [field| |]; osimpl in Hrun; [|done..].
  destruct (Z.ltb_spec (max_feasible_cities_of self width height) 2); [done|].
  unfold build_network in Hrun. cbv zeta in Hrun.
  destruct (place_cities _ _ _ _ _ _ _ _) as [[[ps rs1] log1]| |] eqn:Hplace;
    osimpl in Hrun; [|done..].
  destruct (_generate_city_connection_points _ _ _ _ _ _ _) as [plan| |];
    osimpl in Hrun; [|done..].
  destruct (_connect_cities _ _ _ _ _) as [lines| |];
    osimpl in Hrun; [|done..].
  destruct (_build_inner_cities _ _ _ _) as [[rails grid]| |];
    osimpl in Hrun; [|done..].
  destruct (_set_trainstation_positions _ _ _) as [stations| |];
    osimpl in Hrun; [|done..].
  destruct (_fix_transitions _ _ _ _ _ _) as [grid'| |];
    osimpl in Hrun; [|done..].
  injection Hrun as <-. cbn [hint_city_positions].
  apply place_cities_separated in Hplace; [|lia].
  split; [done|]. by apply NoDup_city_squares.
Qed.

(** X17. The list [city_cells] that [_generate_city_connection_points]
    returns, which [_connect_cities] passes to the router as forbidden
    cells, is the list of the city squares in the order of the cities: a
    cell is in it exactly when it lies within [city_radius] (Chebyshev) of
    a city center, and it holds [(2 * city_radius + 1)^2] cells per city. *)
Theorem city_cells_are_the_squares (grid_mode : bool)
    (city_positions : list (Z * Z)) (city_radius : Z)
    (vector_field : list (list Z))
    (rails_between_cities rail_pairs_in_city : Z) (np_random : rng_state R)
    (plan : connection_plan (R:=R)) :
  0 <= city_radius ->
  _generate_city_connection_points grid_mode city_positions city_radius
    vector_field rails_between_cities rail_pairs_in_city np_random = Ok plan ->
  city_cells plan
  = city_positions ≫= (fun city => city_square city city_radius)
  /\ (forall cell, cell ∈ city_cells plan
      <-> exists city, city ∈ city_positions
                       /\ chebyshev cell city <= city_radius)
  /\ len (city_cells plan)
     = len city_positions * ((2 * city_radius + 1) * (2 * city_radius + 1)).
Proof.
  intros Hradius Hrun. unfold _generate_city_connection_points in Hrun.
  apply plan_cities_cells in Hrun. cbn [city_cells app] in Hrun.
  split; [done|]. rewrite Hrun. split.
  - intros cell. rewrite list_elem_of_bind. split.
    + intros (city & Hcell%elem_of_city_square & Hcity). by exists city.
    + intros (city & Hcity & Hcell). exists city.
      split; [by apply elem_of_city_square|done].
  - clear Hrun. induction city_positions as [|city cities IH]; [done|].
    cbn [mbind list_bind]. unfold len in *.
    rewrite length_app. cbn [length].
    pose proof (length_city_square city city_radius Hradius) as Hsquare.
    unfold len in Hsquare. cbn [mbind list_bind] in IH. lia.
Qed.

End ReturnedCities.

Lemma generate_cities_separated_witness :
  exists product,
    generate (R:=ScriptedRNG) (N:=ExactNumpy) (F:=SketchFlatland) sparse4 0
      25 25 1 0 (Some middle_first) 0 = Ok product
    /\ pairwise_separated (2 * city_radius_of sparse4 + 1)
         (hint_city_positions product)
    /\ NoDup (hint_city_positions product
              ≫= (fun city => city_square city (city_radius_of sparse4))).
Proof.
  destruct sparse4_run as (product & Hrun & _).
  exists product. split; [exact Hrun|].
  exact (generate_cities_separated (R:=ScriptedRNG) (N:=ExactNumpy)
           (F:=SketchFlatland) sparse4 0 25 25 1 0 (Some middle_first) 0
           product Hrun).
Defined.

Lemma city_cells_are_the_squares_witness :
  exists plan,
    _generate_city_connection_points (R:=ScriptedRNG) (F:=SketchFlatland)
      false sample_cities 4 sample_vector_field 2 2 ([0; 1; 0], []) = Ok plan
    /\ city_cells plan
       = sample_cities ≫= (fun city => city_square city 4)
    /\ (forall cell, cell ∈ city_cells plan
        <-> exists city, city ∈ sample_cities /\ chebyshev cell city <= 4)
    /\ len (city_cells plan) = len sample_cities * ((2 * 4 + 1) * (2 * 4 + 1)).
Proof.
  destruct sample_plan_run as (plan & Hrun & _).
  exists plan. split; [exact Hrun|].
  apply (city_cells_are_the_squares (R:=ScriptedRNG) (F:=SketchFlatland)
           false sample_cities 4 sample_vector_field 2 2 ([0; 1; 0], []) plan);
    [lia|exact Hrun].
Defined.

(** ** The placement stage of [generate]: the clique loop and the
    fall-back *)

Section CliqueDetectorTotal.
Context {N : Numpy}.

Lemma insert_sorted_perm (x : nat) (l : list nat) :
  insert_sorted x l ≡ₚ x :: l.
Proof.
  induction l as [|y l IH]; [done|]. cbn [insert_sorted].
  destruct (x <=? y)%nat; [done|]. rewrite IH. apply Permutation_swap.
Qed.

Lemma sorted_perm (l : list nat) : sorted l ≡ₚ l.
Proof.
  unfold sorted. induction l as [|x l IH]; [done|].
  cbn [foldr]. by rewrite insert_sorted_perm, IH.
Qed.

Lemma dict_fromkeys_fold (acc l : list nat) :
  NoDup acc ->
  NoDup (foldl (fun acc x => if bool_decide (x ∈ acc) then acc else acc ++ [x])
               acc l)
  /\ forall x,
       x ∈ foldl (fun acc x => if bool_decide (x ∈ acc) then acc else acc ++ [x])
             acc l ->
       x ∈ acc \/ x ∈ l.
Proof.
  revert acc. induction l as [|y l IH]; intros acc Hacc.
  { split; [done|]. intros x Hx. by left. }
  cbn [foldl]. destruct (bool_decide_reflect (y ∈ acc)) as [Hin|Hout].
  - destruct (IH acc Hacc) as [Hnodup Helem]. split; [done|].
    intros x Hx. destruct (Helem x Hx); [by left|right; by right].
  - destruct (IH (acc ++ [y])) as [Hnodup Helem].
    { apply NoDup_app. split; [done|]. split; [|apply NoDup_singleton].
      intros x Hx ->%list_elem_of_singleton. done. }
    split; [done|]. intros x Hx.
    destruct (Helem x Hx) as [[?| ->%list_elem_of_singleton]%elem_of_app|?];
      [by left|right; left|right; by right].
Qed.

(** A table of rows that are permutations of the indexes, as [sort_index]
    is. *)
Definition index_table (n : nat) (index_array : list (list nat)) : Prop :=
  length index_array = n
  /\ forall k row, index_array !! k = Some row -> row ≡ₚ seq 0 n.

Lemma build_clique3_returns (n : nat) (index_array : list (list nat))
    (index : nat) :
  index_table n index_array -> (3 <= n)%nat -> (index < n)%nat ->
  exists x y z,
    build_clique3 index_array index = Ok [x; y; z]
    /\ (x < n)%nat /\ (y < n)%nat /\ (z < n)%nat.
Proof.
  intros [Hlen Hrows] Hn Hindex. unfold build_clique3.
  rewrite py_index_nat.
  destruct (lookup_lt_is_Some_2 index_array index) as [row Hrow]; [lia|].
  rewrite Hrow. osimpl.
  pose proof (Hrows index row Hrow) as Hperm.
  pose proof (Permutation_length Hperm) as Hlen_row. rewrite length_seq in Hlen_row.
  assert (Hlt : forall x, x ∈ row -> (x < n)%nat).
  { intros x Hx. rewrite Hperm in Hx. apply elem_of_seq in Hx. lia. }
  destruct row as [|a [|b [|c rest]]]; cbn in Hlen_row; [lia..|].
  change (py_index (a :: b :: c :: rest) 0) with (Ok (A:=nat) a).
  change (py_index (a :: b :: c :: rest) 1) with (Ok (A:=nat) b).
  change (py_index (a :: b :: c :: rest) 2) with (Ok (A:=nat) c).
  osimpl.
  pose proof (sorted_perm [a; b; c]) as Hsorted.
  pose proof (Permutation_length Hsorted) as Hlen3.
  destruct (sorted [a; b; c]) as [|x [|y [|z [|? ?]]]]; cbn in Hlen3; try lia.
  exists x, y, z. split; [done|].
  assert (Hsub : forall v, v ∈ [x; y; z] -> (v < n)%nat).
  { intros v Hv. rewrite Hsorted in Hv. apply Hlt.
    change (v ∈ [a; b; c] ++ rest). apply elem_of_app. by left. }
  repeat split; apply Hsub; repeat constructor.
Qed.

Lemma cliques_from_returns (n : nat) (sort_index : list (list nat))
    (idxs : list nat) :
  index_table n sort_index -> (3 <= n)%nat ->
  (forall i, i ∈ idxs -> (i < n)%nat) ->
  exists cliques, cliques_from sort_index idxs = Ok cliques.
Proof.
  intros Htable Hn. induction idxs as [|i rest IH]; intros Hidxs;
    [by eexists|].
  cbn [cliques_from].
  destruct (build_clique3_returns n sort_index i Htable Hn)
    as (x & y & z & -> & Hx & Hy & Hz); [apply Hidxs; left|]. osimpl.
  change (py_index [x; y; z] 1) with (Ok (A:=nat) y).
  change (py_index [x; y; z] 2) with (Ok (A:=nat) z). osimpl.
  destruct (build_clique3_returns n sort_index y Htable Hn Hy)
    as (x1 & y1 & z1 & -> & Hx1 & Hy1 & Hz1). osimpl.
  destruct (build_clique3_returns n sort_index z Htable Hn Hz)
    as (x2 & y2 & z2 & -> & Hx2 & Hy2 & Hz2). osimpl.
  destruct (_ && _); [by eexists|].
  assert (Hrest : exists cliques, cliques_from sort_index rest = Ok cliques).
  { apply IH. intros j Hj. apply Hidxs. by right. }
  cbv zeta.
  set (cluster := dict_fromkeys ([x; y; z] ++ [x1; y1; z1] ++ [x2; y2; z2])).
  destruct (dict_fromkeys_fold [] ([x; y; z] ++ [x1; y1; z1] ++ [x2; y2; z2])
              (NoDup_nil_2 (A:=nat))) as [Hnodup Helem].
  fold (dict_fromkeys ([x; y; z] ++ [x1; y1; z1] ++ [x2; y2; z2])) in Hnodup, Helem.
  fold cluster in Hnodup, Helem.
  destruct (Z.eqb_spec (len cluster) 4) as [Hfour|]; [|done].
  destruct (filter (fun v => v ∉ [x; y; z]) cluster) as [|extra others]
    eqn:Hfilter.
  { exfalso.
    assert (Hsub : cluster ⊆+ [x; y; z]).
    { apply NoDup_submseteq; [done|]. intros v Hv.
      destruct (decide (v ∈ [x; y; z])) as [|Hout]; [done|].
      assert (Hin : v ∈ filter (fun v => v ∉ [x; y; z]) cluster)
        by (by apply list_elem_of_filter).
      rewrite Hfilter in Hin. by apply elem_of_nil in Hin. }
    apply submseteq_length in Hsub.
    change (length [x; y; z]) with 3%nat in Hsub. unfold len in Hfour. lia. }
  change (py_index (extra :: others) 0) with (Ok (A:=nat) extra). osimpl.
  assert (Hextra : (extra < n)%nat).
  { assert (Hin : extra ∈ filter (fun v => v ∉ [x; y; z]) cluster)
      by (rewrite Hfilter; left).
    apply list_elem_of_filter in Hin as [_ Hin].
    destruct (Helem extra Hin) as [Hnil|Hany]; [by apply elem_of_nil in Hnil|].
    assert (Hall : Forall (fun v => (v < n)%nat)
                     ([x; y; z] ++ [x1; y1; z1] ++ [x2; y2; z2]))
      by (repeat constructor; done).
    rewrite Forall_forall in Hall. by apply Hall. }
  destruct (build_clique3_returns n sort_index extra Htable Hn Hextra)
    as (x3 & y3 & z3 & -> & _). osimpl.
  destruct (bool_decide _); [by eexists|done].
Qed.

(** [contains_cliques] answers on every list of three cities or more. *)
Lemma contains_cliques_returns (city_positions : list (Z * Z)) :
  (3 <= length city_positions)%nat ->
  exists cliques, contains_cliques city_positions = Ok cliques.
Proof.
  intros Hn. unfold contains_cliques. cbv zeta.
  apply (cliques_from_returns (length city_positions)); [|done|].
  - split; [by rewrite !length_fmap|]. apply sort_index_rows.
  - intros i Hi%elem_of_seq. lia.
Qed.

End CliqueDetectorTotal.

Section PlacementStage.
Context {R : RNG} {N : Numpy}.

(** The state after [k] more random placements. *)
Fixpoint attempt (k : nat) (max_feasible_cities city_radius width height : Z)
    (s : list (Z * Z) * rng_state R * list warning)
  : outcome (list (Z * Z) * rng_state R * list warning) :=
  match k with
  | O => Ok s
  | S k' =>
      s' ← _generate_random_city_positions max_feasible_cities city_radius
             width height s.1.2 s.2;
      attempt k' max_feasible_cities city_radius width height s'
  end.

(** The predicate was positive on the first placement [s] and on each of
    the [k - 1] placements after it. *)
Definition detections (k : nat)
    (max_feasible_cities city_radius width height : Z)
    (s : list (Z * Z) * rng_state R * list warning) : Prop :=
  forall j, (j < k)%nat ->
    exists s', attempt j max_feasible_cities city_radius width height s = Ok s'
               /\ contains_cliques s'.1.1 = Ok true.

Lemma detections_step (k : nat) (num_cities city_radius width height : Z)
    (s s1 : list (Z * Z) * rng_state R * list warning) :
  contains_cliques s.1.1 = Ok true ->
  _generate_random_city_positions num_cities city_radius width height
    s.1.2 s.2 = Ok s1 ->
  detections k num_cities city_radius width height s1 ->
  detections (S k) num_cities city_radius width height s.
Proof.
  intros Hpositive Hredo Hnext [|j] Hj.
  - exists s. by split.
  - destruct (Hnext j) as (s' & Hs' & Hc); [lia|].
    exists s'. split; [|done]. cbn [attempt]. by rewrite Hredo.
Qed.

Lemma random_city_positions_total (num_cities city_radius width height : Z)
    (np_random : rng_state R) (log : list warning) :
  0 <= height -> 0 <= width ->
  exists s,
    _generate_random_city_positions num_cities city_radius width height
      np_random log = Ok s.
Proof.
  intros Hh Hw. unfold _generate_random_city_positions.
  destruct (place_random_total num_cities city_radius width height np_random
              Hh Hw) as [st ->]. osimpl. by eexists.
Qed.

(** How the loop ends, for every amount of fuel: with the first placement
    of the sequence that the predicate accepts, with the exception of the
    predicate on the first placement it cannot judge, or not within the
    fuel, when the predicate was positive every time. *)
Lemma replace_while_cliques_ends (fuel : nat)
    (num_cities city_radius width height : Z)
    (s : list (Z * Z) * rng_state R * list warning) :
  0 <= height -> 0 <= width ->
  match replace_while_cliques fuel num_cities city_radius width height
          s.1.1 s.1.2 s.2 with
  | Ok final =>
      exists k, (k < fuel)%nat
        /\ detections k num_cities city_radius width height s
        /\ attempt k num_cities city_radius width height s = Ok final
        /\ contains_cliques final.1.1 = Ok false
  | Raise e =>
      exists k last, (k < fuel)%nat
        /\ detections k num_cities city_radius width height s
        /\ attempt k num_cities city_radius width height s = Ok last
        /\ contains_cliques last.1.1 = Raise e
  | OutOfFuel => detections fuel num_cities city_radius width height s
  end.
Proof.
  intros Hh Hw. revert s. induction fuel as [|fuel IH]; intros s.
  { cbn. intros j Hj. lia. }
  cbn [replace_while_cliques].
  destruct (contains_cliques s.1.1) as [[|]|e|] eqn:Hc; osimpl.
  - destruct (random_city_positions_total num_cities city_radius width height
                s.1.2 s.2 Hh Hw) as [s1 Hredo].
    rewrite Hredo. osimpl. specialize (IH s1).
    destruct s1 as [[ps rs] lg]. cbn [fst snd] in IH.
    destruct (replace_while_cliques fuel num_cities city_radius width height
                ps rs lg) as [final|e|].
    + destruct IH as (k & Hk & Hbefore & Hfinal & Hclean).
      exists (S k). split; [lia|]. split; [by eapply detections_step|].
      split; [|done]. cbn [attempt]. by rewrite Hredo.
    + destruct IH as (k & last & Hk & Hbefore & Hlast & Hraise).
      exists (S k), last. split; [lia|]. split; [by eapply detections_step|].
      split; [|done]. cbn [attempt]. by rewrite Hredo.
    + by eapply detections_step.
  - exists 0%nat. split; [lia|]. split; [intros j Hj; lia|].
    destruct s as [[ps rs] lg]. by split.
  - exists 0%nat, s. split; [lia|]. split; [intros j Hj; lia|]. by split.
  - exfalso.
    destruct (decide (length s.1.1 < 3)%nat) as [Hfew|Hmany].
    + rewrite (contains_cliques_short _ Hfew) in Hc. by destruct (bool_decide _).
    + destruct (contains_cliques_returns s.1.1) as [b Hb]; [lia|]. congruence.
Qed.

(** The other direction: when the [k]-th placement of the sequence is the
    first one that the predicate accepts, the loop makes exactly [k] redos
    and returns it. *)
Lemma replace_while_cliques_run (k : nat)
    (num_cities city_radius width height : Z)
    (s final : list (Z * Z) * rng_state R * list warning) :
  detections k num_cities city_radius width height s ->
  attempt k num_cities city_radius width height s = Ok final ->
  contains_cliques final.1.1 = Ok false ->
  forall fuel,
    replace_while_cliques fuel num_cities city_radius width height
      s.1.1 s.1.2 s.2
    = if (k <? fuel)%nat then Ok final else OutOfFuel.
Proof.
  revert s. induction k as [|k IH]; intros s Hbefore Hk Hclean fuel.
  - cbn in Hk. injection Hk as <-.
    destruct fuel as [|fuel]; [done|].
    cbn [replace_while_cliques]. rewrite Hclean. osimpl.
    by destruct s as [[ps rs] lg].
  - destruct fuel as [|fuel]; [done|].
    cbn [replace_while_cliques].
    destruct (Hbefore 0%nat) as (s0 & Hs0 & Hc0); [lia|].
    cbn in Hs0. injection Hs0 as <-. rewrite Hc0. osimpl.
    cbn [attempt] in Hk.
    destruct (_generate_random_city_positions num_cities city_radius width
                height s.1.2 s.2) as [s1| |] eqn:Hredo;
      osimpl in Hk; [|done..].
    osimpl. destruct s1 as [[ps1 rs1] lg1].
    assert (Hnext : detections k num_cities city_radius width height
                      (ps1, rs1, lg1)).
    { intros j Hj. destruct (Hbefore (S j)) as (s' & Hs' & Hc); [lia|].
      exists s'. split; [|done]. cbn [attempt] in Hs'.
      by rewrite Hredo in Hs'. }
    pose proof (IH (ps1, rs1, lg1) Hnext Hk Hclean fuel) as Hrec.
    cbn [fst snd] in Hrec. rewrite Hrec.
    change (S k <? S fuel)%nat with (k <? fuel)%nat. done.
Qed.

(** With a city to place and an interior cell, every placement of the
    sequence holds a city. *)
Lemma attempt_some_city (k : nat) (num_cities city_radius width height : Z)
    (s final : list (Z * Z) * rng_state R * list warning) :
  0 < num_cities -> 0 <= city_radius ->
  2 * (city_radius + 1) < height -> 2 * (city_radius + 1) < width ->
  s.1.1 <> [] ->
  attempt k num_cities city_radius width height s = Ok final ->
  final.1.1 <> [].
Proof.
  intros Hnum Hr Hh Hw. revert s.
  induction k as [|k IH]; intros s Hs Hrun.
  { cbn in Hrun. by injection Hrun as <-. }
  cbn [attempt] in Hrun.
  destruct (_generate_random_city_positions num_cities city_radius width
              height s.1.2 s.2) as [s1| |] eqn:Hredo; osimpl in Hrun; [|done..].
  apply (IH s1); [|done].
  unfold _generate_random_city_positions in Hredo.
  destruct (place_random num_cities city_radius width height s.1.2)
    as [st| |] eqn:Hst; osimpl in Hredo; [|done..].
  injection Hredo as <-. cbn [fst snd].
  eapply place_random_some_city; [| | | |exact Hst]; [lia|done..].
Qed.

(** C3 (amended). The clique check is a loop inside [generate], with no
    bound on the number of placement attempts. In random mode with more
    than 4 cities requested, on a grid where [generate] passes its
    feasibility check, the first random placement returns, and the
    placement stage ends in exactly one of three ways, for every amount of
    fuel. It returns the first placement of the sequence (the first one,
    then one redo per positive detection) that the predicate accepts, and
    nothing else: no fall-back follows, as an accepted placement has three
    cities or more. Or it raises [IndexError], when the predicate meets a
    placement of one or two cities before any it accepts. Or it is still
    running when the fuel is used up, and then every detection so far was
    positive. The other way round, when the [k]-th placement of the
    sequence is the first one that the predicate accepts, the stage returns
    it with fuel for more than [k] detections and is still running with
    less. *)
Theorem clique_retry_until_clean (self : SparseRailGen) (fuel : nat)
    (width height : Z) (np_random : rng_state R) (log : list warning) :
  grid_mode self = false ->
  4 < max_num_cities self ->
  0 <= height -> 0 <= width ->
  2 <= max_feasible_cities_of self width height ->
  let requested := max_feasible_cities_of self width height in
  let city_radius := city_radius_of self in
  exists first,
    _generate_random_city_positions requested city_radius width height
      np_random log = Ok first
    /\ match place_cities self fuel requested city_radius width height
               np_random log with
       | Ok final =>
           exists k, (k < fuel)%nat
             /\ detections k requested city_radius width height first
             /\ attempt k requested city_radius width height first = Ok final
             /\ contains_cliques final.1.1 = Ok false
             /\ 3 <= len final.1.1
       | Raise e =>
           e = IndexError
           /\ exists k last, (k < fuel)%nat
                /\ detections k requested city_radius width height first
                /\ attempt k requested city_radius width height first = Ok last
                /\ contains_cliques last.1.1 = Raise IndexError
                /\ 1 <= len last.1.1 <= 2
       | OutOfFuel =>
           detections fuel requested city_radius width height first
       end
    /\ forall k final,
         detections k requested city_radius width height first ->
         attempt k requested city_radius width height first = Ok final ->
         contains_cliques final.1.1 = Ok false ->
         place_cities self fuel requested city_radius width height
           np_random log
         = if (k <? fuel)%nat then Ok final else OutOfFuel.
Proof.
  intros Hmode Hmany Hh Hw Hfeasible requested city_radius.
  destruct (feasible_interior self width height Hh Hw Hfeasible)
    as [Hroom_h Hroom_w]. fold city_radius in Hroom_h, Hroom_w.
  assert (Hr : 0 <= city_radius).
  { unfold city_radius, city_radius_of, rail_pairs_in_city_of. cbv zeta.
    destruct (Z.ltb_spec (max_rail_pairs_in_city self) 1); lia. }
  fold requested in Hfeasible.
  destruct (random_city_positions_total requested city_radius width height
              np_random log Hh Hw) as [first Hfirst].
  exists first. split; [done|].
  assert (Hsome : first.1.1 <> []).
  { unfold _generate_random_city_positions in Hfirst.
    destruct (place_random requested city_radius width height np_random)
      as [st| |] eqn:Hst; osimpl in Hfirst; [|done..].
    injection Hfirst as <-. cbn [fst snd].
    eapply place_random_some_city; [| | | |exact Hst]; [lia|done..]. }
  assert (Hjudged : forall (s : list (Z * Z) * rng_state R * list warning) e,
            s.1.1 <> [] -> contains_cliques s.1.1 = Raise (A:=bool) e ->
            e = IndexError /\ 1 <= len s.1.1 <= 2).
  { intros s e Hne Hraise.
    destruct (decide (length s.1.1 < 3)%nat) as [Hfew|Hthree].
    - rewrite (contains_cliques_short _ Hfew) in Hraise.
      rewrite bool_decide_eq_false_2 in Hraise by done.
      injection Hraise as <-. split; [done|]. unfold len.
      destruct s.1.1; [done|cbn in *; lia].
    - destruct (contains_cliques_returns s.1.1) as [b Hb]; [lia|]. congruence. }
  assert (Haccepted : forall s : list (Z * Z) * rng_state R * list warning,
            s.1.1 <> [] -> contains_cliques s.1.1 = Ok false ->
            3 <= len s.1.1).
  { intros s Hne Hclean.
    destruct (decide (length s.1.1 < 3)%nat) as [Hfew|Hthree];
      [|unfold len; lia].
    rewrite (contains_cliques_short _ Hfew) in Hclean.
    by rewrite bool_decide_eq_false_2 in Hclean. }
  unfold place_cities. rewrite Hmode, Hfirst. osimpl.
  destruct (Z.ltb_spec 4 (max_num_cities self)); [|lia].
  destruct first as [[ps rs] lg]. cbn [fst snd] in Hsome.
  split; [|intros k final Hbefore Hfinal Hclean].
  2: { pose proof (replace_while_cliques_run k requested city_radius width
                     height (ps, rs, lg) final Hbefore Hfinal Hclean fuel)
         as Hrun.
       cbn [fst snd] in Hrun. rewrite Hrun.
       destruct (k <? fuel)%nat; [|done]. osimpl.
       assert (Hthree : 3 <= len final.1.1).
       { apply Haccepted; [|done].
         eapply (attempt_some_city k requested city_radius width height
                   (ps, rs, lg)); [lia|done..]. }
       destruct final as [[psf rsf] lgf]. cbn [fst snd] in *. cbv zeta.
       by destruct (Z.ltb_spec (len psf) 2); [lia|]. }
  pose proof (replace_while_cliques_ends fuel requested city_radius width
                height (ps, rs, lg) Hh Hw) as Hends.
  cbn [fst snd] in Hends.
  destruct (replace_while_cliques fuel requested city_radius width height
              ps rs lg) as [final|e|]; osimpl.
  - destruct Hends as (k & Hk & Hbefore & Hfinal & Hclean).
    assert (Hthree : 3 <= len final.1.1).
    { apply Haccepted; [|done].
      eapply (attempt_some_city k requested city_radius width height
                (ps, rs, lg)); [lia|done..]. }
    destruct final as [[psf rsf] lgf]. cbn [fst snd] in *. cbv zeta.
    destruct (Z.ltb_spec (len psf) 2); [lia|].
    exists k. by repeat split.
  - destruct Hends as (k & last & Hk & Hbefore & Hlast & Hraise).
    destruct (Hjudged last e) as [-> Hlen]; [|done|].
    { eapply (attempt_some_city k requested city_radius width height
                (ps, rs, lg)); [lia|done..]. }
    split; [done|]. exists k, last. repeat split; done || lia.
  - done.
Qed.

(** C9 (amended). In random mode the random placement always returns (for
    a grid of non-negative size) with at most the requested number of
    cities; when it placed fewer, no allowed cell was left and it emitted
    the size warning. With at most 4 cities requested, the placement stage
    of [generate] then hands on exactly the cities placed when they are 2 or
    more; when fewer than 2 were placed it emits the grid-mode warning and
    hands on the evenly spaced grid placement instead. With any number
    requested, a list that the placement stage returns relates in the same
    way to one run of the random placement (the one the clique loop stopped
    at). *)
Theorem random_shortfall_keeps_or_falls_back (self : SparseRailGen)
    (fuel : nat) (requested city_radius width height : Z)
    (np_random : rng_state R) (log : list warning) :
  grid_mode self = false ->
  0 <= height -> 0 <= width -> 0 <= requested ->
  exists st,
    place_random requested city_radius width height np_random = Ok st
    /\ let placed := st_city_positions st in
       let log1 :=
         if len placed <? requested
         then log ++ [CouldNotSetAllCities (len placed) requested]
         else log in
       len placed <= requested
       /\ (len placed < requested -> np_where (st_allowed_grid st) = [])
       /\ _generate_random_city_positions requested city_radius width height
            np_random log = Ok (placed, st_np_random st, log1)
       /\ (max_num_cities self <= 4 ->
           place_cities self fuel requested city_radius width height
             np_random log
           = if 2 <=? len placed
             then Ok (placed, st_np_random st, log1)
             else
               city_positions ←
                 _generate_evenly_distr_city_positions requested city_radius
                   width height;
               Ok (city_positions, st_np_random st,
                   log1 ++ [ChangingToGridMode]))
       /\ forall city_positions np_random' log',
            place_cities self fuel requested city_radius width height
              np_random log = Ok (city_positions, np_random', log') ->
            exists kept,
              random_placement_of (R:=R) requested city_radius width height
                kept log'
              /\ (2 <= len kept -> city_positions = kept)
              /\ (len kept < 2 ->
                  ChangingToGridMode ∈ log'
                  /\ _generate_evenly_distr_city_positions requested
                       city_radius width height = Ok city_positions).
Proof.
  intros Hmode Hh Hw Hnum.
  destruct (place_random_total requested city_radius width height np_random
              Hh Hw) as [st Hst].
  exists st. split; [done|]. cbv zeta.
  set (placed := st_city_positions st).
  set (log1 := if len placed <? requested
               then log ++ [CouldNotSetAllCities (len placed) requested]
               else log).
  assert (Hfirst : _generate_random_city_positions requested city_radius
                     width height np_random log
                   = Ok (placed, st_np_random st, log1)).
  { unfold _generate_random_city_positions. by rewrite Hst. }
  assert (Hcount : (length placed <= Z.to_nat requested)%nat
                   /\ ((length placed < Z.to_nat requested)%nat ->
                       np_where (st_allowed_grid st) = [])).
  { pose proof Hst as Hloop. unfold place_random in Hloop.
    destruct (np_zeros height width) as [grid| |]; osimpl in Hloop; [|done..].
    apply place_loop_prefix in Hloop as (_ & Hle & Hlt).
    cbn [st_city_positions length] in *. split; [exact Hle|].
    intros Hshort. apply Hlt. exact Hshort. }
  destruct Hcount as [Hle Hshort].
  split; [unfold len; lia|]. split; [intros ?; apply Hshort; unfold len in *; lia|].
  split; [done|]. split.
  - intros Hsmall. unfold place_cities. rewrite Hmode, Hfirst. osimpl.
    destruct (Z.ltb_spec 4 (max_num_cities self)); [lia|]. osimpl. cbv zeta.
    destruct (Z.ltb_spec (len placed) 2), (Z.leb_spec 2 (len placed));
      done || lia.
  - intros city_positions np_random' log' Hplace.
    unfold place_cities in Hplace. rewrite Hmode, Hfirst in Hplace.
    osimpl in Hplace.
    assert (Hinv0 : random_placement_of (R:=R) requested city_radius width
                      height placed log1).
    { eapply random_positions_placement; [|exact Hfirst]. done. }
    assert (Hkept : exists kept rs2 log2,
              random_placement_of (R:=R) requested city_radius width height
                kept log2
              /\ (if len kept <? 2
                  then ps' ← _generate_evenly_distr_city_positions requested
                               city_radius width height;
                       Ok (ps', rs2, log2 ++ [ChangingToGridMode])
                  else Ok (kept, rs2, log2))
                 = Ok (city_positions, np_random', log')).
    { destruct (4 <? max_num_cities self).
      - destruct (replace_while_cliques fuel requested city_radius width
                    height placed (st_np_random st) log1)
          as [[[ps2 rs2] log2]| |] eqn:Hloop; osimpl in Hplace; [|done..].
        exists ps2, rs2, log2. split; [|exact Hplace].
        eapply replace_while_cliques_placement; [|exact Hinv0|exact Hloop]. lia.
      - osimpl in Hplace. by exists placed, (st_np_random st), log1. }
    destruct Hkept as (kept & rs2 & log2 & Hinv & Hend).
    exists kept.
    destruct (Z.ltb_spec (len kept) 2) as [Hfew|Htwo].
    + destruct (_generate_evenly_distr_city_positions requested city_radius
                  width height) as [ps'| |]; osimpl in Hend; [|done..].
      injection Hend as <- _ <-. split; [|split; [lia|]].
      * destruct Hinv as (rs3 & st3 & Hst3 & Hps & Hle3 & Hshort3).
        exists rs3, st3. split; [done|]. split; [done|]. split; [done|].
        intros Hlt. destruct (Hshort3 Hlt) as [Hmask Hwarn]. split; [done|].
        apply elem_of_app. by left.
      * intros _. split; [|done].
        apply elem_of_app. right. by apply list_elem_of_singleton.
    + injection Hend as <- _ <-. split; [done|]. split; [done|lia].
Qed.

End PlacementStage.

(** Six cities of radius 3 on a 42 x 34 grid: the first placement (six
    times the first allowed cell) has a clique, the second one (a ring) has
    none. *)
Definition six_cities : SparseRailGen :=
  {| max_num_cities := 6;
     grid_mode := false;
     max_rails_between_cities := 2;
     max_rail_pairs_in_city := 1;
     seed := None |}.
Definition ring_cities : list (Z * Z) :=
  [(5, 15); (5, 27); (15, 33); (25, 27); (25, 15); (15, 9)].
Definition first_cells : list (Z * Z) :=
  [(4, 4); (4, 13); (4, 22); (4, 31); (13, 4); (13, 13)].
Definition ring_script : rng_state ScriptedRNG :=
  ([0; 0; 0; 0; 0; 0; 45; 23; 113; 303; 232; 62], []).

Lemma clique_retry_until_clean_witness :
  exists first k,
    _generate_random_city_positions (R:=ScriptedRNG) 6 3 42 34 ring_script []
    = Ok first
    /\ first.1.1 = first_cells
    /\ place_cities (R:=ScriptedRNG) (N:=ExactNumpy) six_cities 2 6 3 42 34
         ring_script []
       = Ok (ring_cities, ([], []), [])
    /\ (k < 2)%nat
    /\ detections (R:=ScriptedRNG) (N:=ExactNumpy) k 6 3 42 34 first
    /\ attempt (R:=ScriptedRNG) k 6 3 42 34 first
       = Ok (ring_cities, ([], []), [])
    /\ contains_cliques (N:=ExactNumpy) ring_cities = Ok false
    /\ 3 <= len ring_cities.
Proof.
  pose proof (clique_retry_until_clean (R:=ScriptedRNG) (N:=ExactNumpy)
                six_cities 2 42 34 ring_script [] eq_refl) as Hends.
  cbv zeta in Hends.
  change (max_feasible_cities_of six_cities 42 34) with 6 in Hends.
  change (city_radius_of six_cities) with 3 in Hends.
  destruct Hends as (first & Hfirst & Hends); [reflexivity|lia|lia|lia|].
  assert (Hcells : _generate_random_city_positions (R:=ScriptedRNG) 6 3 42 34
                     ring_script []
                   = Ok (first_cells, ([45; 23; 113; 303; 232; 62], []), []))
    by (vm_compute; reflexivity).
  assert (Hrun : place_cities (R:=ScriptedRNG) (N:=ExactNumpy) six_cities 2
                   6 3 42 34 ring_script []
                 = Ok (ring_cities, ([], []), []))
    by (vm_compute; reflexivity).
  destruct Hends as [Hends _].
  rewrite Hrun in Hends. destruct Hends as (k & Hk & Hbefore & Hlast & Hclean).
  exists first, k. split; [exact Hfirst|]. split.
  { rewrite Hcells in Hfirst. injection Hfirst as <-. reflexivity. }
  split; [exact Hrun|]. split; [exact Hk|]. split; [exact Hbefore|].
  split; [exact Hlast|]. exact Hclean.
Defined.

(** Four cities requested on a 40 x 25 grid: a city at [(12, 12)] and one
    at [(12, 28)] leave no allowed cell. *)
Definition two_fit : rng_state ScriptedRNG := ([264; 127], []).

Lemma random_shortfall_keeps_or_falls_back_witness :
  exists st,
    place_random (R:=ScriptedRNG) 4 3 40 25 two_fit = Ok st
    /\ st_city_positions st = [(12, 12); (12, 28)]
    /\ np_where (st_allowed_grid st) = []
    /\ _generate_random_city_positions (R:=ScriptedRNG) 4 3 40 25 two_fit []
       = Ok ([(12, 12); (12, 28)], st_np_random st, [CouldNotSetAllCities 2 4])
    /\ place_cities (R:=ScriptedRNG) (N:=ExactNumpy) sparse4 0 4 3 40 25
         two_fit []
       = Ok ([(12, 12); (12, 28)], st_np_random st, [CouldNotSetAllCities 2 4]).
Proof.
  destruct (random_shortfall_keeps_or_falls_back (R:=ScriptedRNG)
              (N:=ExactNumpy) sparse4 0 4 3 40 25 two_fit [] eq_refl)
    as (st & Hst & Hrest); [lia|lia|lia|].
  cbv zeta in Hrest.
  assert (Hplaced : st_city_positions
                      <$> place_random (R:=ScriptedRNG) 4 3 40 25 two_fit
                    = Ok [(12, 12); (12, 28)])
    by (vm_compute; reflexivity).
  rewrite Hst in Hplaced. osimpl in Hplaced. injection Hplaced as Hplaced.
  rewrite Hplaced in Hrest.
  destruct Hrest as (_ & Hexhausted & Hfirst & Hkeep & _).
  exists st. split; [exact Hst|]. split; [exact Hplaced|].
  split; [apply Hexhausted; vm_compute; reflexivity|].
  split; [exact Hfirst|]. apply Hkeep. vm_compute. discriminate.
Defined.

End SparseRailGen.

(** * The other malfunction generators (malfunction_generators.py) *)

Module MalfunctionGenerators.

Import ParamMalfunctionGen.

Section Generators.

(** Outside the source file, as for [ParamMalfunctionGen]. *)
Context {DistanceMap : Type}.
Variable np_exp : float -> float.
Variable float_of_int : Z -> float.
Variable R : RNG.

(** ** [ParamMalfunctionGen.generate]: when it raises and when it breaks an
    agent *)

(** X18. [ParamMalfunctionGen.generate] raises [ZeroDivisionError] exactly
    for an agent away from its initial position whose travel time on the
    shortest path is [-1], also when [agent.position] is [None]: the
    probability is computed, with the division by [travel time + 1], before
    the position is looked at. It raises nothing else. *)
Theorem generate_zero_division (distance_map : DistanceMap)
    (np_random : rng_state R) (agent : EnvAgent DistanceMap) :
  (generate DistanceMap np_exp float_of_int R distance_map np_random agent
   = Raise ZeroDivisionError
   <-> position DistanceMap agent <> initial_position DistanceMap agent
       /\ get_travel_time_on_shortest_path DistanceMap agent distance_map = -1)
  /\ ((exists result,
         generate DistanceMap np_exp float_of_int R distance_map np_random agent
         = Ok result)
      \/ generate DistanceMap np_exp float_of_int R distance_map np_random agent
         = Raise ZeroDivisionError).
Proof.
  unfold generate.
  destruct (rng_random_sample R np_random) as [r0 s0].
  destruct (rng_random_sample R s0) as [r1 s1].
  destruct (rng_random_sample R s1) as [r2 s2].
  set (travel := get_travel_time_on_shortest_path DistanceMap agent distance_map).
  unfold float_div_int.
  destruct (bool_decide_reflect (position DistanceMap agent
                                 = initial_position DistanceMap agent))
    as [Hhome|Haway].
  - split; [split; [|by intros [? _]]|left].
    + by destruct ((0 <=? r0)%float && (r0 <=? 0.48)%float),
                  ((0.48 <? r0)%float && (r0 <=? 0.8)%float).
    + by destruct ((0 <=? r0)%float && (r0 <=? 0.48)%float),
                  ((0.48 <? r0)%float && (r0 <=? 0.8)%float); eexists.
  - destruct (Z.eqb_spec (travel + 1) 0) as [Hzero|Hnonzero].
    + split; [split; [intros _; split; [done|lia]|intros _]|right];
        by destruct ((0 <=? r0)%float && (r0 <=? 0.48)%float),
                    ((0.48 <? r0)%float && (r0 <=? 0.8)%float).
    + split; [split; [|intros [_ ?]; lia]|left].
      * by destruct ((0 <=? r0)%float && (r0 <=? 0.48)%float),
                    ((0.48 <? r0)%float && (r0 <=? 0.8)%float).
      * by destruct ((0 <=? r0)%float && (r0 <=? 0.48)%float),
                    ((0.48 <? r0)%float && (r0 <=? 0.8)%float); eexists.
Qed.

(** X19. For an agent standing at its initial position,
    [ParamMalfunctionGen.generate] returns a malfunction (of 2 to 50 steps)
    exactly when the second of its three random samples is below 0.05;
    neither the parameters of the generator nor the distance map play a
    part. *)
Theorem generate_at_initial_position (distance_map : DistanceMap)
    (np_random : rng_state R) (agent : EnvAgent DistanceMap)
    (cell : Z * Z) :
  position DistanceMap agent = Some cell ->
  initial_position DistanceMap agent = Some cell ->
  let samples1 := rng_random_sample R np_random in
  let samples2 := rng_random_sample R samples1.2 in
  let samples3 := rng_random_sample R samples2.2 in
  exists m,
    generate DistanceMap np_exp float_of_int R distance_map np_random agent
    = Ok ({| num_broken_steps := m |}, samples3.2)
    /\ if (samples2.1 <? 0.05)%float then 2 <= m <= 50 else m = 0.
Proof.
  intros Hposition Hinitial. cbv zeta. unfold generate.
  destruct (rng_random_sample R np_random) as [r0 s0]. cbn [fst snd].
  destruct (rng_random_sample R s0) as [r1 s1]. cbn [fst snd].
  destruct (rng_random_sample R s1) as [r2 s2]. cbn [fst snd].
  rewrite Hposition, Hinitial.
  rewrite bool_decide_eq_true_2 by done.
  destruct ((0 <=? r0)%float && (r0 <=? 0.48)%float),
           ((0.48 <? r0)%float && (r0 <=? 0.8)%float); osimpl;
    (eexists; split; [reflexivity|]);
    destruct (r1 <? 0.05)%float; try done;
    apply search_delay_bounds, range_bounds.
Qed.

(** ** [TestMalfunctionGen.generate] *)

(** [np_random.rand()] is one sample. The probability is the float
    [0.2 / 15]; [expected_delay] is the integer 2. *)
Definition test_generate (distance_map : DistanceMap)
    (np_random : rng_state R) (agent : EnvAgent DistanceMap)
  : Malfunction * rng_state R :=
  let malfunction_prob := (0.2 / 15)%float in
  let expected_delay := 2%float in
  match position DistanceMap agent with
  | None => ({| num_broken_steps := 0 |}, np_random)
  | Some _ =>
      let '(r, np_random) := rng_random_sample R np_random in
      if (r <? malfunction_prob)%float then
        let param := (1 / (10 * expected_delay))%float in
        let '(random_number, np_random) := rng_random_sample R np_random in
        ({| num_broken_steps :=
              search_delay np_exp float_of_int param random_number (range 49) |},
         np_random)
      else ({| num_broken_steps := 0 |}, np_random)
  end.

(** X20. [TestMalfunctionGen.generate] returns 0 broken steps or between 2
    and 50, never 1. For an agent without a position it returns 0 and
    draws no random number; otherwise it draws one sample when it returns
    0 and two when it returns a malfunction. *)
Theorem test_generate_spec (distance_map : DistanceMap)
    (np_random : rng_state R) (agent : EnvAgent DistanceMap) :
  let result := test_generate distance_map np_random agent in
  let m := num_broken_steps result.1 in
  (m = 0 \/ 2 <= m <= 50)
  /\ match position DistanceMap agent with
     | None => m = 0 /\ result.2 = np_random
     | Some _ =>
         let first := rng_random_sample R np_random in
         if (first.1 <? 0.2 / 15)%float
         then 2 <= m <= 50 /\ result.2 = (rng_random_sample R first.2).2
         else m = 0 /\ result.2 = first.2
     end.
Proof.
  cbv zeta. unfold test_generate.
  destruct (position DistanceMap agent) as [cell|].
  2: { split; [by left|done]. }
  destruct (rng_random_sample R np_random) as [r s1]. cbn [fst snd].
  destruct (r <? 0.2 / 15)%float.
  - destruct (rng_random_sample R s1) as [random_number s2]. cbn [fst snd].
    pose proof (search_delay_bounds np_exp float_of_int (1 / (10 * 2))%float
                  random_number (range 49) (range_bounds 49)) as Hbounds.
    split; [by right|done].
  - cbn [fst snd]. split; [by left|done].
Qed.

(** ** [malfunction_from_params] and [malfunction_from_file] *)

Definition _malfunction_prob (rate : float) : float :=
  if (rate <=? 0)%float then 0%float else (1 - np_exp (- rate))%float.

Record MalfunctionParameters : Type := {
  malfunction_rate : float;
  min_duration : Z;
  max_duration : Z;
}.

(** The generator that [malfunction_from_params] returns. *)
Definition params_generator (parameters : MalfunctionParameters)
    (np_random : rng_state R) (reset : bool)
  : outcome (Malfunction * rng_state R) :=
  let mean_malfunction_rate := malfunction_rate parameters in
  let min_number_of_steps_broken := min_duration parameters in
  let max_number_of_steps_broken := max_duration parameters in
  if reset then Ok ({| num_broken_steps := 0 |}, np_random) else
  let '(r, np_random) := rng_random_sample R np_random in
  if (r <? _malfunction_prob mean_malfunction_rate)%float then
    '(num_broken_steps, np_random) ←
      randint np_random min_number_of_steps_broken
              (max_number_of_steps_broken + 1);
    Ok ({| num_broken_steps := num_broken_steps |}, np_random)
  else Ok ({| num_broken_steps := 0 |}, np_random).

(** The generator that [malfunction_from_file] returns, for the parameters
    found in the file ([None] when the file has none);
    [malfunction_down_counter] is the counter of the agent's malfunction
    handler. *)
Definition file_generator (loaded : option MalfunctionParameters)
    (malfunction_down_counter : Z) (np_random : rng_state R) (reset : bool)
  : outcome (Malfunction * rng_state R) :=
  let mean_malfunction_rate :=
    match loaded with Some p => malfunction_rate p | None => 0%float end in
  let min_number_of_steps_broken :=
    match loaded with Some p => min_duration p | None => 0 end in
  let max_number_of_steps_broken :=
    match loaded with Some p => max_duration p | None => 0 end in
  if reset then Ok ({| num_broken_steps := 0 |}, np_random) else
  if malfunction_down_counter <? 1 then
    let '(r, np_random) := rng_random_sample R np_random in
    if (r <? _malfunction_prob mean_malfunction_rate)%float then
      '(drawn, np_random) ←
        randint np_random min_number_of_steps_broken
                (max_number_of_steps_broken + 1);
      Ok ({| num_broken_steps := drawn + 1 |}, np_random)
    else Ok ({| num_broken_steps := 0 |}, np_random)
  else Ok ({| num_broken_steps := 0 |}, np_random).

(** X21. The generator of [malfunction_from_params] answers a reset with
    0 broken steps and an untouched random state. Otherwise it draws one
    sample; below the malfunction probability it draws the duration, which
    lies between [min_duration] and [max_duration] (with
    [max_duration < min_duration] the draw raises [ValueError]); else it
    returns 0. *)
Theorem params_generator_spec (parameters : MalfunctionParameters)
    (np_random : rng_state R) (reset : bool) :
  if reset then
    params_generator parameters np_random reset
    = Ok ({| num_broken_steps := 0 |}, np_random)
  else
    let sample := rng_random_sample R np_random in
    if (sample.1 <? _malfunction_prob (malfunction_rate parameters))%float then
      if max_duration parameters <? min_duration parameters then
        params_generator parameters np_random reset
        = Raise (ValueError randint_range_msg)
      else
        exists m np_random',
          params_generator parameters np_random reset
          = Ok ({| num_broken_steps := m |}, np_random')
          /\ min_duration parameters <= m <= max_duration parameters
    else
      params_generator parameters np_random reset
      = Ok ({| num_broken_steps := 0 |}, sample.2).
Proof.
  unfold params_generator. cbv zeta. destruct reset; [done|].
  destruct (rng_random_sample R np_random) as [r s1]. cbn [fst snd].
  destruct (r <? _)%float; [|done]. unfold randint.
  destruct (Z.ltb_spec (max_duration parameters) (min_duration parameters))
    as [Hempty|Hrange].
  - by destruct (Z.ltb_spec (min_duration parameters)
                   (max_duration parameters + 1)); [lia|].
  - destruct (Z.ltb_spec (min_duration parameters)
                (max_duration parameters + 1)) as [Hlt|]; [|lia].
    pose proof (rng_randint_range R s1 _ _ Hlt) as Hdraw.
    destruct (rng_randint R s1 _ _) as [m s2]. cbn [fst] in Hdraw. osimpl.
    exists m, s2. split; [done|lia].
Qed.

(** X22. The generator of [malfunction_from_file] differs from the one of
    [malfunction_from_params] on the same parameters in two ways: it
    leaves an agent alone whose malfunction counter is 1 or more (no
    random number is drawn), and it adds one step to every duration it
    draws, so that a malfunction lasts between [min_duration + 1] and
    [max_duration + 1] steps. *)
Theorem file_generator_shifts_by_one (parameters : MalfunctionParameters)
    (malfunction_down_counter : Z) (np_random : rng_state R) :
  if malfunction_down_counter <? 1 then
    let sample := rng_random_sample R np_random in
    if (sample.1 <? _malfunction_prob (malfunction_rate parameters))%float then
      file_generator (Some parameters) malfunction_down_counter np_random false
      = (fun result : Malfunction * rng_state R =>
           ({| num_broken_steps := num_broken_steps result.1 + 1 |}, result.2))
        <$> params_generator parameters np_random false
    else
      file_generator (Some parameters) malfunction_down_counter np_random false
      = params_generator parameters np_random false
  else
    file_generator (Some parameters) malfunction_down_counter np_random false
    = Ok ({| num_broken_steps := 0 |}, np_random).
Proof.
  unfold file_generator, params_generator. cbv zeta.
  destruct (malfunction_down_counter <? 1); [|done].
  destruct (rng_random_sample R np_random) as [r s1]. cbn [fst snd].
  destruct (r <? _)%float; [|done].
  destruct (randint s1 _ _) as [[m s2]| |]; done.
Qed.

End Generators.

(** An agent that waits at its initial position. *)
Definition waiting_agent : EnvAgent unit :=
  {| position := Some (3, 9);
     initial_position := Some (3, 9);
     get_travel_time_on_shortest_path := fun _ => 12 |}.

Lemma generate_at_initial_position_witness :
  exists m,
    generate unit exp_stand_in float_of_Z ScriptedRNG tt
      ([], [0.9; 0.01; 0.5]%float) waiting_agent
    = Ok ({| num_broken_steps := m |}, ([], []))
    /\ 2 <= m <= 50.
Proof.
  exact (generate_at_initial_position (DistanceMap:=unit) exp_stand_in
           float_of_Z ScriptedRNG tt ([], [0.9; 0.01; 0.5]%float)
           waiting_agent (3, 9) eq_refl eq_refl).
Defined.

End MalfunctionGenerators.

From stdpp Require Import gmap.
Local Open Scope Z_scope.

(** * [single_malfunction_generator] (malfunction_generators.py) *)

Module SingleMalfunction.

Import ParamMalfunctionGen.

Section Generator.

(** [TrainState] is flatland's enumeration; the generator only asks whether
    the state of the agent is [MOVING] or [STOPPED]. *)
Context {TrainState : Type} `{EqDecision TrainState}.
Variables MOVING STOPPED : TrainState.

(** What the generator reads of an agent. *)
Record EnvAgent : Type := {
  handle : Z;
  state : TrainState;
}.

(** The two variables of the enclosing function that the generator
    updates ([nonlocal]). *)
Record closure : Type := {
  global_nr_malfunctions : Z;
  malfunction_calls : gmap Z Z;
}.

(** The closure when [single_malfunction_generator] returns. *)
Definition fresh : closure :=
  {| global_nr_malfunctions := 0; malfunction_calls := ∅ |}.

(** One call of the generator. A missing key of [malfunction_calls] cannot
    be read: the branch before sets it. *)
Definition generator (earlierst_malfunction malfunction_duration : Z)
    (c : closure) (agent : EnvAgent) (reset : bool) : Malfunction * closure :=
  (* Reset malfunciton generator *)
  if reset then ({| num_broken_steps := 0 |}, fresh) else
  (* No more malfunctions if we already had one, ignore all updates *)
  if 0 <? global_nr_malfunctions c then ({| num_broken_steps := 0 |}, c) else
  (* Update number of calls per agent *)
  let calls :=
    match malfunction_calls c !! handle agent with
    | Some n => n + 1
    | None => 1
    end in
  let malfunction_calls := <[handle agent := calls]> (malfunction_calls c) in
  (* Break an agent that is active at the time of the malfunction *)
  if (bool_decide (state agent = MOVING) || bool_decide (state agent = STOPPED))
     && (earlierst_malfunction <=? calls)
  then ({| num_broken_steps := malfunction_duration |},
        {| global_nr_malfunctions := global_nr_malfunctions c + 1;
           malfunction_calls := malfunction_calls |})
  else ({| num_broken_steps := 0 |},
        {| global_nr_malfunctions := global_nr_malfunctions c;
           malfunction_calls := malfunction_calls |}).

(** A sequence of calls without reset, with the answers in order. *)
Fixpoint calls_without_reset (earlierst_malfunction malfunction_duration : Z)
    (c : closure) (agents : list EnvAgent) : list Malfunction * closure :=
  match agents with
  | [] => ([], c)
  | agent :: rest =>
      let '(answer, c) :=
        generator earlierst_malfunction malfunction_duration c agent false in
      let '(answers, c) :=
        calls_without_reset earlierst_malfunction malfunction_duration c rest in
      (answer :: answers, c)
  end.

Lemma generator_after_malfunction (earliest duration : Z) (c : closure)
    (agents : list EnvAgent) :
  0 < global_nr_malfunctions c ->
  calls_without_reset earliest duration c agents
  = (replicate (length agents) {| num_broken_steps := 0 |}, c).
Proof.
  intros Hone. induction agents as [|agent rest IH]; [done|].
  cbn [calls_without_reset]. unfold generator.
  destruct (Z.ltb_spec 0 (global_nr_malfunctions c)); [|lia].
  by rewrite IH.
Qed.

(** One call: the answer is 0, or it is the malfunction and the counter goes
    from 0 to 1. *)
Lemma generator_answer (earliest duration : Z) (c : closure)
    (agent : EnvAgent) :
  0 <= global_nr_malfunctions c <= 1 ->
  let result := generator earliest duration c agent false in
  (result.1 = {| num_broken_steps := 0 |}
   /\ global_nr_malfunctions result.2 = global_nr_malfunctions c)
  \/ (result.1 = {| num_broken_steps := duration |}
      /\ global_nr_malfunctions c = 0
      /\ global_nr_malfunctions result.2 = 1).
Proof.
  intros Hcount. cbv zeta. unfold generator.
  destruct (Z.ltb_spec 0 (global_nr_malfunctions c)); [by left|].
  destruct (_ && _); [right|by left]. cbn. repeat split; lia.
Qed.

(** X23. Between two resets the generator of [single_malfunction_generator]
    gives at most one malfunction: in any sequence of calls without reset,
    starting from the closure as [single_malfunction_generator] or a reset
    leaves it, every answer is 0 broken steps or [malfunction_duration], and
    after an answer other than 0 every later answer is 0. The counter
    [global_nr_malfunctions] ends at 0 or 1, and at 0 only when every answer
    was 0 or the duration itself is 0. *)
Theorem single_malfunction_at_most_once (earlierst_malfunction
    malfunction_duration : Z) (agents : list EnvAgent) :
  let run :=
    calls_without_reset earlierst_malfunction malfunction_duration fresh agents in
  (forall answer, answer ∈ run.1 ->
     num_broken_steps answer = 0
     \/ num_broken_steps answer = malfunction_duration)
  /\ (forall (i j : nat) a b, (i < j)%nat ->
        run.1 !! i = Some a -> run.1 !! j = Some b ->
        num_broken_steps a <> 0 -> num_broken_steps b = 0)
  /\ 0 <= global_nr_malfunctions run.2 <= 1
  /\ (global_nr_malfunctions run.2 = 0 ->
      forall answer, answer ∈ run.1 -> num_broken_steps answer = 0).
Proof.
  cbv zeta.
  assert (Hfresh : 0 <= global_nr_malfunctions fresh <= 1) by (cbn; lia).
  revert Hfresh. generalize fresh as c.
  induction agents as [|agent rest IH]; intros c Hcount.
  { cbn. split; [by intros ? ?%elem_of_nil|]. split; [by intros [|?] ?|].
    split; [done|]. by intros _ ? ?%elem_of_nil. }
  cbn [calls_without_reset].
  pose proof (generator_answer earlierst_malfunction malfunction_duration c
                agent Hcount) as Hanswer. cbv zeta in Hanswer.
  destruct (generator earlierst_malfunction malfunction_duration c agent false)
    as [answer c1]. cbn [fst snd] in Hanswer.
  destruct Hanswer as [[-> Hsame]|(-> & Hzero & Hone)].
  - destruct (IH c1 ltac:(lia)) as (Hvalues & Honce & Hfinal & Hnone).
    destruct (calls_without_reset _ _ c1 rest) as [answers c2].
    cbn [fst snd] in *. split; [|split; [|split; [done|]]].
    + intros a [->|Ha]%elem_of_cons; [by left|auto].
    + intros [|i] [|j] a b Hij Ha Hb Hnonzero; try lia.
      * cbn in Ha. by injection Ha as <-.
      * cbn in Ha, Hb. eapply (Honce i j); [lia|done..].
    + intros Hend a [->|Ha]%elem_of_cons; [done|auto].
  - rewrite generator_after_malfunction by lia. cbn [fst snd].
    split; [|split; [|split; [lia|lia]]].
    + intros a [->|Ha]%elem_of_cons; [by right|].
      apply elem_of_replicate in Ha as [-> _]. by left.
    + intros [|i] [|j] a b Hij Ha Hb Hnonzero; try lia.
      * cbn in Hb. by apply lookup_replicate in Hb as [-> _].
      * cbn in Ha. apply lookup_replicate in Ha as [-> _]. done.
Qed.

(** *** When the malfunction is given *)

(** The number of calls for the agent with handle [h] among [agents]. *)
Definition calls_of (h : Z) (agents : list EnvAgent) : Z :=
  len (filter (fun agent => handle agent = h) agents).

(** Whether a call for [agent] that comes after the calls [before] breaks
    the agent: the agent is active and this is at least its
    [earlierst_malfunction]-th call. *)
Definition due (earlierst_malfunction : Z) (before : list EnvAgent)
    (agent : EnvAgent) : bool :=
  (bool_decide (state agent = MOVING) || bool_decide (state agent = STOPPED))
  && (earlierst_malfunction <=? calls_of (handle agent) before + 1).

(** The closure counts the calls of the agents seen so far. *)
Definition counts (c : closure) (seen : list EnvAgent) : Prop :=
  global_nr_malfunctions c = 0
  /\ forall h, default 0 (malfunction_calls c !! h) = calls_of h seen.

Lemma calls_of_snoc (h : Z) (seen : list EnvAgent) (agent : EnvAgent) :
  calls_of h (seen ++ [agent])
  = calls_of h seen + (if bool_decide (handle agent = h) then 1 else 0).
Proof.
  unfold calls_of, len. rewrite filter_app, length_app.
  rewrite filter_cons, filter_nil.
  destruct (decide (handle agent = h)) as [Heq|Hne].
  - rewrite bool_decide_eq_true_2 by done. cbn. lia.
  - rewrite bool_decide_eq_false_2 by done. cbn. lia.
Qed.

Lemma calls_of_nonneg (h : Z) (seen : list EnvAgent) : 0 <= calls_of h seen.
Proof. unfold calls_of, len. lia. Qed.

Lemma generator_counts (earliest duration : Z) (c : closure)
    (seen : list EnvAgent) (agent : EnvAgent) :
  counts c seen ->
  let result := generator earliest duration c agent false in
  if due earliest seen agent
  then result.1 = {| num_broken_steps := duration |}
  else result.1 = {| num_broken_steps := 0 |}
       /\ counts result.2 (seen ++ [agent]).
Proof.
  intros [Hzero Hcalls]. cbv zeta. unfold generator, due.
  destruct (Z.ltb_spec 0 (global_nr_malfunctions c)); [lia|].
  assert (Hnext : match malfunction_calls c !! handle agent with
                  | Some n => n + 1
                  | None => 1
                  end = calls_of (handle agent) seen + 1).
  { specialize (Hcalls (handle agent)).
    destruct (malfunction_calls c !! handle agent) as [n|]; cbn in Hcalls; lia. }
  rewrite Hnext.
  destruct (_ && _); [done|]. cbn [fst snd]. split; [done|].
  split; [done|]. intros h. cbn [malfunction_calls].
  rewrite calls_of_snoc.
  destruct (decide (handle agent = h)) as [<-|Hne].
  - rewrite lookup_insert_eq, bool_decide_eq_true_2 by done. done.
  - rewrite lookup_insert_ne, bool_decide_eq_false_2 by done.
    rewrite Hcalls. lia.
Qed.

Lemma calls_counted (earliest duration : Z) (c : closure)
    (seen before : list EnvAgent) (agent : EnvAgent) (after : list EnvAgent) :
  counts c seen ->
  (forall earlier agent' later,
      before = earlier ++ agent' :: later ->
      due earliest (seen ++ earlier) agent' = false) ->
  (calls_without_reset earliest duration c (before ++ agent :: after)).1
    !! length before
  = Some {| num_broken_steps :=
              if due earliest (seen ++ before) agent then duration else 0 |}.
Proof.
  revert c seen. induction before as [|first before IH]; intros c seen Hc Hquiet.
  - cbn [app length calls_without_reset]. rewrite app_nil_r.
    pose proof (generator_counts earliest duration c seen agent Hc) as Hstep.
    cbv zeta in Hstep.
    destruct (generator earliest duration c agent false) as [answer c1].
    destruct (calls_without_reset _ _ c1 after) as [answers c2].
    cbn [fst snd] in *.
    destruct (due earliest seen agent); [by rewrite Hstep|].
    by destruct Hstep as [-> _].
  - cbn [app length calls_without_reset].
    pose proof (generator_counts earliest duration c seen first Hc) as Hstep.
    cbv zeta in Hstep.
    pose proof (Hquiet [] first before eq_refl) as Hfirst.
    rewrite app_nil_r in Hfirst. rewrite Hfirst in Hstep.
    destruct (generator earliest duration c first false) as [answer c1].
    cbn [fst snd] in Hstep. destruct Hstep as [_ Hc1].
    specialize (IH c1 (seen ++ [first]) Hc1).
    destruct (calls_without_reset _ _ c1 (before ++ agent :: after))
      as [answers c2]. cbn [fst snd] in *.
    change ((answer :: answers) !! S (length before))
      with (answers !! length before).
    rewrite IH; [by rewrite <- app_assoc|].
    intros earlier agent' later ->.
    rewrite <- app_assoc. cbn [app].
    by apply (Hquiet (first :: earlier) agent' later).
Qed.

(** X24. After [single_malfunction_generator] or a reset, the malfunction
    goes to the first call that is due: a call for an agent that is
    [MOVING] or [STOPPED] and that has been asked at least
    [earlierst_malfunction] times, this call included. As long as no call
    was due, a call is answered with [malfunction_duration] when it is due
    and with 0 when it is not. *)
Theorem single_malfunction_first_due_call (earlierst_malfunction
    malfunction_duration : Z) (before : list EnvAgent) (agent : EnvAgent)
    (after : list EnvAgent) :
  (forall earlier agent' later,
      before = earlier ++ agent' :: later ->
      due earlierst_malfunction earlier agent' = false) ->
  (calls_without_reset earlierst_malfunction malfunction_duration fresh
     (before ++ agent :: after)).1 !! length before
  = Some {| num_broken_steps :=
              if due earlierst_malfunction before agent
              then malfunction_duration else 0 |}.
Proof.
  intros Hquiet.
  apply (calls_counted earlierst_malfunction malfunction_duration fresh []
           before agent after); [|exact Hquiet].
  split; [done|]. intros h. unfold fresh. cbn [malfunction_calls].
  by rewrite lookup_empty.
Qed.

End Generator.

(** Three states of an agent and a run of five calls: agent 7 is asked
    while it waits, then twice while it moves; the malfunction is due at its
    third call. *)
Inductive sample_state : Type := Waiting | Moving | Stopped.

#[local] Instance sample_state_eq_dec : EqDecision sample_state.
Proof. solve_decision. Defined.

Definition sample_before : list (EnvAgent (TrainState:=sample_state)) :=
  [{| handle := 7; state := Waiting |};
   {| handle := 7; state := Moving |};
   {| handle := 3; state := Stopped |}].

Definition sample_agent : EnvAgent (TrainState:=sample_state) :=
  {| handle := 7; state := Moving |}.

Lemma single_malfunction_first_due_call_witness :
  due Moving Stopped 3 sample_before sample_agent = true
  /\ (calls_without_reset Moving Stopped 3 20 fresh
        (sample_before ++ sample_agent :: [{| handle := 3; state := Stopped |}])).1
      !! length sample_before
     = Some {| num_broken_steps :=
                 if due Moving Stopped 3 sample_before sample_agent
                 then 20 else 0 |}.
Proof.
  split; [vm_compute; reflexivity|].
  apply (single_malfunction_first_due_call Moving Stopped 3 20
           sample_before sample_agent [{| handle := 3; state := Stopped |}]).
  intros earlier agent' later Hsplit. unfold sample_before in Hsplit.
  destruct earlier as [|a1 [|a2 [|a3 [|a4 earlier]]]]; cbn in Hsplit.
  - injection Hsplit as <- _. vm_compute. reflexivity.
  - injection Hsplit as <- <- _. vm_compute. reflexivity.
  - injection Hsplit as <- <- <- _. vm_compute. reflexivity.
  - by destruct later.
  - by destruct earlier.
Defined.

End SingleMalfunction.

(** * Line generators (line_generators.py) *)

Module LineGenerators.

(** ** [np_random.choice]

    Two uses: [choice(n, size, p=p)] draws [size] indexes below [n], and
    [choice(a)] draws an entry of a non-empty list. *)
Record Chooser (R : RNG) : Type := {
  rng_choice :
    rng_state R -> Z -> Z -> list float -> outcome (list Z * rng_state R);
  rng_choice_range :
    forall s n size p idxs s',
      rng_choice s n size p = Ok (idxs, s') ->
      len idxs = size /\ forall i, i ∈ idxs -> 0 <= i < n;
  rng_choice_of : rng_state R -> list Z -> Z * rng_state R;
  rng_choice_of_elem :
    forall s (a : list Z), a <> [] -> (rng_choice_of s a).1 ∈ a;
}.
Arguments rng_choice {R} _ _ _ _ _.
Arguments rng_choice_range {R} _ _ _ _ _ _ _ _.
Arguments rng_choice_of {R} _ _ _.
Arguments rng_choice_of_elem {R} _ _ _ _.

Section Generators.
Context {R : RNG} (C : Chooser R).

(** ** [speed_initialization_helper] *)

(** [speed_ratio_map] is a dict from speed to ratio: the list of its items,
    in the order of the dict. *)
Definition speed_initialization_helper (nb_agents : Z)
    (speed_ratio_map : option (list (float * float)))
    (np_random : rng_state R) : outcome (list float * rng_state R) :=
  match speed_ratio_map with
  | None => Ok (replicate (Z.to_nat nb_agents) 1%float, np_random)
  | Some speed_ratio_map_as_list =>
      let nb_classes := len speed_ratio_map_as_list in
      let speed_ratios := snd <$> speed_ratio_map_as_list in
      let speeds := fst <$> speed_ratio_map_as_list in
      '(indexes, np_random) ←
        rng_choice C np_random nb_classes nb_agents speed_ratios;
      result ← for_append (fun index => py_index speeds index) indexes;
      Ok (result, np_random)
  end.

(** X25. With a speed map, whenever [np_random.choice] returns,
    [speed_initialization_helper] returns one speed per agent, each of them
    a key of the map, and leaves the random source as the draw left it. *)
Theorem speed_initialization_helper_spec (nb_agents : Z)
    (speed_ratio_map : list (float * float))
    (np_random np_random' : rng_state R) (indexes : list Z) :
  rng_choice C np_random (len speed_ratio_map) nb_agents
    (snd <$> speed_ratio_map) = Ok (indexes, np_random') ->
  exists speeds,
    speed_initialization_helper nb_agents (Some speed_ratio_map) np_random
    = Ok (speeds, np_random')
    /\ len speeds = nb_agents
    /\ forall speed, speed ∈ speeds -> speed ∈ (fst <$> speed_ratio_map).
Proof.
  intros Hchoice. unfold speed_initialization_helper.
  cbv zeta. rewrite Hchoice. osimpl.
  set (keys := fst <$> speed_ratio_map).
  apply rng_choice_range in Hchoice as [Hsize Hrange].
  assert (Hkeys : length keys = length speed_ratio_map)
    by apply length_fmap.
  assert (Hall : forall i, i ∈ indexes ->
            py_index keys i = Ok (default 0%float (keys !! Z.to_nat i))).
  { intros i Hi. specialize (Hrange i Hi).
    rewrite SparseRailGen.py_index_nonneg by lia.
    destruct (lookup_lt_is_Some_2 keys (Z.to_nat i)) as [x ->]; [|done].
    unfold len in Hrange. lia. }
  rewrite (for_append_ok (fun index => py_index keys index)
             (fun i => default 0%float (keys !! Z.to_nat i))
             indexes Hall). osimpl.
  eexists. split; [reflexivity|]. split.
  - unfold len in *. by rewrite length_fmap.
  - intros speed (i & -> & Hi)%list_elem_of_fmap.
    specialize (Hrange i Hi).
    destruct (lookup_lt_is_Some_2 keys (Z.to_nat i)) as [x Hx].
    { unfold len in Hrange. lia. }
    rewrite Hx. cbn. by eapply list_elem_of_lookup_2.
Qed.

(** ** [SparseLineGen.decide_orientation] *)

(** The rail and its path test live outside the source file. A station is
    a cell with its track number. *)
Context {Rail : Type}.
Variable check_path_exists : Rail -> Z * Z -> Z -> Z * Z -> bool.

Definition decide_orientation (rail : Rail) (start target : (Z * Z) * Z)
    (possible_orientations : list Z) (np_random : rng_state R)
  : Z * rng_state R :=
  let feasible_orientations :=
    filter (fun orientation =>
              check_path_exists rail start.1 orientation target.1 = true)
           possible_orientations in
  if 0 <? len feasible_orientations
  then rng_choice_of C np_random feasible_orientations
  else (0, np_random).

(** X26. [SparseLineGen.decide_orientation] returns one of the possible
    orientations along which the rail has a path from the start to the
    target; when there is none it returns 0, whether or not 0 is a possible
    orientation, and draws nothing. *)
Theorem decide_orientation_spec (rail : Rail) (start target : (Z * Z) * Z)
    (possible_orientations : list Z) (np_random : rng_state R) :
  let result :=
    decide_orientation rail start target possible_orientations np_random in
  if bool_decide
       (Exists (fun orientation =>
                  check_path_exists rail start.1 orientation target.1 = true)
               possible_orientations)
  then result.1 ∈ possible_orientations
       /\ check_path_exists rail start.1 result.1 target.1 = true
  else result = (0, np_random).
Proof.
  cbv zeta. unfold decide_orientation.
  set (feasible := filter _ possible_orientations).
  destruct (bool_decide_reflect
              (Exists (fun orientation =>
                         check_path_exists rail start.1 orientation target.1
                         = true) possible_orientations)) as [Hsome|Hnone].
  - apply Exists_exists in Hsome as (o & Ho & Hpath).
    assert (Hin : o ∈ feasible) by (by apply list_elem_of_filter).
    assert (Hne : feasible <> []).
    { intros Hnil. rewrite Hnil in Hin. by apply elem_of_nil in Hin. }
    destruct (Z.ltb_spec 0 (len feasible)) as [_|Hempty].
    + pose proof (rng_choice_of_elem C np_random feasible Hne) as Hchosen.
      by apply list_elem_of_filter in Hchosen as [? ?].
    + unfold len in Hempty. destruct feasible; [done|cbn in Hempty; lia].
  - destruct (Z.ltb_spec 0 (len feasible)) as [Hsome|_]; [|done].
    destruct feasible as [|o rest] eqn:Hfeasible;
      [unfold len in Hsome; cbn in Hsome; lia|].
    destruct Hnone. apply Exists_exists. exists o.
    assert (Hin : o ∈ feasible) by (rewrite Hfeasible; left).
    by apply list_elem_of_filter in Hin as [? ?].
Qed.

End Generators.

(** ** The loop bodies of [CustomLineGen.generate] and [TestLineGen.generate]

    Both fix the start and the target of an agent by its index and ask
    their own [decide_orientation], which reads nothing else. *)

(** [CustomLineGen.decide_orientation]; a call that passes all five tests
    returns [None]. *)
Definition custom_decide_orientation (start target : (Z * Z) * Z) : option Z :=
  if start.1.2 <? 23 then Some 1
  else if 102 <? start.1.2 then Some 3
  else if start.1.1 =? 7 then Some 3
  else if target.1.2 <? 23 then Some 3
  else if 102 <? target.1.2 then Some 1
  else None.

(** [x in range(a, b)]. *)
Definition in_range (a b x : Z) : bool := (a <=? x) && (x <? b).

(** The assignment of [agent_start] and [agent_target] for [agent_idx];
    [None] when no branch assigns them. *)
Definition custom_assignment (agent_idx : Z)
  : option (((Z * Z) * Z) * ((Z * Z) * Z)) :=
  let even := agent_idx mod 2 =? 0 in
  if in_range 0 16 (agent_idx mod 50) then
    if even then Some (((12, 61), 3), ((7, 109), 0))
    else Some (((7, 109), 0), ((12, 61), 3))
  else if in_range 16 24 (agent_idx mod 50) then
    if even then Some (((7, 61), 0), ((13, 13), 3))
    else Some (((13, 13), 3), ((7, 61), 0))
  else if in_range 24 28 (agent_idx mod 50) then
    if even then Some (((9, 15), 1), ((7, 61), 0))
    else Some (((7, 61), 0), ((8, 15), 0))
  else if in_range 28 36 (agent_idx mod 50) then
    if even then Some (((9, 67), 2), ((9, 109), 2))
    else Some (((8, 109), 1), ((8, 67), 1))
  else if in_range 36 40 (agent_idx mod 50) then
    if even then Some (((13, 13), 3), ((9, 109), 2))
    else Some (((8, 109), 1), ((13, 13), 3))
  else if in_range 40 46 (agent_idx mod 50) then
    if even then Some (((9, 15), 1), ((9, 109), 2))
    else Some (((8, 109), 1), ((8, 15), 0))
  else if in_range 46 48 (agent_idx mod 50) then
    if even then Some (((13, 13), 3), ((9, 109), 2))
    else Some (((8, 109), 1), ((13, 13), 3))
  else if in_range 48 50 (agent_idx mod 50) then
    if even then Some (((9, 15), 1), ((9, 109), 2))
    else Some (((8, 109), 1), ((8, 15), 0))
  else None.

(** What one iteration appends to [agents_position], [agents_target] and
    [agents_direction]. *)
Definition custom_agent (agent_idx : Z)
  : option ((Z * Z) * (Z * Z) * option Z) :=
  '(agent_start, agent_target) ← custom_assignment agent_idx;
  Some (agent_start.1, agent_target.1,
        custom_decide_orientation agent_start agent_target).

(** X27. In [CustomLineGen.generate] every agent index gets a start and a
    target from the table (no branch is missing for an index from 0 on),
    the two differ, and [decide_orientation] never falls through to
    [None]: the direction is 1 (East) or 3 (West). The assignment repeats
    with period 50. *)
Theorem custom_agent_spec (agent_idx : Z) :
  0 <= agent_idx ->
  exists position target direction,
    custom_agent agent_idx = Some (position, target, Some direction)
    /\ position <> target
    /\ (direction = 1 \/ direction = 3)
    /\ custom_agent (agent_idx + 50) = custom_agent agent_idx.
Proof.
  intros Hidx.
  assert (Hperiod : custom_agent (agent_idx + 50) = custom_agent agent_idx).
  { unfold custom_agent, custom_assignment.
    replace (agent_idx + 50) with (agent_idx + 1 * 50) by lia.
    rewrite Z.mod_add by lia.
    replace (agent_idx + 1 * 50) with (agent_idx + 25 * 2) by lia.
    by rewrite Z.mod_add by lia. }
  assert (Hsplit : agent_idx = 50 * (agent_idx / 50) + agent_idx mod 50)
    by (apply Z.div_mod; lia).
  pose proof (Z.mod_pos_bound agent_idx 50 ltac:(lia)) as Hresidue.
  assert (Hparity : agent_idx mod 2 = (agent_idx mod 50) mod 2).
  { rewrite Hsplit at 1.
    replace (50 * (agent_idx / 50) + agent_idx mod 50)
      with (agent_idx mod 50 + (25 * (agent_idx / 50)) * 2) by lia.
    by rewrite Z.mod_add by lia. }
  assert (Hcheck :
    forallb (fun residue =>
               match custom_agent residue with
               | Some (position, target, Some direction) =>
                   negb (bool_decide (position = target))
                   && ((direction =? 1) || (direction =? 3))
               | _ => false
               end) (range 50) = true) by (vm_compute; reflexivity).
  rewrite forallb_forall in Hcheck.
  specialize (Hcheck (agent_idx mod 50)).
  assert (Hsame : custom_agent agent_idx = custom_agent (agent_idx mod 50)).
  { unfold custom_agent, custom_assignment.
    rewrite Hparity, (Z.mod_small (agent_idx mod 50) 50) by lia. done. }
  rewrite Hperiod, Hsame.
  destruct (custom_agent (agent_idx mod 50))
    as [[[position target] [direction|]]|] eqn:Hagent.
  - exists position, target, direction.
    rewrite Hsame in Hperiod.
    assert (Hin : In (agent_idx mod 50) (range 50)).
    { apply list_elem_of_In. unfold range. apply list_elem_of_fmap.
      exists (Z.to_nat (agent_idx mod 50)). split; [lia|].
      apply elem_of_seq. lia. }
    apply Hcheck in Hin. apply andb_true_iff in Hin as [Hne Hdir].
    apply negb_true_iff, bool_decide_eq_false in Hne.
    apply orb_true_iff in Hdir. rewrite !Z.eqb_eq in Hdir. done.
  - exfalso. discriminate Hcheck.
    apply list_elem_of_In. unfold range. apply list_elem_of_fmap.
    exists (Z.to_nat (agent_idx mod 50)). split; [lia|]. apply elem_of_seq. lia.
  - exfalso. discriminate Hcheck.
    apply list_elem_of_In. unfold range. apply list_elem_of_fmap.
    exists (Z.to_nat (agent_idx mod 50)). split; [lia|]. apply elem_of_seq. lia.
Qed.

Lemma custom_agent_spec_witness :
  exists position target direction,
    custom_agent 77 = Some (position, target, Some direction)
    /\ position <> target
    /\ (direction = 1 \/ direction = 3)
    /\ custom_agent (77 + 50) = custom_agent 77.
Proof. apply (custom_agent_spec 77). lia. Defined.

(** A chooser for examples: [choice(n, size)] gives [size] times the
    index 0, [choice(a)] the first entry. *)
Definition choice_msg : string := "a must be greater than 0".

Program Definition FirstChooser (R : RNG) : Chooser R := {|
  rng_choice s n size p :=
    if (0 <? n) && (0 <=? size)
    then Ok (replicate (Z.to_nat size) 0, s)
    else Raise (ValueError choice_msg);
  rng_choice_of s a := (default 0 (head a), s);
|}.
Next Obligation.
  intros R s n size p idxs s' Hrun. cbv beta in Hrun.
  destruct (Z.ltb_spec 0 n); [|done].
  destruct (Z.leb_spec 0 size); [|done].
  cbn in Hrun. injection Hrun as <- <-. split.
  - unfold len. rewrite length_replicate. lia.
  - intros i [-> _]%elem_of_replicate. lia.
Qed.
Next Obligation.
  intros R s [|x a] Hne; [done|]. cbn. left.
Qed.

Lemma speed_initialization_helper_spec_witness :
  exists speeds,
    speed_initialization_helper (FirstChooser ScriptedRNG) 3
      (Some [(1%float, 0.25%float); (0.5%float, 0.75%float)]) ([], [])
    = Ok (speeds, ([], []))
    /\ len speeds = 3
    /\ forall speed, speed ∈ speeds ->
         speed ∈ (fst <$> [(1%float, 0.25%float); (0.5%float, 0.75%float)]).
Proof.
  apply (speed_initialization_helper_spec (FirstChooser ScriptedRNG) 3
           [(1%float, 0.25%float); (0.5%float, 0.75%float)]
           ([], []) ([], []) [0; 0; 0]).
  reflexivity.
Defined.

End LineGenerators.
